(** * Modmail bot: block policy, closure recovery and reaction handling

    A shallow embedding of the event handlers of [bot.py] (class
    [ModmailBot]) together with the properties they satisfy.

    Conventions of the embedding:
    - a [datetime] is the number of microseconds since the epoch, as [Z];
      a difference of two datetimes is kept in microseconds (the integer
      from which [total_seconds()] is computed), so sign tests agree;
    - a coroutine is a function from the bot state to an [Outcome]: it
      returns a value or raises, and in both cases hands back the state
      it has reached (mutations made before a raise stay);
    - calls made to the chat gateway and to the persistent store are
      appended to [trace], oldest first;
    - [wait_for_connected] only suspends the handler, it is not modelled. *)

From Stdlib Require Import ZArith String Ascii List Lia Bool.
From stdpp Require Import base option list gmap strings pretty.

Local Open Scope string_scope.
Local Open Scope Z_scope.

(** ** Exceptions and outcomes *)

Inductive exn : Type :=
| TypeError
| ValueError
| OverflowError
| AttributeError
| KeyError
| BadArgument.

#[global] Instance exn_eq_dec : EqDecision exn.
Proof. solve_decision. Defined.

Inductive Outcome (S A : Type) : Type :=
| Return (a : A) (s : S)
| Raise (e : exn) (s : S).

Arguments Return {S A} a s.
Arguments Raise {S A} e s.

Definition state_of {S A} (o : Outcome S A) : S :=
  match o with
  | Return _ s => s
  | Raise _ s => s
  end.

Definition value_of {S A} (o : Outcome S A) : option A :=
  match o with
  | Return a _ => Some a
  | Raise _ _ => None
  end.

Definition M (S A : Type) : Type := S -> Outcome S A.

Definition ret {S A} (a : A) : M S A := fun s => Return a s.

Definition bind {S A B} (m : M S A) (k : A -> M S B) : M S B :=
  fun s =>
    match m s with
    | Return a s' => k a s'
    | Raise e s' => Raise e s'
    end.

Definition raise {S A} (e : exn) : M S A := fun s => Raise e s.

Definition modify {S} (f : S -> S) : M S unit := fun s => Return tt (f s).

(** [try: m except e: h] *)
Definition try_except {S A} (m : M S A) (e : exn) (h : M S A) : M S A :=
  fun s =>
    match m s with
    | Return a s' => Return a s'
    | Raise e' s' =>
        if decide (e' = e) then h s' else Raise e' s'
    end.

Declare Scope py_scope.
Delimit Scope py_scope with py.
Notation "x <- m ;; k" := (bind m (fun x => k))
  (at level 100, m at next level, right associativity) : py_scope.
Notation "m ;;; k" := (bind m (fun _ => k))
  (at level 100, right associativity) : py_scope.
Local Open Scope py_scope.

(** ** Values held by the configuration cache *)

Inductive pyval : Type :=
| PNone
| PBool (b : bool)
| PInt (z : Z)
| PStr (s : string).

(** Python truthiness, as used by [if recipient_thread_close:]. *)
Definition truthy (v : pyval) : bool :=
  match v with
  | PNone => false
  | PBool b => b
  | PInt z => negb (z =? 0)
  | PStr s => negb (String.eqb s "")
  end.

(** An emoji is either a plain string (a unicode emoji, or the word
    [disable]) or the [discord.Emoji] object produced by the converter,
    kept by its [str()] rendering. *)
Inductive emoji : Type :=
| Plain (s : string)
| Custom (rendering : string).

Definition str_emoji (e : emoji) : string :=
  match e with
  | Plain s => s
  | Custom r => r
  end.

(** [e != "disable"] *)
Definition not_disable (e : emoji) : bool :=
  match e with
  | Plain s => negb (String.eqb s "disable")
  | Custom _ => true
  end.

(** ** Gateway objects and threads *)

Record User : Type := {
  user_id : Z;
  user_bot : bool;
  user_created_at : Z;
  (** [getattr(author, "joined_at", None)]: absent on a [discord.User] *)
  user_joined_at : option Z
}.

Inductive ChannelKind : Type :=
| DMChannel
| TextChannel
| CategoryChannel
| VoiceChannel.

#[global] Instance ChannelKind_eq_dec : EqDecision ChannelKind.
Proof. solve_decision. Defined.

Record Channel : Type := {
  channel_id : Z;
  channel_kind : ChannelKind;
  (** [channel.guild], by id; a private channel has none *)
  channel_guild : option Z;
  channel_created_at : Z
}.

Record Embed : Type := {
  (** [embed.timestamp]; [None] stands for [Embed.Empty] *)
  embed_timestamp : option Z;
  (** [str(embed.author.url).split("/")[-1]] *)
  embed_author_url_tail : string
}.

Inductive MessageType : Type :=
| default_type
| pins_add.

#[global] Instance MessageType_eq_dec : EqDecision MessageType.
Proof. solve_decision. Defined.

Record Message : Type := {
  message_id : Z;
  message_author : User;
  message_channel : Channel;
  message_type : MessageType;
  message_content : string;
  message_embeds : list Embed
}.

Record Category : Type := {
  category_id : Z;
  category_name : string;
  (** [category.channels] *)
  category_channels : list Channel
}.

Record Guild : Type := {
  guild_ident : Z;
  guild_categories : list Category
}.

Record Thread : Type := {
  thread_recipient : User;
  thread_channel : Channel
}.

(** The gateway cache and the lookups the handlers make against it. *)
Record Gateway : Type := {
  (** [self.user] *)
  bot_user : User;
  (** [self.guilds] *)
  guilds : list Guild;
  (** [self.get_user] *)
  get_user : Z -> option User;
  (** [self.get_channel] *)
  get_channel : Z -> option Channel;
  (** [recipient.create_dm()] *)
  create_dm : User -> Channel;
  (** [channel.fetch_message]; [None] is [discord.NotFound] *)
  fetch_message : Channel -> Z -> option Message;
  (** [self.modmail_guild.audit_logs()], newest first: target id and user *)
  audit_logs : list (Z * User);
  (** the relay channel the gateway creates for a recipient *)
  create_channel : User -> Channel;
  (** [channel.history()] *)
  channel_history : Channel -> list Message;
  (** the threads [populate_cache] rebuilds from the relay channels *)
  relay_threads : list Thread
}.

(** [RawReactionActionEvent]; the emoji is kept by its [str()]. *)
Record Payload : Type := {
  payload_user_id : Z;
  payload_channel_id : Z;
  payload_message_id : Z;
  payload_emoji : string
}.

(** ** Persisted configuration *)

(** One value of [config["closures"]]. *)
Record Closure : Type := {
  closure_time : string;
  (** absent for an automatic closure *)
  closure_closer_id : option Z;
  closure_silent : bool;
  closure_delete_channel : bool;
  closure_message : option string;
  (** [items.get("auto_close", False)] *)
  closure_auto_close : option bool
}.

Record Config : Type := {
  (** [config["blocked"]]: user id (as text) to reason *)
  blocked : gmap string string;
  blocked_whitelist : list string;
  account_age : option string;
  guild_age : option string;
  sent_emoji : string;
  blocked_emoji : string;
  close_emoji : string;
  recipient_thread_close : pyval;
  reply_without_command : pyval;
  (** [config["closures"]], a dict in insertion order *)
  closures : list (string * Closure);
  (** the four ids are kept as the integers [int(...)] reads from them;
      [Stored] below takes them as the values the configuration holds *)
  guild_id : option Z;
  modmail_guild_id : option Z;
  main_category_id : option Z;
  log_channel_id : option Z;
  prefix : string;
  snippets : gmap string string;
  aliases : gmap string string
}.

Definition with_blocked (f : gmap string string -> gmap string string) (c : Config) : Config :=
  let 'Build_Config b wl aa ga se be ce rtc rwc cl gi mgi mci lci px sn al := c in
  Build_Config (f b) wl aa ga se be ce rtc rwc cl gi mgi mci lci px sn al.

Definition with_account_age (v : option string) (c : Config) : Config :=
  let 'Build_Config b wl aa ga se be ce rtc rwc cl gi mgi mci lci px sn al := c in
  Build_Config b wl v ga se be ce rtc rwc cl gi mgi mci lci px sn al.

Definition with_guild_age (v : option string) (c : Config) : Config :=
  let 'Build_Config b wl aa ga se be ce rtc rwc cl gi mgi mci lci px sn al := c in
  Build_Config b wl aa v se be ce rtc rwc cl gi mgi mci lci px sn al.

Definition with_sent_emoji (v : string) (c : Config) : Config :=
  let 'Build_Config b wl aa ga se be ce rtc rwc cl gi mgi mci lci px sn al := c in
  Build_Config b wl aa ga v be ce rtc rwc cl gi mgi mci lci px sn al.

Definition with_blocked_emoji (v : string) (c : Config) : Config :=
  let 'Build_Config b wl aa ga se be ce rtc rwc cl gi mgi mci lci px sn al := c in
  Build_Config b wl aa ga se v ce rtc rwc cl gi mgi mci lci px sn al.

Definition with_recipient_thread_close (v : pyval) (c : Config) : Config :=
  let 'Build_Config b wl aa ga se be ce rtc rwc cl gi mgi mci lci px sn al := c in
  Build_Config b wl aa ga se be ce v rwc cl gi mgi mci lci px sn al.

Definition with_reply_without_command (v : pyval) (c : Config) : Config :=
  let 'Build_Config b wl aa ga se be ce rtc rwc cl gi mgi mci lci px sn al := c in
  Build_Config b wl aa ga se be ce rtc v cl gi mgi mci lci px sn al.

Definition with_closures (f : list (string * Closure) -> list (string * Closure))
    (c : Config) : Config :=
  let 'Build_Config b wl aa ga se be ce rtc rwc cl gi mgi mci lci px sn al := c in
  Build_Config b wl aa ga se be ce rtc rwc (f cl) gi mgi mci lci px sn al.

Definition with_modmail_guild_id (v : option Z) (c : Config) : Config :=
  let 'Build_Config b wl aa ga se be ce rtc rwc cl gi mgi mci lci px sn al := c in
  Build_Config b wl aa ga se be ce rtc rwc cl gi v mci lci px sn al.

Definition with_main_category_id (v : option Z) (c : Config) : Config :=
  let 'Build_Config b wl aa ga se be ce rtc rwc cl gi mgi mci lci px sn al := c in
  Build_Config b wl aa ga se be ce rtc rwc cl gi mgi v lci px sn al.

Definition with_log_channel_id (v : option Z) (c : Config) : Config :=
  let 'Build_Config b wl aa ga se be ce rtc rwc cl gi mgi mci lci px sn al := c in
  Build_Config b wl aa ga se be ce rtc rwc cl gi mgi mci v px sn al.

(** ** Observable events and the bot state *)

(** The arguments of one [thread.close(...)] call. *)
Record CloseArgs : Type := {
  close_closer : option User;
  close_after : Z;
  close_silent : bool;
  close_delete_channel : bool;
  close_message : option string;
  close_auto_close : bool
}.

Inductive Event : Type :=
| ConfigUpdate                                    (* [await self.config.update()] *)
| AddReaction (message : Z) (e : emoji)           (* [message.add_reaction] *)
| ChannelSend (channel : Z) (title description : string)
| MessageDelete (message : Z)
| ThreadCreate (recipient : Z) (channel : Z)      (* [threads.find_or_create] made a thread *)
| ThreadSend (recipient : Z) (message : Z)        (* [thread.send] *)
| ThreadReply (recipient : Z) (message : Z)       (* [thread.reply] *)
| ThreadClose (recipient : Z) (args : CloseArgs)  (* [thread.close] *)
| Invoke (command : string) (message : Z)         (* [self.invoke(ctx)] *)
| AppendLog (message : Z)                         (* [self.api.append_log] *)
| CommandError (invoked_with : string)            (* [dispatch("command_error", ...)] *)
| MirrorReaction (message : Z) (reaction : string).

Record Bot : Type := {
  config : Config;
  (** the registry of [self.threads] *)
  threads : list Thread;
  trace : list Event;
  (** the next value [datetime.utcnow()] returns *)
  clock : Z
}.

Definition with_config (f : Config -> Config) (s : Bot) : Bot :=
  {| config := f (config s); threads := threads s; trace := trace s; clock := clock s |}.

Definition with_threads (f : list Thread -> list Thread) (s : Bot) : Bot :=
  {| config := config s; threads := f (threads s); trace := trace s; clock := clock s |}.

Definition emit (e : Event) : M Bot unit :=
  modify (fun s =>
    {| config := config s; threads := threads s; trace := trace s ++ [e]; clock := clock s |}).

(** [self.config[...]] for the key read by [f]. *)
Definition read {A} (f : Config -> A) : M Bot A :=
  fun s => Return (f (config s)) s.

Definition update_config (f : Config -> Config) : M Bot unit := modify (with_config f).

(** ** Strings *)

(** [s.startswith(p)] *)
Definition startswith (s p : string) : bool := String.prefix p s.

Fixpoint lstrip_colon (s : string) : string :=
  match s with
  | String ":" r => lstrip_colon r
  | _ => s
  end.

(** [s.strip(":")] *)
Definition strip_colon (s : string) : string :=
  String.rev (lstrip_colon (String.rev (lstrip_colon s))).

Definition newline : ascii := "010"%char.

(** [$] without [re.MULTILINE]: the end of the text, or just before a
    newline that ends it. *)
Definition at_end (s : string) : bool :=
  match s with
  | "" => true
  | String c "" => bool_decide (c = newline)
  | _ => false
  end.

(** [(.+?)%$] tried after an opening [%]: [seen] holds, reversed, the
    characters the lazy group has taken so far. *)
Fixpoint lazy_group (seen s : string) : option string :=
  match s with
  | "" => None
  | String c r =>
      if bool_decide (c = newline) then None
      else
        match r with
        | String "%" r' =>
            if at_end r' then Some (String.rev (String c seen))
            else lazy_group (String c seen) r
        | _ => lazy_group (String c seen) r
        end
  end.

(** [re.search(r"%(.+?)%$", reason)], giving [group(1)]. *)
Fixpoint search_end_time (reason : string) : option string :=
  match reason with
  | "" => None
  | String c r =>
      if bool_decide (c = "%"%char) then
        match lazy_group "" r with
        | Some g => Some g
        | None => search_end_time r
        end
      else search_end_time r
  end.

(** [c.isspace()] on the ASCII range *)
Definition isspace (c : ascii) : bool :=
  match c with
  | "009" | "010" | "011" | "012" | "013" | "028" | "029" | "030" | "031" | " " => true
  | _ => false
  end%char.

Fixpoint lstrip (s : string) : string :=
  match s with
  | String c r => if isspace c then lstrip r else s
  | "" => ""
  end.

(** [s.strip()] *)
Definition strip (s : string) : string :=
  String.rev (lstrip (String.rev (lstrip s))).

(** [s[n:]] *)
Fixpoint drop_chars (n : nat) (s : string) : string :=
  match n, s with
  | S n', String _ r => drop_chars n' r
  | _, _ => s
  end.

(** [StringView.get_word]: the characters up to the first whitespace. *)
Fixpoint get_word (s : string) : string :=
  match s with
  | String c r => if isspace c then "" else String c (get_word r)
  | "" => ""
  end.

Definition lower_char (c : ascii) : ascii :=
  let n := nat_of_ascii c in
  if (65 <=? n)%nat && (n <=? 90)%nat then ascii_of_nat (n + 32) else c.

(** [s.lower()] on the ASCII range *)
Fixpoint lower (s : string) : string :=
  match s with
  | String c r => String (lower_char c) (lower r)
  | "" => ""
  end.

Definition is_digit (c : ascii) : bool :=
  let n := nat_of_ascii c in (48 <=? n)%nat && (n <=? 57)%nat.

Fixpoint all_digits (s : string) : bool :=
  match s with
  | String c r => is_digit c && all_digits r
  | "" => true
  end.

(** [s.isdigit()] on the ASCII range *)
Definition isdigit (s : string) : bool :=
  negb (String.eqb s "") && all_digits s.

Definition new_account_kind : string := "System Message: New Account.".
Definition recently_joined_kind : string := "System Message: Recently Joined.".

(** [str(user.id)] *)
Definition str_id (u : User) : string := pretty (user_id u).
#[global] Arguments str_id : simpl never.

(** [user.mention] *)
Definition mention (u : User) : string := "<@" +:+ pretty (user_id u) +:+ ">".

(** ** Libraries and repository modules outside [bot.py]

    [isodate], [datetime], [int], the emoji tables of discord.py, and the
    helpers of [core.utils], [core.time] and [core.config] are used by the
    handlers but not defined in [bot.py], and neither are the commands of
    the cogs; they are taken as an interface.
    A failing call is [None] (or the exception it raises). *)

Class Externals : Type := {
  (** the value of an [isodate.Duration] or [timedelta] *)
  duration : Type;
  (** [isodate.Duration()] *)
  zero_duration : duration;
  (** [isodate.parse_duration]; [None] is [ISO8601Error] *)
  parse_duration : string -> option duration;
  (** [datetime + duration]; raises [ValueError] or [OverflowError] *)
  datetime_add : Z -> duration -> exn + Z;
  (** [datetime.fromisoformat]; [None] is [ValueError] *)
  fromisoformat : string -> option Z;
  (** whether the datetime [datetime.fromisoformat] reads from the text
      carries a UTC offset; subtracting the naive [datetime.utcnow()] from
      such a datetime is a [TypeError] *)
  offset_aware : string -> bool;
  (** [datetime.isoformat] *)
  isoformat : Z -> string;
  (** [int(s)]; [None] is [ValueError] *)
  py_int : string -> option Z;
  (** the text [core.time.human_timedelta] renders for a datetime, given
      the clock reading it takes *)
  human_timedelta_text : Z -> Z -> string;
  (** the clock reading that follows a given one ([datetime.utcnow()]) *)
  next_instant : Z -> Z;
  (** [core.utils.strtobool]; [None] is [ValueError] *)
  strtobool : pyval -> option bool;
  (** [name in UNICODE_EMOJI] *)
  unicode_emoji : string -> bool;
  (** [commands.EmojiConverter().convert]; [None] is [BadArgument] *)
  emoji_converter : string -> option string;
  (** [snippet.format(recipient=...)] *)
  snippet_format : string -> User -> exn + string;
  (** [name in self.all_commands] *)
  is_command : string -> bool;
  (** [self.invoke(ctx)] of discord.py for the command of that name: its
      checks and its callback, which the cogs define; the message is the
      one [on_message] hands over *)
  invoke : string -> Message -> M Bot unit;
  (** defaults of [core.config.ConfigManager] *)
  default_sent_emoji : string;
  default_blocked_emoji : string;
  default_recipient_thread_close : pyval;
  default_reply_without_command : pyval
}.

(** The value of a local [account_age] / [guild_age] variable: a duration,
    or whatever non-duration object it was left holding. *)
Inductive age_value {ext : Externals} : Type :=
| AgeDuration (d : duration)
| AgeOther (v : option string).

Section Handlers.

Context {ext : Externals} (gw : Gateway).

(** [datetime.utcnow()]: reads the clock, which then moves on. *)
Definition utcnow : M Bot Z :=
  fun s =>
    Return (clock s)
      {| config := config s; threads := threads s; trace := trace s;
         clock := next_instant (clock s) |}.

(** Modelled from the spec: [human_timedelta] of [core/time.py], which is
    outside [bot.py].  The spec only has the notice carry the remaining
    wait; the helper renders the distance between [dt] and the clock it
    reads, and the text itself is left to [human_timedelta_text]. *)
Definition human_timedelta (dt : Z) : M Bot string :=
  now <- utcnow ;; ret (human_timedelta_text now dt).

(** Modelled from the spec: [ConfigManager.update] of [core/config.py],
    outside [bot.py]: the flush of the configuration cache to the
    persistent store, recorded as an event. *)
Definition config_update : M Bot unit := emit ConfigUpdate.

(** *** [self.config.remove(key)]

    [ConfigManager.remove] lives in [core/config.py], outside [bot.py].
    It discards the stored value and hands back the value the key holds
    from then on, which is what every caller in [bot.py] goes on to use
    (a colour to parse, an emoji to react with). *)

(** Modelled from the spec: [config.remove("account_age")]; a malformed
    duration-typed value is "discarded (reset to absent)". *)
Definition remove_account_age : M Bot (option string) :=
  update_config (with_account_age None) ;;; ret None.

(** Modelled from the spec: [config.remove("guild_age")], likewise reset
    to absent. *)
Definition remove_guild_age : M Bot (option string) :=
  update_config (with_guild_age None) ;;; ret None.

(** Modelled from the spec: [config.remove("sent_emoji")], back to the
    default emoji. *)
Definition remove_sent_emoji : M Bot string :=
  update_config (with_sent_emoji default_sent_emoji) ;;; ret default_sent_emoji.

(** Modelled from the spec: [config.remove("blocked_emoji")], back to the
    default emoji. *)
Definition remove_blocked_emoji : M Bot string :=
  update_config (with_blocked_emoji default_blocked_emoji) ;;; ret default_blocked_emoji.

(** Modelled from the spec: [config.remove("recipient_thread_close")],
    back to the default switch. *)
Definition remove_recipient_thread_close : M Bot pyval :=
  update_config (with_recipient_thread_close default_recipient_thread_close) ;;;
  ret default_recipient_thread_close.

(** Modelled from the spec: [config.remove("reply_without_command")],
    back to the default switch. *)
Definition remove_reply_without_command : M Bot pyval :=
  update_config (with_reply_without_command default_reply_without_command) ;;;
  ret default_reply_without_command.

(** Modelled from the spec: [config.remove("modmail_guild_id")], reset to
    absent. *)
Definition remove_modmail_guild_id : M Bot unit :=
  update_config (with_modmail_guild_id None).

(** Modelled from the spec: [config.remove("main_category_id")], reset to
    absent. *)
Definition remove_main_category_id : M Bot unit :=
  update_config (with_main_category_id None).

(** Modelled from the spec: [config.remove("log_channel_id")], reset to
    absent. *)
Definition remove_log_channel_id : M Bot unit :=
  update_config (with_log_channel_id None).

(** *** [convert_emoji] and [retrieve_emoji] *)

(** Lines 449-459.  The converter is taken by the name it is given; the
    context of line 450 also reads [self.modmail_guild], a read that,
    with the ids kept as integers, returns and writes at most the
    [modmail_guild_id] key, which the handlers calling [convert_emoji]
    do not read. *)
Definition convert_emoji (name : string) : M Bot emoji :=
  if unicode_emoji name then ret (Plain name)
  else
    match emoji_converter (strip_colon name) with
    | Some e => ret (Custom e)
    | None => raise BadArgument
    end.

Definition retrieve_emoji : M Bot (emoji * emoji) :=
  sent <- read sent_emoji ;;
  blocked_e <- read blocked_emoji ;;
  sent <- (if not_disable (Plain sent)
           then try_except (convert_emoji sent) BadArgument
                  (v <- remove_sent_emoji ;; ret (Plain v))
           else ret (Plain sent)) ;;
  blocked_e <- (if not_disable (Plain blocked_e)
                then try_except (convert_emoji blocked_e) BadArgument
                       (v <- remove_blocked_emoji ;; ret (Plain v))
                else ret (Plain blocked_e)) ;;
  config_update ;;;
  ret (sent, blocked_e).

(** [message.add_reaction(e)] inside [try ... except (HTTPException,
    InvalidArgument): pass]: the attempt is recorded, its failure is
    swallowed. *)
Definition add_reaction (message : Message) (e : emoji) : M Bot unit :=
  emit (AddReaction (message_id message) e).

(** *** [_process_blocked] *)

(** Lines 504-531: the stored threshold becomes a duration; a text that
    does not parse is removed and the variable takes what [remove]
    returns. *)
Definition load_age (stored : option string) (remove : M Bot (option string))
    : M Bot age_value :=
  match stored with
  | None => ret (AgeDuration zero_duration)
  | Some text =>
      match parse_duration text with
      | Some d => ret (AgeDuration d)
      | None => v <- remove ;; ret (AgeOther v)
      end
  end.

(** [t + age]: adding anything but a duration to a datetime is a
    [TypeError]. *)
Definition add_age (t : Z) (age : age_value) : M Bot Z :=
  match age with
  | AgeDuration d =>
      match datetime_add t d with
      | inr t' => ret t'
      | inl e => raise e
      end
  | AgeOther _ => raise TypeError
  end.

(** The notice of lines 564-571 and 587-594. *)
Definition send_wait_notice (message : Message) (delta : string) : M Bot unit :=
  emit (ChannelSend (channel_id (message_channel message)) "Message not sent!"
          ("Your must wait for " +:+ delta +:+ " before you can contact "
             +:+ mention (bot_user gw) +:+ ".")).

(** The body shared by the two age branches (lines 551-571 and 574-594),
    for the kind of system block it manages. *)
Definition age_not_met (kind : string) (message : Message) (reason : string)
    (min_age : Z) : M Bot unit :=
  let key := str_id (message_author message) in
  delta <- human_timedelta min_age ;;
  present <- read (fun c => bool_decide (is_Some (blocked c !! key))) ;;
  changed <- (if present then ret false
              else
                update_config (with_blocked
                  (insert key (kind +:+ " Required to wait for " +:+ delta +:+ "."))) ;;;
                ret true) ;;
  if startswith reason kind || changed
  then send_wait_notice message delta
  else ret tt.

(** Lines 596-613: an existing entry once both age conditions hold. *)
Definition existing_block (message : Message) (reason : string) (now : Z)
    (sent blocked_e : emoji) : M Bot emoji :=
  let key := str_id (message_author message) in
  if startswith reason new_account_kind || startswith reason recently_joined_kind
  then update_config (with_blocked (delete key)) ;;; ret sent
  else
    match search_end_time reason with
    | None => ret blocked_e
    | Some text =>
        match fromisoformat text with
        | None => raise ValueError
        | Some end_time =>
            if offset_aware text then raise TypeError
            else if end_time - now <=? 0
            then update_config (with_blocked (delete key)) ;;; ret sent
            else ret blocked_e
        end
    end.

(** Lines 487-497: the sender is on the whitelist. *)
Definition whitelisted_sender (message : Message) (sent : emoji) : M Bot bool :=
  let key := str_id (message_author message) in
  present <- read (fun c => bool_decide (is_Some (blocked c !! key))) ;;
  (if present
   then update_config (with_blocked (delete key)) ;;; config_update
   else ret tt) ;;;
  (if not_disable sent then add_reaction message sent else ret tt) ;;;
  ret false.

(** Lines 499-548: the clock reading, the stored reason and the two
    instants from which the sender is old enough. *)
Definition age_limits (message : Message) : M Bot (Z * string * Z * Z) :=
  let author := message_author message in
  now <- utcnow ;;
  stored_account_age <- read account_age ;;
  stored_guild_age <- read guild_age ;;
  account_age_v <- load_age stored_account_age remove_account_age ;;
  guild_age_v <- load_age stored_guild_age remove_guild_age ;;
  reason <- read (fun c => default "" (blocked c !! str_id author)) ;;
  min_account_age <-
    try_except (add_age (user_created_at author) account_age_v) ValueError
      (remove_account_age ;;; ret now) ;;
  min_guild_age <-
    match user_joined_at author with
    | None => ret now
    | Some joined_at =>
        try_except (add_age joined_at guild_age_v) ValueError
          (remove_guild_age ;;; ret now)
    end ;;
  ret (now, reason, min_account_age, min_guild_age).

(** Lines 550-623: the decision. *)
Definition apply_policy (message : Message) (sent blocked_e : emoji)
    (now : Z) (reason : string) (min_account_age min_guild_age : Z) : M Bot bool :=
  let key := str_id (message_author message) in
  reaction <-
    (if now <? min_account_age then
       age_not_met new_account_kind message reason min_account_age ;;;
       ret blocked_e
     else if now <? min_guild_age then
       age_not_met recently_joined_kind message reason min_guild_age ;;;
       ret blocked_e
     else
       present <- read (fun c => bool_decide (is_Some (blocked c !! key))) ;;
       if present then existing_block message reason now sent blocked_e
       else ret sent) ;;
  config_update ;;;
  (if not_disable reaction then add_reaction message reaction else ret tt) ;;;
  read (fun c => bool_decide (is_Some (blocked c !! key))).

Definition _process_blocked (message : Message) : M Bot bool :=
  let key := str_id (message_author message) in
  emojis <- retrieve_emoji ;;
  let '(sent, blocked_e) := emojis in
  whitelisted <- read (fun c => bool_decide (key ∈ blocked_whitelist c)) ;;
  if whitelisted then whitelisted_sender message sent
  else
    limits <- age_limits message ;;
    let '(now, reason, min_account_age, min_guild_age) := limits in
    apply_policy message sent blocked_e now reason min_account_age min_guild_age.

(** *** The thread registry and [Thread]

    [ThreadManager] and [Thread] live in [core/thread.py], outside
    [bot.py]; the registry is the list of active threads, one per
    recipient. *)

Definition is_recipient (rid : Z) (t : Thread) : bool :=
  user_id (thread_recipient t) =? rid.

(** Modelled from the spec: [ThreadManager.find(recipient=...)] and
    [find(recipient_id=...)], a lookup against the in-memory index. *)
Definition find_by_recipient (rid : Z) : M Bot (option Thread) :=
  fun s => Return (List.find (is_recipient rid) (threads s)) s.

(** Modelled from the spec: [ThreadManager.find(channel=...)], the lookup
    by relay channel. *)
Definition find_by_channel (cid : Z) : M Bot (option Thread) :=
  fun s =>
    Return (List.find (fun t => channel_id (thread_channel t) =? cid) (threads s)) s.

(** Modelled from the spec: [ThreadManager.find_or_create] returns the
    existing thread if present; otherwise it has the relay channel
    created, constructs the thread and inserts it into the index. *)
Definition find_or_create (recipient : User) : M Bot Thread :=
  found <- find_by_recipient (user_id recipient) ;;
  match found with
  | Some t => ret t
  | None =>
      let t := {| thread_recipient := recipient;
                  thread_channel := create_channel gw recipient |} in
      modify (with_threads (fun l => (l ++ [t])%list)) ;;;
      emit (ThreadCreate (user_id recipient) (channel_id (thread_channel t))) ;;;
      ret t
  end.

(** [d.pop(k)] on present keys, [d[k] = v] *)
Definition dict_remove {A} (k : string) (d : list (string * A)) : list (string * A) :=
  List.filter (fun kv => negb (String.eqb (fst kv) k)) d.

Fixpoint dict_set {A} (k : string) (v : A) (d : list (string * A)) : list (string * A) :=
  match d with
  | [] => [(k, v)]
  | (k', v') :: r => if String.eqb k' k then (k, v) :: r else (k', v') :: dict_set k v r
  end.

Definition dict_has {A} (k : string) (d : list (string * A)) : bool :=
  existsb (fun kv => String.eqb (fst kv) k) d.

(** Modelled from the spec: [Thread.send] forwards the message into the
    relay channel; new activity cancels a pending closure, whose
    persisted record is removed. *)
Definition thread_send (t : Thread) (message : Message) : M Bot unit :=
  let rid := user_id (thread_recipient t) in
  update_config (with_closures (dict_remove (pretty rid))) ;;;
  emit (ThreadSend rid (message_id message)).

(** Modelled from the spec: [Thread.reply] forwards the message to the
    recipient's private channel. *)
Definition thread_reply (t : Thread) (message : Message) : M Bot unit :=
  emit (ThreadReply (user_id (thread_recipient t)) (message_id message)).

(** Modelled from the spec: [Thread.close].  With [after > 0] it
    registers the pending closure, persisted under the recipient with its
    absolute fire time and replacing one already pending, and returns.
    Otherwise it executes at once: the thread is closed and evicted from
    the registry and no closure stays persisted.  The notice to the user
    and the deletion of the channel are governed by the [silent] and
    [delete_channel] arguments the event records. *)
Definition thread_close (t : Thread) (args : CloseArgs) : M Bot unit :=
  let rid := user_id (thread_recipient t) in
  emit (ThreadClose rid args) ;;;
  if 0 <? close_after args then
    now <- utcnow ;;
    update_config (with_closures (dict_set (pretty rid)
      {| closure_time := isoformat (now + close_after args);
         closure_closer_id := user_id <$> close_closer args;
         closure_silent := close_silent args;
         closure_delete_channel := close_delete_channel args;
         closure_message := close_message args;
         closure_auto_close := Some (close_auto_close args) |}))
  else
    update_config (with_closures (dict_remove (pretty rid))) ;;;
    modify (with_threads (List.filter (fun t' => negb (is_recipient rid t')))).

(** Modelled from the spec: the defaults of the signature of
    [Thread.close], [after=0, silent=False, delete_channel=True,
    message=None, auto_close=False], as [thread.close(closer=c)] takes
    them. *)
Definition close_defaults (closer : option User) : CloseArgs :=
  {| close_closer := closer; close_after := 0; close_silent := false;
     close_delete_channel := true; close_message := None;
     close_auto_close := false |}.

(** Modelled from the spec: [ThreadManager.populate_cache] rebuilds the
    index from the channels of the relay category. *)
Definition populate_cache : M Bot unit :=
  modify (with_threads (fun _ => relay_threads gw)).

(** *** [process_modmail] *)

Definition process_modmail (message : Message) : M Bot unit :=
  blocked <- _process_blocked message ;;
  if negb blocked then
    thread <- find_or_create (message_author message) ;;
    thread_send thread message
  else ret tt.

(** *** [on_ready]: the pending closures *)

(** [self.config["closures"].pop(recipient_id)] *)
Definition pop_closure (k : string) : M Bot unit :=
  present <- read (fun c => dict_has k (closures c)) ;;
  if present then update_config (with_closures (dict_remove k))
  else raise KeyError.

(** The body of the loop of lines 410-432.  The persisted time is the
    text [thread.close] stored, the [isoformat()] of a naive datetime, so
    line 412 subtracts a naive datetime from a naive one. *)
Definition recover_closure (entry : string * Closure) : M Bot unit :=
  let '(recipient_id, items) := entry in
  fire_at <- match fromisoformat (closure_time items) with
             | Some t => ret t
             | None => raise ValueError
             end ;;
  now <- utcnow ;;
  let after := fire_at - now in
  let after := if after <? 0 then 0 else after in
  rid <- match py_int recipient_id with
         | Some r => ret r
         | None => raise ValueError
         end ;;
  thread <- find_by_recipient rid ;;
  match thread with
  | None =>
      pop_closure recipient_id ;;;
      config_update
  | Some thread =>
      thread_close thread
        {| close_closer := closure_closer_id items ≫= get_user gw;
           close_after := after;
           close_silent := closure_silent items;
           close_delete_channel := closure_delete_channel items;
           close_message := closure_message items;
           close_auto_close := default false (closure_auto_close items) |}
  end.

Fixpoint for_each {A} (body : A -> M Bot unit) (l : list A) : M Bot unit :=
  match l with
  | [] => ret tt
  | x :: r => body x ;;; for_each body r
  end.

(** [on_ready], up to the start of the metadata loop; the loop runs over
    [tuple(closures.items())], a snapshot. *)
Definition on_ready : M Bot unit :=
  populate_cache ;;;
  snapshot <- read closures ;;
  for_each recover_closure snapshot.

(** *** [on_raw_reaction_add] *)

(** Lines 812-819: the feature switch, with its recovery from a value
    [strtobool] rejects. *)
Definition read_recipient_thread_close : M Bot bool :=
  v <- read recipient_thread_close ;;
  match strtobool v with
  | Some b => ret b
  | None => d <- remove_recipient_thread_close ;; ret (truthy d)
  end.

(** [message.embeds[0].timestamp if message.embeds else None] *)
Definition first_embed_timestamp (message : Message) : option Z :=
  match message_embeds message with
  | e :: _ => embed_timestamp e
  | [] => None
  end.

(** Lines 807-821: a reaction in a private channel. *)
Definition private_reaction (user : User) (message : Message) (reaction : string)
    (close_e : emoji) : M Bot unit :=
  if String.eqb reaction (str_emoji close_e) then
    thread <- find_by_recipient (user_id user) ;;
    let ts := first_embed_timestamp message in
    match thread with
    | Some thread =>
        if bool_decide (ts = Some (channel_created_at (thread_channel thread))) then
          recipient_thread_close <- read_recipient_thread_close ;;
          if recipient_thread_close
          then thread_close thread (close_defaults (Some user))
          else ret tt
        else ret tt
    | None => ret tt
    end
  else ret tt.

(** Lines 823-833: a reaction in a relay channel is mirrored onto the
    message the embed refers to. *)
Definition relay_reaction (message : Message) (reaction : string) : M Bot unit :=
  match message_embeds message with
  | [] => ret tt
  | e :: _ =>
      let message_id_text := embed_author_url_tail e in
      if isdigit message_id_text then
        thread <- find_by_channel (channel_id (message_channel message)) ;;
        match thread with
        | None => raise AttributeError
        | Some thread =>
            let channel := create_dm gw (thread_recipient thread) in
            for_each
              (fun msg =>
                 match py_int message_id_text with
                 | None => raise ValueError
                 | Some n =>
                     if message_id msg =? n
                     then emit (MirrorReaction (message_id msg) reaction)
                     else ret tt
                 end)
              (channel_history gw channel)
        end
      else ret tt
  end.

Definition on_raw_reaction_add (payload : Payload) : M Bot unit :=
  match get_user gw (payload_user_id payload) with
  | None => raise AttributeError
  | Some user =>
      if user_bot user then ret tt
      else
        channel <-
          match get_channel gw (payload_channel_id payload) with
          | Some c => ret (Some c)
          | None =>
              _thread <- find_by_recipient (user_id user) ;;
              match _thread with
              | None => ret None
              | Some t => ret (Some (create_dm gw (thread_recipient t)))
              end
          end ;;
        match channel with
        | None => ret tt
        | Some channel =>
            match fetch_message gw channel (payload_message_id payload) with
            | None => ret tt
            | Some message =>
                let reaction := payload_emoji payload in
                name <- read close_emoji ;;
                close_e <- convert_emoji name ;;
                if bool_decide (channel_kind channel = DMChannel)
                then private_reaction user message reaction close_e
                else relay_reaction message reaction
            end
        end
  end.

(** *** The guild, category and log-channel properties *)

(** [discord.utils.get(self.guilds, id=i)] *)
Definition get_guild (i : option Z) : option Guild :=
  i ≫= fun i => List.find (fun g => guild_ident g =? i) (guilds gw).

Definition guild : M Bot (option Guild) :=
  i <- read guild_id ;; ret (get_guild i).

Definition modmail_guild : M Bot (option Guild) :=
  i <- read modmail_guild_id ;;
  match i with
  | None => guild
  | Some i =>
      match get_guild (Some i) with
      | Some g => ret (Some g)
      | None => remove_modmail_guild_id ;;; guild
      end
  end.

(** [self.modmail_guild.categories]: the property is read again and
    dereferenced. *)
Definition modmail_guild_categories : M Bot (list Category) :=
  g <- modmail_guild ;;
  match g with
  | Some g => ret (guild_categories g)
  | None => raise AttributeError
  end.

Definition main_category : M Bot (option Category) :=
  g <- modmail_guild ;;
  match g with
  | None => ret None
  | Some _ =>
      i <- read main_category_id ;;
      found <- match i with
               | None => ret None
               | Some i =>
                   cats <- modmail_guild_categories ;;
                   match List.find (fun c => category_id c =? i) cats with
                   | Some cat => ret (Some cat)
                   | None => remove_main_category_id ;;; ret None
                   end
               end ;;
      match found with
      | Some cat => ret (Some cat)
      | None =>
          cats <- modmail_guild_categories ;;
          match List.find (fun c => String.eqb (category_name c) "Modmail") cats with
          | Some cat =>
              update_config (with_main_category_id (Some (category_id cat))) ;;;
              ret (Some cat)
          | None => ret None
          end
      end
  end.

Definition log_channel : M Bot (option Channel) :=
  i <- read log_channel_id ;;
  found <- match i with
           | None => ret None
           | Some i =>
               match get_channel gw i with
               | Some c => ret (Some c)
               | None => remove_log_channel_id ;;; ret None
               end
           end ;;
  match found with
  | Some c => ret (Some c)
  | None =>
      cat <- main_category ;;
      match cat with
      | None => ret None
      | Some _ =>
          cat' <- main_category ;;
          match cat' with
          | None => raise AttributeError
          | Some cat' =>
              match category_channels cat' with
              | c :: _ =>
                  update_config (with_log_channel_id (Some (channel_id c))) ;;;
                  ret (Some c)
              | [] => ret None
              end
          end
      end
  end.

(** *** [on_guild_channel_delete] *)

(** [self.log_channel is None or self.log_channel.id == channel.id] *)
Definition log_channel_missing_or_is (channel : Channel) : M Bot bool :=
  lc <- log_channel ;;
  match lc with
  | None => ret true
  | Some _ =>
      lc' <- log_channel ;;
      match lc' with
      | None => raise AttributeError
      | Some lc' => ret (channel_id lc' =? channel_id channel)
      end
  end.

Definition on_guild_channel_delete (channel : Channel) : M Bot unit :=
  g <- modmail_guild ;;
  if negb (bool_decide (channel_guild channel = guild_ident <$> g)) then ret tt
  else
    g' <- modmail_guild ;;
    match g' with
    | None => raise AttributeError
    | Some _ =>
        match List.find (fun e => fst e =? channel_id channel) (audit_logs gw) with
        | None => raise AttributeError
        | Some entry =>
            let mod_ := snd entry in
            if user_id mod_ =? user_id (bot_user gw) then ret tt
            else if bool_decide (channel_kind channel = CategoryChannel) then
              cat <- main_category ;;
              match cat with
              | None => raise AttributeError
              | Some cat =>
                  if category_id cat =? channel_id channel
                  then remove_main_category_id ;;; config_update
                  else ret tt
              end
            else if negb (bool_decide (channel_kind channel = TextChannel)) then ret tt
            else
              stop <- log_channel_missing_or_is channel ;;
              if stop then remove_log_channel_id ;;; config_update
              else
                thread <- find_by_channel (channel_id channel) ;;
                match thread with
                | None => ret tt
                | Some thread =>
                    thread_close thread
                      {| close_closer := Some mod_; close_after := 0;
                         close_silent := true; close_delete_channel := false;
                         close_message := None; close_auto_close := false |}
                end
        end
    end.

(** *** [get_context] and [on_message] *)

(** What [on_message] reads of the invocation context. *)
Record Context : Type := {
  ctx_command : option string;
  ctx_invoked_with : option string
}.

(** [discord.utils.find(view.skip_string, prefixes)] *)
Definition find_prefix (content : string) (prefixes : list string) : option string :=
  List.find (fun p => startswith content p) prefixes.

Definition get_context (message : Message) (content : string) : M Bot Context :=
  let no_command := {| ctx_command := None; ctx_invoked_with := None |} in
  if user_id (message_author message) =? user_id (bot_user gw) then ret no_command
  else
    find_by_channel (channel_id (message_channel message)) ;;;
    p <- read prefix ;;
    let me := pretty (user_id (bot_user gw)) in
    let prefixes := [p; "<@" +:+ me +:+ "> "; "<@!" +:+ me +:+ "> "] in
    match find_prefix content prefixes with
    | None => ret no_command
    | Some invoked_prefix =>
        let invoker := lower (get_word (drop_chars (String.length invoked_prefix) content)) in
        alias <- read (fun c => aliases c !! invoker) ;;
        let invoker :=
          match alias with
          | Some alias =>
              let len_ := String.length (invoked_prefix +:+ invoker) in
              get_word (alias +:+ drop_chars len_ content)
          | None => invoker
          end in
        ret {| ctx_command := if is_command invoker then Some invoker else None;
               ctx_invoked_with := Some invoker |}
    end.

(** Lines 723-725 *)
Definition read_reply_without_command : M Bot bool :=
  v <- read reply_without_command ;;
  match strtobool v with
  | Some b => ret b
  | None => d <- remove_reply_without_command ;; ret (truthy d)
  end.

(** [message.content = ...] (line 714) *)
Definition with_content (content : string) (message : Message) : Message :=
  {| message_id := message_id message;
     message_author := message_author message;
     message_channel := message_channel message;
     message_type := message_type message;
     message_content := content;
     message_embeds := message_embeds message |}.

(** Lines 705-735: a message that is neither bot-authored nor private. *)
Definition guild_message (message : Message) : M Bot unit :=
  let cid := channel_id (message_channel message) in
  let content := message_content message in
  p <- read prefix ;;
  content <-
    (if startswith content p then
       let cmd := strip (drop_chars (String.length p) content) in
       snippet <- read (fun c => snippets c !! cmd) ;;
       match snippet with
       | None => ret content
       | Some snippet =>
           thread <- find_by_channel cid ;;
           snippet <- match thread with
                      | None => ret snippet
                      | Some t =>
                          match snippet_format snippet (thread_recipient t) with
                          | inr text => ret text
                          | inl e => raise e
                          end
                      end ;;
           ret (p +:+ "reply " +:+ snippet)
       end
     else ret content) ;;
  ctx <- get_context message content ;;
  match ctx_command ctx with
  | Some command =>
      emit (Invoke command (message_id message)) ;;;
      invoke command (with_content content message)
  | None =>
      thread <- find_by_channel cid ;;
      match thread with
      | Some thread =>
          reply_without_command <- read_reply_without_command ;;
          if reply_without_command
          then thread_reply thread message
          else emit (AppendLog (message_id message))
      | None =>
          match ctx_invoked_with ctx with
          | Some w => if String.eqb w "" then ret tt else emit (CommandError w)
          | None => ret tt
          end
      end
  end.

Definition on_message (message : Message) : M Bot unit :=
  (if bool_decide (message_type message = pins_add)
      && (user_id (message_author message) =? user_id (bot_user gw))
   then emit (MessageDelete (message_id message))
   else ret tt) ;;;
  if user_bot (message_author message) then ret tt
  else if bool_decide (channel_kind (message_channel message) = DMChannel)
  then process_modmail message
  else guild_message message.

(** *** What lines 499-548 compute, read off the state

    [threshold] is the duration lines 504-531 leave in the variable when
    the stored value is absent or parses; [min_age] is the instant lines
    536-548 then obtain, [None] when they raise. *)

Definition threshold (stored : option string) : option duration :=
  match stored with
  | None => Some zero_duration
  | Some text => parse_duration text
  end.

Definition min_age (now t : Z) (stored : option string) : option Z :=
  match threshold stored with
  | None => None
  | Some d =>
      match datetime_add t d with
      | inr t' => Some t'
      | inl e => if decide (e = ValueError) then Some now else None
      end
  end.

Definition min_account_age (message : Message) (s : Bot) : option Z :=
  min_age (clock s) (user_created_at (message_author message)) (account_age (config s)).

Definition min_guild_age (message : Message) (s : Bot) : option Z :=
  match user_joined_at (message_author message) with
  | None => Some (clock s)
  | Some joined_at => min_age (clock s) joined_at (guild_age (config s))
  end.

(** *** What the reaction handler reads, off the state *)

(** The emoji [convert_emoji] returns for a name, [None] when it raises
    [BadArgument]. *)
Definition converted (name : string) : option emoji :=
  if unicode_emoji name then Some (Plain name)
  else Custom <$> emoji_converter (strip_colon name).

(** The value lines 812-820 test: the stored switch as [strtobool] reads
    it, or the truth of the default once the stored value is removed. *)
Definition recipient_thread_close_enabled (c : Config) : bool :=
  match strtobool (recipient_thread_close c) with
  | Some b => b
  | None => truthy default_recipient_thread_close
  end.

(** The channel lines 790-795 end up with, for a reactor who has a thread. *)
Definition reaction_channel (payload : Payload) (thread : Thread) : Channel :=
  default (create_dm gw (thread_recipient thread))
    (get_channel gw (payload_channel_id payload)).

(** *** What [on_ready] does with one persisted closure, read off the states *)




End Handlers.

(** ** Sample collaborators

    One instance of the interfaces above, used to run the handlers on
    concrete inputs.  The tables give the answers of the libraries on the
    few texts the examples use. *)

Definition day : Z := 86400000000.

Definition sample_parse_duration (s : string) : option Z :=
  if String.eqb s "P1D" then Some day
  else if String.eqb s "P7D" then Some (7 * day)
  else if String.eqb s "PT0S" then Some 0
  else None.

(** 2020-01-01 and 2030-01-01, midnight UTC *)
Definition y2020 : Z := 1577836800000000.
Definition y2030 : Z := 1893456000000000.

Definition sample_fromisoformat (s : string) : option Z :=
  if String.eqb s "2020-01-01T00:00:00" then Some y2020
  else if String.eqb s "2020-01-01T00:00:00+00:00" then Some y2020
  else if String.eqb s "2030-01-01T00:00:00" then Some y2030
  else None.

Definition sample_offset_aware (s : string) : bool :=
  String.eqb s "2020-01-01T00:00:00+00:00".

(** The [close] command closes the thread of the channel at once; the
    other commands do nothing here. *)
Definition sample_invoke (name : string) (message : Message) : M Bot unit :=
  if String.eqb name "close"
  then modify (with_threads (List.filter (fun t =>
         negb (channel_id (thread_channel t) =? channel_id (message_channel message)))))
  else ret tt.

Definition sample_isoformat (t : Z) : string :=
  if t =? y2020 then "2020-01-01T00:00:00"
  else if t =? y2030 then "2030-01-01T00:00:00"
  else "0001-01-01T00:00:00".

Fixpoint digits_value (acc : Z) (s : string) : option Z :=
  match s with
  | "" => Some acc
  | String c r =>
      if is_digit c
      then digits_value (10 * acc + (Z.of_nat (nat_of_ascii c) - 48)) r
      else None
  end.

Definition sample_int (s : string) : option Z :=
  if String.eqb s "" then None else digits_value 0 s.

Definition sample_strtobool (v : pyval) : option bool :=
  match v with
  | PBool b => Some b
  | PInt 1 => Some true
  | PInt 0 => Some false
  | PStr s =>
      let s := lower s in
      if bool_decide (s ∈ ["y"; "yes"; "t"; "true"; "on"; "1"]) then Some true
      else if bool_decide (s ∈ ["n"; "no"; "f"; "false"; "off"; "0"]) then Some false
      else None
  | _ => None
  end.

Definition sample_externals : Externals := {|
  duration := Z;
  zero_duration := 0;
  parse_duration := sample_parse_duration;
  datetime_add := fun t d => inr (t + d);
  fromisoformat := sample_fromisoformat;
  offset_aware := sample_offset_aware;
  isoformat := sample_isoformat;
  py_int := sample_int;
  human_timedelta_text := fun _ _ => "1 day";
  next_instant := fun t => t + 1;
  strtobool := sample_strtobool;
  unicode_emoji := fun s => bool_decide (s ∈ ["Y"; "N"; "L"]);
  emoji_converter := fun _ => None;
  snippet_format := fun s _ => inr s;
  is_command := fun s => bool_decide (s ∈ ["reply"; "close"]);
  invoke := sample_invoke;
  default_sent_emoji := "Y";
  default_blocked_emoji := "N";
  default_recipient_thread_close := PBool false;
  default_reply_without_command := PBool false
|}.

Definition the_bot : User :=
  {| user_id := 1; user_bot := true; user_created_at := 0; user_joined_at := None |}.

(** An account made on 2020-01-01. *)
Definition alice : User :=
  {| user_id := 7; user_bot := false; user_created_at := y2020; user_joined_at := None |}.

(** The same account seen as a member who joined on 2030-01-01. *)
Definition alice_member : User :=
  {| user_id := 7; user_bot := false; user_created_at := y2020;
     user_joined_at := Some y2030 |}.

Definition moderator : User :=
  {| user_id := 5; user_bot := false; user_created_at := 0; user_joined_at := None |}.

Definition alice_dm : Channel :=
  {| channel_id := 70; channel_kind := DMChannel; channel_guild := None;
     channel_created_at := y2020 |}.

Definition log_room : Channel :=
  {| channel_id := 30; channel_kind := TextChannel; channel_guild := Some 10;
     channel_created_at := y2020 |}.

Definition alice_room : Channel :=
  {| channel_id := 31; channel_kind := TextChannel; channel_guild := Some 10;
     channel_created_at := y2030 |}.

Definition alice_thread : Thread :=
  {| thread_recipient := alice; thread_channel := alice_room |}.

Definition hello : Message :=
  {| message_id := 100; message_author := alice; message_channel := alice_dm;
     message_type := default_type; message_content := "hello"; message_embeds := [] |}.

(** The creation notice in Alice's private channel, and an older notice. *)
Definition creation_notice : Message :=
  {| message_id := 101; message_author := the_bot; message_channel := alice_dm;
     message_type := default_type; message_content := "";
     message_embeds := [ {| embed_timestamp := Some y2030; embed_author_url_tail := "" |} ] |}.

Definition older_notice : Message :=
  {| message_id := 102; message_author := the_bot; message_channel := alice_dm;
     message_type := default_type; message_content := "";
     message_embeds := [ {| embed_timestamp := Some y2020; embed_author_url_tail := "" |} ] |}.

Definition modmail_category (channels : list Channel) : Category :=
  {| category_id := 20; category_name := "Modmail"; category_channels := channels |}.

Definition sample_guild (channels : list Channel) : Guild :=
  {| guild_ident := 10; guild_categories := [modmail_category channels] |}.

(** A gateway whose operating guild holds the given channels under the
    Modmail category, with the given audit log. *)
Definition sample_gateway (channels : list Channel) (audit : list (Z * User)) : Gateway :=
  {| bot_user := the_bot;
     guilds := [sample_guild channels];
     get_user := fun i =>
       List.find (fun u => user_id u =? i) [the_bot; alice; moderator];
     get_channel := fun i =>
       List.find (fun c => channel_id c =? i) (alice_dm :: channels);
     create_dm := fun u =>
       {| channel_id := 10 * user_id u; channel_kind := DMChannel;
          channel_guild := None; channel_created_at := user_created_at u |};
     fetch_message := fun c i =>
       if channel_id c =? 70
       then List.find (fun m => message_id m =? i) [creation_notice; older_notice]
       else None;
     audit_logs := audit;
     create_channel := fun u =>
       {| channel_id := 31; channel_kind := TextChannel; channel_guild := Some 10;
          channel_created_at := y2030 |};
     channel_history := fun _ => [];
     relay_threads := [alice_thread] |}.

Definition sample_config : Config :=
  {| blocked := ∅;
     blocked_whitelist := [];
     account_age := None;
     guild_age := None;
     sent_emoji := "Y";
     blocked_emoji := "N";
     close_emoji := "L";
     recipient_thread_close := PBool true;
     reply_without_command := PBool false;
     closures := [];
     guild_id := Some 10;
     modmail_guild_id := None;
     main_category_id := Some 20;
     log_channel_id := Some 30;
     prefix := "?";
     snippets := ∅;
     aliases := ∅ |}.

(** The bot at a given clock reading. *)
Definition sample_bot (c : Config) (ts : list Thread) (now : Z) : Bot :=
  {| config := c; threads := ts; trace := []; clock := now |}.

Definition new_account_reason : string :=
  "System Message: New Account. Required to wait for 1 day.".

(** Alice is whitelisted while a new-account block is still stored for
    her and the account-age threshold is one day. *)
Definition whitelisted_config : Config :=
  {| blocked := {[ "7" := new_account_reason ]};
     blocked_whitelist := ["7"];
     account_age := Some "P1D";
     guild_age := None;
     sent_emoji := "Y";
     blocked_emoji := "N";
     close_emoji := "L";
     recipient_thread_close := PBool true;
     reply_without_command := PBool false;
     closures := [];
     guild_id := Some 10;
     modmail_guild_id := None;
     main_category_id := Some 20;
     log_channel_id := Some 30;
     prefix := "?";
     snippets := ∅;
     aliases := ∅ |}.

(** The text of the system block the age branches create. *)
Definition system_reason (kind delta : string) : string :=
  kind +:+ " Required to wait for " +:+ delta +:+ ".".

(** The wait-time notice as it appears in the trace. *)
Definition wait_notice (gw : Gateway) (message : Message) (delta : string) : Event :=
  ChannelSend (channel_id (message_channel message)) "Message not sent!"
    ("Your must wait for " +:+ delta +:+ " before you can contact "
       +:+ mention (bot_user gw) +:+ ".").

Definition is_wait_notice (e : Event) : bool :=
  match e with
  | ChannelSend _ title _ => String.eqb title "Message not sent!"
  | _ => false
  end.

(** The events a handler appended to the trace of [s] on its way to [s']. *)
Definition new_events (s s' : Bot) : list Event :=
  drop (length (trace s)) (trace s').

(** The account-age threshold is one day and the block map is given. *)
Definition one_day_config (b : gmap string string) : Config :=
  {| blocked := b;
     blocked_whitelist := [];
     account_age := Some "P1D";
     guild_age := None;
     sent_emoji := "Y";
     blocked_emoji := "N";
     close_emoji := "L";
     recipient_thread_close := PBool true;
     reply_without_command := PBool false;
     closures := [];
     guild_id := Some 10;
     modmail_guild_id := None;
     main_category_id := Some 20;
     log_channel_id := Some 30;
     prefix := "?";
     snippets := ∅;
     aliases := ∅ |}.

(** Both thresholds are set: one day of account age, seven of membership. *)
Definition two_thresholds_config (b : gmap string string) : Config :=
  {| blocked := b;
     blocked_whitelist := [];
     account_age := Some "P1D";
     guild_age := Some "P7D";
     sent_emoji := "Y";
     blocked_emoji := "N";
     close_emoji := "L";
     recipient_thread_close := PBool true;
     reply_without_command := PBool false;
     closures := [];
     guild_id := Some 10;
     modmail_guild_id := None;
     main_category_id := Some 20;
     log_channel_id := Some 30;
     prefix := "?";
     snippets := ∅;
     aliases := ∅ |}.

Definition hello_member : Message :=
  {| message_id := 100; message_author := alice_member; message_channel := alice_dm;
     message_type := default_type; message_content := "hello"; message_embeds := [] |}.

(** An operator block that ran out on 2020-01-01. *)
Definition expired_reason : string := "spam %2020-01-01T00:00:00%".

(** Events by which a thread is created, fed, answered or closed. *)
Definition is_thread_event (e : Event) : bool :=
  match e with
  | ThreadCreate _ _ | ThreadSend _ _ | ThreadReply _ _ | ThreadClose _ _ => true
  | _ => false
  end.

(** [s'] is reached from [s] without touching the registry and without
    any thread event. *)
Definition no_thread_activity (s s' : Bot) : Prop :=
  threads s' = threads s /\
  exists evs, trace s' = (trace s ++ evs)%list /\
              Forall (fun e => is_thread_event e = false) evs.

(** A computation every run of which, returning or raising, ends in a
    state related to the one it started from. *)
Definition keeps (R : Bot -> Bot -> Prop) {A} (m : M Bot A) : Prop :=
  forall s, R s (state_of (m s)).

(** A computation that never touches a thread, however it ends. *)
Definition thread_free {A} (m : M Bot A) : Prop := keeps no_thread_activity m.

(** [s'] differs from [s] in the configuration at most. *)
Definition config_only (s s' : Bot) : Prop :=
  threads s' = threads s /\ trace s' = trace s /\ clock s' = clock s.

(** The notice the gateway posts when the bot pins a message. *)
Definition pin_notice : Message :=
  {| message_id := 103; message_author := the_bot; message_channel := alice_room;
     message_type := pins_add; message_content := "?close"; message_embeds := [] |}.

(** Alice reacts with the close emoji on a message of her private channel. *)
Definition lock_reaction (message : Z) : Payload :=
  {| payload_user_id := 7; payload_channel_id := 70; payload_message_id := message;
     payload_emoji := "L" |}.

(** The arguments of the close that follows a channel deletion by the
    moderator. *)
Definition deleted_by_moderator : CloseArgs :=
  {| close_closer := Some moderator; close_after := 0; close_silent := true;
     close_delete_channel := false; close_message := None;
     close_auto_close := false |}.

Definition bob : User :=
  {| user_id := 8; user_bot := false; user_created_at := y2020; user_joined_at := None |}.

Definition bob_room : Channel :=
  {| channel_id := 32; channel_kind := TextChannel; channel_guild := Some 10;
     channel_created_at := y2030 |}.

Definition bob_thread : Thread :=
  {| thread_recipient := bob; thread_channel := bob_room |}.

(** The gateway at startup: the relay channels of Alice and Bob exist. *)
Definition startup_gateway : Gateway :=
  let gw := sample_gateway [log_room; alice_room; bob_room] [] in
  {| bot_user := bot_user gw; guilds := guilds gw; get_user := get_user gw;
     get_channel := get_channel gw; create_dm := create_dm gw;
     fetch_message := fetch_message gw; audit_logs := audit_logs gw;
     create_channel := create_channel gw; channel_history := channel_history gw;
     relay_threads := [alice_thread; bob_thread] |}.

(** A closure the moderator scheduled, due at the given time. *)
Definition closure_due (time : string) : Closure :=
  {| closure_time := time; closure_closer_id := Some 5; closure_silent := false;
     closure_delete_channel := true; closure_message := None;
     closure_auto_close := None |}.

(** Three closures are pending: Alice's was due on 2020-01-01, Bob's is
    due on 2030-01-01, and recipient 9 has no thread any more. *)
Definition pending_closures : list (string * Closure) :=
  [ ("7", closure_due "2020-01-01T00:00:00");
    ("8", closure_due "2030-01-01T00:00:00");
    ("9", closure_due "2030-01-01T00:00:00") ].

(** The bot restarts ten minutes after Alice's closure was due. *)
Definition restarted_bot : Bot :=
  sample_bot (with_closures (fun _ => pending_closures) sample_config) []
    (y2020 + 600000000).

(** ** Uptime and permissions *)

(** Lines 93-95 of [uptime]: the three [divmod] of the whole seconds
    [int(delta.total_seconds())], giving days, hours, minutes, seconds. *)
Definition uptime_parts (total : Z) : Z * Z * Z * Z :=
  let hours := total / 3600 in
  let remainder := total mod 3600 in
  let minutes := remainder / 60 in
  let seconds := remainder mod 60 in
  let days := hours / 24 in
  let hours := hours mod 24 in
  (days, hours, minutes, seconds).

(** Lines 97-101: the days are shown only when there are some. *)
Definition uptime_text (total : Z) : string :=
  let '(d, h, m, s) := uptime_parts total in
  let fmt := pretty h +:+ "h " +:+ pretty m +:+ "m " +:+ pretty s +:+ "s" in
  if d =? 0 then fmt else pretty d +:+ "d " +:+ fmt.

(** [l.remove(x)]: the first occurrence goes. *)
Fixpoint remove_first (x : Z) (l : list Z) : list Z :=
  match l with
  | [] => []
  | y :: r => if bool_decide (y = x) then r else y :: remove_first x r
  end.

(** Lines 680-689 of [update_perms], on the dict the name selects. *)
Definition update_perms_in (permissions : gmap string (list Z)) (name : string)
    (value : Z) (add : bool) : gmap string (list Z) :=
  match permissions !! name with
  | None => if add then <[name := [value]]> permissions else permissions
  | Some values =>
      if add then
        if bool_decide (value ∈ values) then permissions
        else <[name := (values ++ [value])%list]> permissions
      else
        if bool_decide (value ∈ values)
        then <[name := remove_first value values]> permissions
        else permissions
  end.

(** The two permission dicts of the configuration, and the flushes made. *)
Record Permissions : Type := {
  level_permissions : gmap string (list Z);
  command_permissions : gmap string (list Z);
  permission_updates : list Event
}.

(** The [name] argument of [update_perms]: a [PermissionLevel], kept by
    its [.name], or the name of a command. *)
Inductive PermissionName : Type :=
| Level (level_name : string)
| Command (command_name : string).

(** [update_perms] (lines 672-691). *)
Definition update_perms (name : PermissionName) (value : Z) (add : bool)
    : M Permissions unit :=
  fun p =>
    Return tt
      match name with
      | Level n =>
          {| level_permissions := update_perms_in (level_permissions p) n value add;
             command_permissions := command_permissions p;
             permission_updates := permission_updates p ++ [ConfigUpdate] |}
      | Command n =>
          {| level_permissions := level_permissions p;
             command_permissions := update_perms_in (command_permissions p) n value add;
             permission_updates := permission_updates p ++ [ConfigUpdate] |}
      end.

(** The values granted under a name, none when the name is not a key. *)
Definition granted (permissions : gmap string (list Z)) (name : string) : list Z :=
  default [] (permissions !! name).

(** How often [value] is listed under [name]. *)
Definition times_granted (permissions : gmap string (list Z)) (name : string)
    (value : Z) : nat :=
  count_occ Z.eq_dec (granted permissions name) value.

(** The dict [update_perms] works on for a name, and the key it uses. *)
Definition permissions_for (name : PermissionName) (p : Permissions)
    : gmap string (list Z) :=
  match name with
  | Level _ => level_permissions p
  | Command _ => command_permissions p
  end.

Definition other_permissions (name : PermissionName) (p : Permissions)
    : gmap string (list Z) :=
  match name with
  | Level _ => command_permissions p
  | Command _ => level_permissions p
  end.

Definition permission_key (name : PermissionName) : string :=
  match name with
  | Level n => n
  | Command n => n
  end.

Definition permissions_sample : Permissions :=
  {| level_permissions := {[ "OWNER" := [5] ]};
     command_permissions := {[ "block" := [5; 7] ]};
     permission_updates := [] |}.

(** [c in s] *)
Fixpoint has_char (c : ascii) (s : string) : bool :=
  match s with
  | "" => false
  | String c' r => bool_decide (c' = c) || has_char c r
  end.

(** *** What the guild properties return, read off the configuration *)

(** The guild [modmail_guild] returns. *)
Definition operating_guild (gw : Gateway) (c : Config) : option Guild :=
  match modmail_guild_id c with
  | None => get_guild gw (guild_id c)
  | Some i =>
      match get_guild gw (Some i) with
      | Some g => Some g
      | None => get_guild gw (guild_id c)
      end
  end.

(** The configuration [modmail_guild] leaves: an id that names no guild
    of the cache is removed. *)
Definition settled_guild_config (gw : Gateway) (c : Config) : Config :=
  match modmail_guild_id c with
  | None => c
  | Some i =>
      match get_guild gw (Some i) with
      | Some _ => c
      | None => with_modmail_guild_id None c
      end
  end.

(** [s'] differs from [s], as far as blocking, closures and threads go, at
    most in the block entry stored under [key]. *)
Definition only_entry_of (key : string) (s s' : Bot) : Prop :=
  blocked_whitelist (config s') = blocked_whitelist (config s) /\
  closures (config s') = closures (config s) /\
  threads s' = threads s /\
  forall k, k <> key -> blocked (config s') !! k = blocked (config s) !! k.

(** *** Handlers that only wind threads down *)

(** [s'] is reached from [s] by a handler that opens no thread: the
    registry has at most lost threads, and every event added is one [ok]
    allows for the registry the handler started from. *)
Definition winds_down (ok : list Thread -> Event -> Prop) (s s' : Bot) : Prop :=
  (forall t, t ∈ threads s' -> t ∈ threads s) /\
  exists evs, trace s' = (trace s ++ evs)%list /\ Forall (ok (threads s)) evs.

(** The events [on_ready] may add for a snapshot of persisted closures:
    a flush of the configuration, or the close of a thread of the
    registry whose recipient has a record in the snapshot, with the
    arguments of that record and a delay that is not negative. *)
Definition pending_close `{ext : Externals} (gw : Gateway)
    (snapshot : list (string * Closure)) (ts : list Thread) (e : Event) : Prop :=
  match e with
  | ConfigUpdate => True
  | ThreadClose rid args =>
      0 <= close_after args /\
      (exists t, t ∈ ts /\ user_id (thread_recipient t) = rid) /\
      exists k items, (k, items) ∈ snapshot /\ py_int k = Some rid /\
        close_closer args = closure_closer_id items ≫= get_user gw /\
        close_silent args = closure_silent items /\
        close_delete_channel args = closure_delete_channel items /\
        close_message args = closure_message items /\
        close_auto_close args = default false (closure_auto_close items)
  | _ => False
  end.

(** The events a reaction may cause: the reactor is a known account that
    is not a bot, and the event is either the reaction mirrored onto a
    message, or the close of the reactor's own thread with the defaults
    of [thread.close(closer=user)]. *)
Definition reaction_event (gw : Gateway) (payload : Payload) (ts : list Thread)
    (e : Event) : Prop :=
  exists user,
    get_user gw (payload_user_id payload) = Some user /\
    user_bot user = false /\
    match e with
    | MirrorReaction _ reaction => reaction = payload_emoji payload
    | ThreadClose rid args =>
        rid = user_id user /\
        args = close_defaults (Some user) /\
        exists t, t ∈ ts /\ user_id (thread_recipient t) = rid
    | _ => False
    end.

(** The events the deletion of [channel] may cause: a flush of the
    configuration, or the close of the thread the deleted text channel
    backs, silent and keeping the channel, with the account the audit
    log names as closer, which is not the bot's own. *)
Definition deletion_event (gw : Gateway) (channel : Channel) (ts : list Thread)
    (e : Event) : Prop :=
  match e with
  | ConfigUpdate => True
  | ThreadClose rid args =>
      channel_kind channel = TextChannel /\
      exists t target deleter,
        t ∈ ts /\
        channel_id (thread_channel t) = channel_id channel /\
        rid = user_id (thread_recipient t) /\
        List.find (fun e => fst e =? channel_id channel) (audit_logs gw)
          = Some (target, deleter) /\
        user_id deleter <> user_id (bot_user gw) /\
        args = {| close_closer := Some deleter; close_after := 0;
                  close_silent := true; close_delete_channel := false;
                  close_message := None; close_auto_close := false |}
  | _ => False
  end.

(** *** Messages outside private channels *)

(** [get_prefix]: the configured prefix and the two mentions of the bot. *)
Definition command_prefixes (gw : Gateway) (c : Config) : list string :=
  let me := pretty (user_id (bot_user gw)) in
  [prefix c; "<@" +:+ me +:+ "> "; "<@!" +:+ me +:+ "> "].

(** The thread, if any, the channel of [message] backs in a registry. *)
Definition thread_of_channel (message : Message) (ts : list Thread) : option Thread :=
  List.find (fun t => channel_id (thread_channel t) =? channel_id (message_channel message))
    ts.

(** What a message outside a private channel that names no command may
    lead to: the message is relayed to the recipient of the thread its
    channel backs, or logged as an internal note of that thread, or
    reported as an unknown command where no thread is attached. *)
Definition routed (message : Message) (ts : list Thread) (e : Event) : Prop :=
  match e with
  | ThreadReply rid mid =>
      mid = message_id message /\
      exists t, thread_of_channel message ts = Some t /\ rid = user_id (thread_recipient t)
  | AppendLog mid =>
      mid = message_id message /\ is_Some (thread_of_channel message ts)
  | CommandError w => w <> "" /\ thread_of_channel message ts = None
  | _ => False
  end.

(** A configuration with one snippet, and the moderator calling it in
    Alice's relay channel. *)
Definition snippet_config : Config :=
  {| blocked := ∅;
     blocked_whitelist := [];
     account_age := None;
     guild_age := None;
     sent_emoji := "Y";
     blocked_emoji := "N";
     close_emoji := "L";
     recipient_thread_close := PBool true;
     reply_without_command := PBool false;
     closures := [];
     guild_id := Some 10;
     modmail_guild_id := None;
     main_category_id := Some 20;
     log_channel_id := Some 30;
     prefix := "?";
     snippets := {[ "hi" := "Hello there" ]};
     aliases := ∅ |}.

Definition greeting : Message :=
  {| message_id := 105; message_author := moderator; message_channel := alice_room;
     message_type := default_type; message_content := "?hi "; message_embeds := [] |}.

(** The recipient a thread event is about. *)
Definition event_recipient (e : Event) : option Z :=
  match e with
  | ThreadCreate rid _ | ThreadSend rid _ | ThreadReply rid _ | ThreadClose rid _ =>
      Some rid
  | _ => None
  end.

(** The reactions among a list of events. *)
Definition is_reaction (e : Event) : bool :=
  match e with
  | AddReaction _ _ => true
  | _ => false
  end.

(** The reaction [_process_blocked] adds for an emoji, none when it is the
    word that disables it. *)
Definition reaction_with (message : Message) (e : emoji) : list Event :=
  if not_disable e then [AddReaction (message_id message) e] else [].

(** ** [is_owner] and [overwrites] *)

(** [s.split(sep)] for a one-character separator: every separator cuts,
    empty pieces are kept. *)
Fixpoint split_on (sep : ascii) (s : string) : list string :=
  match s with
  | "" => [""]
  | String c r =>
      if Ascii.eqb c sep then "" :: split_on sep r
      else
        match split_on sep r with
        | piece :: pieces => String c piece :: pieces
        | [] => [String c ""]
        end
  end.

(** [set(map(int, pieces))]: every piece is read before the set exists,
    and the first one [int] rejects raises. *)
Fixpoint read_ids `{ext : Externals} (pieces : list string) : option (list Z) :=
  match pieces with
  | [] => Some []
  | piece :: rest =>
      match py_int piece with
      | Some n => cons n <$> read_ids rest
      | None => None
      end
  end.

(** [is_owner], lines 201-206: [owners] is the stored value as [str]
    renders it, absent when the key holds [None]; [base] is the answer of
    the library's own [is_owner], asked only when the listing does not
    settle it. *)
Definition is_owner `{ext : Externals} (owners : option string) (uid : Z) (base : bool)
    : exn + bool :=
  match owners with
  | Some text =>
      match read_ids (split_on "," text) with
      | Some ids => inr (if bool_decide (uid ∈ ids) then true else base)
      | None => inl ValueError
      end
  | None => inr base
  end.

(** A role of the guild, as [overwrites] reads it. *)
Record Role : Type := {
  role_id : Z;
  role_administrator : bool
}.

(** The keys of the overwrites: a role, or the bot's own member. *)
Inductive Target : Type :=
  | RoleTarget (id : Z)
  | MemberTarget (id : Z).

#[global] Instance Target_eq_dec : EqDecision Target.
Proof. solve_decision. Defined.

(** Lines 961-963: the loop over the roles, on a dict kept as an
    association list in insertion order; an assignment to a key already
    there replaces its value in place. *)
Fixpoint set_overwrite (k : Target) (v : bool) (d : list (Target * bool))
    : list (Target * bool) :=
  match d with
  | [] => [(k, v)]
  | (k', v') :: r =>
      if bool_decide (k' = k) then (k, v) :: r else (k', v') :: set_overwrite k v r
  end.

Definition get_overwrite (k : Target) (d : list (Target * bool)) : option bool :=
  snd <$> List.find (fun kv => bool_decide (fst kv = k)) d.

(** [overwrites], lines 953-964; the value is [read_messages]. *)
Definition overwrites (default_role : Role) (me : Z) (roles : list Role)
    : list (Target * bool) :=
  fold_left
    (fun d role =>
       if role_administrator role then set_overwrite (RoleTarget (role_id role)) true d
       else d)
    roles
    [(RoleTarget (role_id default_role), false); (MemberTarget me, true)].

(** ** The guild, category and log-channel properties over the stored values

    The handlers above read the four ids as integers.  Here the
    properties of lines 208-310 are taken with the values the
    configuration holds for them: an integer the bot wrote itself, or a
    text from the environment or an operator, which [int(...)] may
    reject. *)
Module Stored.

Inductive id_value : Type :=
| IdInt (n : Z)
| IdText (text : string).

(** The four keys the properties read and write. *)
Record Ids : Type := {
  guild_id_key : option id_value;
  modmail_guild_id_key : option id_value;
  main_category_id_key : option id_value;
  log_channel_id_key : option id_value
}.

Definition set_modmail_guild_id (v : option id_value) (s : Ids) : Ids :=
  {| guild_id_key := guild_id_key s;
     modmail_guild_id_key := v;
     main_category_id_key := main_category_id_key s;
     log_channel_id_key := log_channel_id_key s |}.

Definition set_main_category_id (v : option id_value) (s : Ids) : Ids :=
  {| guild_id_key := guild_id_key s;
     modmail_guild_id_key := modmail_guild_id_key s;
     main_category_id_key := v;
     log_channel_id_key := log_channel_id_key s |}.

Definition set_log_channel_id (v : option id_value) (s : Ids) : Ids :=
  {| guild_id_key := guild_id_key s;
     modmail_guild_id_key := modmail_guild_id_key s;
     main_category_id_key := main_category_id_key s;
     log_channel_id_key := v |}.

Section Properties.
Context {ext : Externals} (gw : Gateway).

(** The integer [int(v)] reads, [int(str(v))] alike; [None] is
    [ValueError]. *)
Definition int_of (v : id_value) : option Z :=
  match v with
  | IdInt n => Some n
  | IdText text => py_int text
  end.

Definition int (v : id_value) : M Ids Z :=
  match int_of v with
  | Some n => ret n
  | None => raise ValueError
  end.

(** [self.config[key]] *)
Definition get (key : Ids -> option id_value) : M Ids (option id_value) :=
  fun s => Return (key s) s.

(** Modelled from the spec: [config.remove(key)], reset to absent. *)
Definition remove (set : option id_value -> Ids -> Ids) : M Ids unit :=
  modify (set None).

(** [guild_id], lines 256-264: the [ValueError] of [int] is raised again
    as a [ValueError]. *)
Definition guild_id : M Ids (option Z) :=
  v <- get guild_id_key ;;
  match v with
  | Some v => n <- int v ;; ret (Some n)
  | None => ret None
  end.

Definition guild : M Ids (option Guild) :=
  i <- guild_id ;; ret (get_guild gw i).

Definition modmail_guild : M Ids (option Guild) :=
  v <- get modmail_guild_id_key ;;
  match v with
  | None => guild
  | Some v =>
      i <- int v ;;
      match get_guild gw (Some i) with
      | Some g => ret (Some g)
      | None => remove set_modmail_guild_id ;;; guild
      end
  end.

(** [self.modmail_guild.categories]: the property is read again and
    dereferenced. *)
Definition modmail_guild_categories : M Ids (list Category) :=
  g <- modmail_guild ;;
  match g with
  | Some g => ret (guild_categories g)
  | None => raise AttributeError
  end.

Definition main_category : M Ids (option Category) :=
  g <- modmail_guild ;;
  match g with
  | None => ret None
  | Some _ =>
      v <- get main_category_id_key ;;
      found <- match v with
               | None => ret None
               | Some v =>
                   cats <- modmail_guild_categories ;;
                   i <- int v ;;
                   match List.find (fun c => category_id c =? i) cats with
                   | Some cat => ret (Some cat)
                   | None => remove set_main_category_id ;;; ret None
                   end
               end ;;
      match found with
      | Some cat => ret (Some cat)
      | None =>
          cats <- modmail_guild_categories ;;
          match List.find (fun c => String.eqb (category_name c) "Modmail") cats with
          | Some cat =>
              modify (set_main_category_id (Some (IdInt (category_id cat)))) ;;;
              ret (Some cat)
          | None => ret None
          end
      end
  end.

Definition log_channel : M Ids (option Channel) :=
  v <- get log_channel_id_key ;;
  found <- match v with
           | None => ret None
           | Some v =>
               i <- int v ;;
               match get_channel gw i with
               | Some c => ret (Some c)
               | None => remove set_log_channel_id ;;; ret None
               end
           end ;;
  match found with
  | Some c => ret (Some c)
  | None =>
      cat <- main_category ;;
      match cat with
      | None => ret None
      | Some _ =>
          cat' <- main_category ;;
          match cat' with
          | None => raise AttributeError
          | Some cat' =>
              match category_channels cat' with
              | c :: _ =>
                  modify (set_log_channel_id (Some (IdInt (channel_id c)))) ;;;
                  ret (Some c)
              | [] => ret None
              end
          end
      end
  end.

End Properties.

End Stored.

(** The stored values of a configuration whose four ids are integers,
    and an outcome of the handlers' state seen on those values. *)
Definition ids_of (c : Config) : Stored.Ids :=
  {| Stored.guild_id_key := Stored.IdInt <$> guild_id c;
     Stored.modmail_guild_id_key := Stored.IdInt <$> modmail_guild_id c;
     Stored.main_category_id_key := Stored.IdInt <$> main_category_id c;
     Stored.log_channel_id_key := Stored.IdInt <$> log_channel_id c |}.

Definition on_ids {A} (o : Outcome Bot A) : Outcome Stored.Ids A :=
  match o with
  | Return a s => Return a (ids_of (config s))
  | Raise e s => Raise e (ids_of (config s))
  end.

(** * Properties *)

(** ** Running the monad *)

Lemma bind_return {S A B} (m : M S A) (k : A -> M S B) s a s' :
  m s = Return a s' -> bind m k s = k a s'.
Proof. intros E. unfold bind. now rewrite E. Qed.

Lemma bind_raise {S A B} (m : M S A) (k : A -> M S B) s e s' :
  m s = Raise e s' -> bind m k s = Raise e s'.
Proof. intros E. unfold bind. now rewrite E. Qed.

Lemma startswith_app (p s : string) : startswith (p +:+ s) p = true.
Proof.
  unfold startswith. induction p as [|c p IH]; simpl.
  - now destruct s.
  - destruct (ascii_dec c c); [exact IH | congruence].
Qed.

(** ** [retrieve_emoji] *)

(** Whatever the emoji settings are, [retrieve_emoji] returns; it only
    rewrites the two emoji keys and flushes the configuration once. *)
Lemma retrieve_emoji_returns `{ext : Externals} (s : Bot) :
  exists sent blocked_e se be,
    retrieve_emoji s =
      Return (sent, blocked_e)
        {| config := with_blocked_emoji be (with_sent_emoji se (config s));
           threads := threads s;
           trace := trace s ++ [ConfigUpdate];
           clock := clock s |}.
Proof.
  destruct s as [c ts tr ck].
  destruct c as [b wl aa ga se be ce rtc rwc cl gi mgi mci lci px sn al].
  unfold retrieve_emoji, bind, read, try_except, convert_emoji, ret, raise,
    remove_sent_emoji, remove_blocked_emoji, update_config, modify, bind,
    config_update, emit, modify; simpl.
  destruct (negb (String.eqb se "disable")) eqn:E1; simpl;
    [destruct (unicode_emoji se); simpl;
       [|destruct (emoji_converter (strip_colon se)); simpl] |];
    (destruct (negb (String.eqb be "disable")) eqn:E2; simpl;
     [destruct (unicode_emoji be); simpl;
        [|destruct (emoji_converter (strip_colon be)); simpl] |]);
    eauto 8.
Qed.

(** ** The expiry pattern and the emoji names, on examples *)

Example search_end_time_expiry :
  search_end_time "spam %2020-01-01T00:00:00%" = Some "2020-01-01T00:00:00".
Proof. reflexivity. Qed.

Example search_end_time_leftmost : search_end_time "a%b%c%" = Some "b%c".
Proof. reflexivity. Qed.

Example search_end_time_needs_text : search_end_time "100%%" = None.
Proof. reflexivity. Qed.

Example search_end_time_before_newline :
  search_end_time ("until %soon%" +:+ String newline "") = Some "soon".
Proof. reflexivity. Qed.

Example search_end_time_permanent : search_end_time "spam" = None.
Proof. reflexivity. Qed.

Example strip_colon_both_ends : strip_colon ":lock::" = "lock".
Proof. reflexivity. Qed.

(** ** The whitelist *)

Ltac run :=
  unfold bind, ret, raise, read, update_config, modify, emit, config_update,
    add_reaction, with_config; simpl.

(** The whitelist branch, lines 486-497, as run by [_process_blocked]. *)
Lemma process_blocked_whitelisted `{ext : Externals} (gw : Gateway)
    (message : Message) (s : Bot) :
  let key := str_id (message_author message) in
  key ∈ blocked_whitelist (config s) ->
  exists s' sent,
    _process_blocked gw message s = Return false s' /\
    blocked (config s') = delete key (blocked (config s)) /\
    blocked (config s') !! key = None /\
    threads s' = threads s /\
    trace s' =
      (trace s ++ [ConfigUpdate]
         ++ (if bool_decide (is_Some (blocked (config s) !! key))
             then [ConfigUpdate] else [])
         ++ (if not_disable sent then [AddReaction (message_id message) sent] else []))%list.
Proof.
  intros key Hwl. subst key.
  destruct (retrieve_emoji_returns s) as (sent & blocked_e & se & be & E).
  unfold _process_blocked. rewrite (bind_return _ _ _ _ _ E).
  destruct s as [c ts tr ck].
  destruct c as [b wl aa ga se0 be0 ce rtc rwc cl gi mgi mci lci px sn al].
  simpl in *. run.
  rewrite (bool_decide_eq_true_2 _ Hwl). unfold whitelisted_sender. run.
  set (key := str_id (message_author message)) in *.
  destruct (bool_decide (is_Some (b !! key))) eqn:Hp; run.
  - destruct (not_disable sent) eqn:Hd;
      (eexists _, sent; rewrite Hd; run);
      repeat split; try apply lookup_delete_eq;
      rewrite <- ?app_assoc; reflexivity.
  - apply bool_decide_eq_false in Hp.
    assert (Hn : b !! key = None).
    { destruct (b !! key) eqn:Hb; [exfalso; apply Hp; eauto | reflexivity]. }
    destruct (not_disable sent) eqn:Hd;
      (eexists _, sent; rewrite Hd; run);
      repeat split; try (symmetry; apply delete_id; exact Hn); try exact Hn;
      rewrite <- ?app_assoc; try rewrite app_nil_r; reflexivity.
Qed.

(** C2.  A sender on the whitelist is accepted ([_process_blocked]
    returns [False]) whatever the age thresholds, the account and
    membership dates and the stored block entry are; the sender's entry is
    gone from the block map afterwards, and when there was one the
    configuration is flushed right after its removal. *)
Theorem whitelist_overrides_block `{ext : Externals} (gw : Gateway)
    (message : Message) (s : Bot) :
  let key := str_id (message_author message) in
  key ∈ blocked_whitelist (config s) ->
  exists s' sent,
    _process_blocked gw message s = Return false s' /\
    blocked (config s') = delete key (blocked (config s)) /\
    blocked (config s') !! key = None /\
    trace s' =
      (trace s ++ [ConfigUpdate]
         ++ (if bool_decide (is_Some (blocked (config s) !! key))
             then [ConfigUpdate] else [])
         ++ (if not_disable sent then [AddReaction (message_id message) sent] else []))%list.
Proof.
  intros key Hwl.
  destruct (process_blocked_whitelisted gw message s Hwl)
    as (s' & sent & H1 & H2 & H3 & _ & H4).
  exists s', sent. auto.
Qed.

Lemma whitelist_overrides_block_witness :
  let gw := sample_gateway [log_room] [] in
  let s := sample_bot whitelisted_config [] (y2020 + 5) in
  str_id alice ∈ blocked_whitelist (config s) /\
  account_age (config s) = Some "P1D" /\
  blocked (config s) !! str_id alice = Some new_account_reason /\
  exists s',
    _process_blocked (ext := sample_externals) gw hello s = Return false s' /\
    blocked (config s') !! str_id alice = None.
Proof.
  intros gw s.
  assert (Hwl : str_id (message_author hello) ∈ blocked_whitelist (config s)).
  { vm_compute. constructor. }
  split; [exact Hwl|]. split; [reflexivity|]. split; [reflexivity|].
  destruct (whitelist_overrides_block (ext := sample_externals) gw hello s Hwl)
    as (s' & sent & Hrun & _ & Hgone & _).
  exists s'. split; [exact Hrun | exact Hgone].
Defined.

(** ** The age limits *)

Ltac destruct_bot s :=
  let c := fresh "c" in
  destruct s as [c ?ts ?tr ?ck];
  destruct c as [?b ?wl ?aa ?ga ?se ?be ?ce ?rtc ?rwc ?cl ?gi ?mgi ?mci ?lci ?px ?sn ?al].

Ltac run_more :=
  unfold utcnow, load_age, add_age, try_except, remove_account_age, remove_guild_age;
  run.

(** When both limits are computable, lines 499-548 return them; they may
    reset the two threshold keys and touch nothing else but the clock. *)
Lemma age_limits_returns `{ext : Externals} (message : Message) (s : Bot) ta tg :
  min_account_age message s = Some ta ->
  min_guild_age message s = Some tg ->
  exists aa' ga',
    age_limits message s =
      Return (clock s, default "" (blocked (config s) !! str_id (message_author message)), ta, tg)
        {| config := with_guild_age ga' (with_account_age aa' (config s));
           threads := threads s;
           trace := trace s;
           clock := next_instant (clock s) |}.
Proof.
  destruct_bot s. unfold min_account_age, min_guild_age, min_age, threshold. simpl.
  intros Ha Hg. unfold age_limits. run_more.
  repeat (case_match; simplify_eq/=; run_more); eauto.
Qed.

(** A stored account-age threshold that does not parse is removed, and the
    addition that follows is a [TypeError]. *)
Lemma age_limits_malformed_account_age `{ext : Externals} (message : Message)
    (s : Bot) text :
  account_age (config s) = Some text ->
  parse_duration text = None ->
  exists ga',
    age_limits message s =
      Raise TypeError
        {| config := with_guild_age ga' (with_account_age None (config s));
           threads := threads s;
           trace := trace s;
           clock := next_instant (clock s) |}.
Proof.
  destruct_bot s. simpl. intros -> Hp. unfold age_limits. run_more.
  rewrite Hp. run_more.
  repeat (case_match; simplify_eq/=; run_more); eauto.
Qed.

(** For a sender off the whitelist whose two limits are computable,
    [_process_blocked] comes down to the decision of lines 550-623, taken
    in a state whose block map, whitelist and threads are those it
    started from. *)
Lemma process_blocked_decides `{ext : Externals} (gw : Gateway)
    (message : Message) (s : Bot) ta tg :
  let key := str_id (message_author message) in
  key ∉ blocked_whitelist (config s) ->
  min_account_age message s = Some ta ->
  min_guild_age message s = Some tg ->
  exists sent blocked_e s2,
    _process_blocked gw message s =
      apply_policy gw message sent blocked_e (clock s)
        (default "" (blocked (config s) !! key)) ta tg s2 /\
    blocked (config s2) = blocked (config s) /\
    threads s2 = threads s /\
    trace s2 = (trace s ++ [ConfigUpdate])%list /\
    clock s2 = next_instant (clock s).
Proof.
  intros key Hwl Ha Hg. subst key.
  destruct (retrieve_emoji_returns s) as (sent & blocked_e & se' & be' & E).
  unfold _process_blocked. rewrite (bind_return _ _ _ _ _ E). clear E.
  destruct_bot s. simpl in *.
  unfold bind at 1. unfold read at 1. simpl.
  rewrite (bool_decide_eq_false_2 _ Hwl).
  match goal with
  | |- context [bind (age_limits message) _ ?s1] =>
      destruct (age_limits_returns message s1 ta tg Ha Hg) as (aa' & ga' & L)
  end.
  rewrite (bind_return _ _ _ _ _ L). simpl.
  eexists sent, blocked_e, _. split; [reflexivity|]. simpl. auto.
Qed.

(** ** The decision *)

(** An age branch (lines 551-571, 574-594): an absent entry is created
    with the kind of the branch, a present one is left as it is, and the
    notice goes out exactly when the entry was created or the stored
    reason starts with that kind. *)
Ltac bogus :=
  exfalso;
  match goal with
  | H : is_Some None |- _ => destruct H as [? H']; discriminate H'
  | H : ¬ is_Some (Some _) |- _ => apply H; eexists; reflexivity
  | H : Some _ = None |- _ => discriminate H
  | H : None = Some _ |- _ => discriminate H
  | H : ?x <> ?x |- _ => apply H; reflexivity
  end.

Lemma age_not_met_runs `{ext : Externals} (gw : Gateway) (kind : string)
    (message : Message) (reason : string) (t : Z) (s : Bot) :
  let key := str_id (message_author message) in
  let delta := human_timedelta_text (clock s) t in
  let absent := bool_decide (blocked (config s) !! key = None) in
  age_not_met gw kind message reason t s =
    Return tt
      {| config :=
           with_blocked
             (fun b => if absent then <[key := system_reason kind delta]> b else b)
             (config s);
         threads := threads s;
         trace := trace s ++ (if startswith reason kind || absent
                              then [wait_notice gw message delta] else []);
         clock := next_instant (clock s) |}.
Proof.
  destruct_bot s. simpl. unfold age_not_met, human_timedelta, send_wait_notice.
  run_more.
  destruct (b !! str_id (message_author message)) as [r|] eqn:Hb;
    repeat (case_bool_decide; simplify_eq/=; run);
    try bogus.
  - rewrite orb_false_r.
    destruct (startswith reason kind); run; rewrite ?app_nil_r; reflexivity.
  - rewrite orb_true_r. run. reflexivity.
Qed.

Lemma new_events_app (s s' : Bot) (evs : list Event) :
  trace s' = (trace s ++ evs)%list -> new_events s s' = evs.
Proof. intros E. unfold new_events. rewrite E. apply drop_app_length. Qed.

(** C3, as the code has it.  The sender is off the whitelist; line 537
    adds the account threshold (the stored duration, the zero duration
    when none is stored) to the creation date without error and gets an
    instant [ta] after the evaluation time; and lines 542-548 get the
    membership instant (the joining date plus the guild threshold, or the
    evaluation time when the sender has no joining date or that addition
    ends in the [ValueError] they catch).  Then the evaluation rejects
    the message; a sender without any block entry gets a system entry of
    the new-account kind, an entry already stored, of whatever kind, is
    left as it is; and the wait-time notice is sent, once, exactly when
    the entry was just created or the stored reason starts with the
    new-account kind. *)
Theorem new_account_rejected `{ext : Externals} (gw : Gateway)
    (message : Message) (s : Bot) (ta tg : Z) :
  let key := str_id (message_author message) in
  let reason := default "" (blocked (config s) !! key) in
  let delta := human_timedelta_text (next_instant (clock s)) ta in
  let absent := bool_decide (blocked (config s) !! key = None) in
  key ∉ blocked_whitelist (config s) ->
  min_account_age message s = Some ta ->
  min_guild_age message s = Some tg ->
  clock s < ta ->
  exists s',
    _process_blocked gw message s = Return true s' /\
    blocked (config s') =
      (if absent
       then <[key := system_reason new_account_kind delta]> (blocked (config s))
       else blocked (config s)) /\
    is_Some (blocked (config s') !! key) /\
    List.filter is_wait_notice (new_events s s') =
      (if startswith reason new_account_kind || absent
       then [wait_notice gw message delta] else []).
Proof.
  intros key reason delta absent Hwl Ha Hg Hlt.
  destruct (process_blocked_decides gw message s ta tg Hwl Ha Hg)
    as (sent & blocked_e & s2 & -> & Hb & Hts & Htr & Hck).
  unfold apply_policy.
  assert (Hnow : (clock s <? ta) = true) by (apply Z.ltb_lt; exact Hlt).
  rewrite Hnow.
  rewrite (bind_return _ _ s2 blocked_e _
             (bind_return _ _ s2 tt _ (age_not_met_runs gw new_account_kind message _ ta s2))).
  fold key. rewrite Hb, Htr, Hck. fold reason delta absent.
  assert (Hsome : is_Some ((if absent
                             then <[key := system_reason new_account_kind delta]>
                                    (blocked (config s))
                             else blocked (config s)) !! key)).
  { unfold absent. case_bool_decide as Hk.
    - rewrite lookup_insert_eq. eauto.
    - destruct (blocked (config s) !! key); [eauto | congruence]. }
  destruct_bot s2. simpl in *. subst b.
  destruct (not_disable blocked_e) eqn:Hd;
    (eexists; split;
     [ run; rewrite (bool_decide_eq_true_2 _ Hsome); reflexivity
     | split; [reflexivity | split; [exact Hsome |] ] ]);
    (erewrite new_events_app by (simpl; rewrite <- !app_assoc; reflexivity));
    simpl; destruct (startswith reason new_account_kind || absent); reflexivity.
Qed.

Lemma new_account_rejected_witness :
  let gw := sample_gateway [log_room] [] in
  let s := sample_bot (one_day_config ∅) [] (y2020 + 5) in
  (str_id alice ∉ blocked_whitelist (config s)) /\
  min_account_age (ext := sample_externals) hello s = Some (y2020 + day) /\
  min_guild_age (ext := sample_externals) hello s = Some (y2020 + 5) /\
  clock s < y2020 + day /\
  exists s',
    _process_blocked (ext := sample_externals) gw hello s = Return true s' /\
    blocked (config s') !! str_id alice =
      Some "System Message: New Account. Required to wait for 1 day." /\
    List.filter is_wait_notice (new_events s s') =
      [wait_notice gw hello "1 day"].
Proof.
  intros gw s.
  assert (Hwl : str_id (message_author hello) ∉ blocked_whitelist (config s))
    by apply not_elem_of_nil.
  assert (Ha : min_account_age (ext := sample_externals) hello s = Some (y2020 + day))
    by reflexivity.
  assert (Hg : min_guild_age (ext := sample_externals) hello s = Some (y2020 + 5))
    by reflexivity.
  assert (Hlt : clock s < y2020 + day) by reflexivity.
  repeat (split; [assumption|]).
  destruct (new_account_rejected (ext := sample_externals) gw hello s _ _ Hwl Ha Hg Hlt)
    as (s' & Hrun & Hb & _ & Hn).
  exists s'. split; [exact Hrun|]. split.
  - rewrite Hb. reflexivity.
  - rewrite Hn. reflexivity.
Defined.

(** C3 as stated fails when the sender already holds an entry of another
    kind: the account is too young and the message is rejected, yet the
    only entry stored for the sender afterwards is the operator's, so no
    entry of the new-account kind exists. *)
Lemma new_account_entry_not_ensured :
  let gw := sample_gateway [log_room] [] in
  let s := sample_bot (one_day_config {[ "7" := "spam" ]}) [] (y2020 + 5) in
  (str_id alice ∉ blocked_whitelist (config s)) /\
  min_account_age (ext := sample_externals) hello s = Some (y2020 + day) /\
  clock s < y2020 + day /\
  exists s',
    _process_blocked (ext := sample_externals) gw hello s = Return true s' /\
    blocked (config s') !! str_id alice = Some "spam" /\
    startswith "spam" new_account_kind = false.
Proof.
  intros gw s.
  split; [apply not_elem_of_nil|].
  split; [reflexivity|]. split; [reflexivity|].
  eexists. split; [vm_compute; reflexivity|].
  split; reflexivity.
Qed.

(** The last branch, lines 596-613, reached through [_process_blocked]
    by a sender off the whitelist whose two age conditions hold. *)
Lemma process_blocked_old_enough `{ext : Externals} (gw : Gateway)
    (message : Message) (s : Bot) (ta tg : Z) :
  let key := str_id (message_author message) in
  key ∉ blocked_whitelist (config s) ->
  min_account_age message s = Some ta ->
  min_guild_age message s = Some tg ->
  ta <= clock s ->
  tg <= clock s ->
  exists sent blocked_e s2,
    _process_blocked gw message s =
      (reaction <-
         (present <- read (fun c => bool_decide (is_Some (blocked c !! key))) ;;
          if present
          then existing_block message (default "" (blocked (config s) !! key))
                 (clock s) sent blocked_e
          else ret sent) ;;
       config_update ;;;
       (if not_disable reaction then add_reaction message reaction else ret tt) ;;;
       read (fun c => bool_decide (is_Some (blocked c !! key)))) s2 /\
    blocked (config s2) = blocked (config s) /\
    threads s2 = threads s /\
    trace s2 = (trace s ++ [ConfigUpdate])%list.
Proof.
  intros key Hwl Ha Hg Hta Htg.
  destruct (process_blocked_decides gw message s ta tg Hwl Ha Hg)
    as (sent & blocked_e & s2 & -> & Hb & Hts & Htr & _).
  exists sent, blocked_e, s2. split; [|auto].
  unfold apply_policy.
  replace (clock s <? ta) with false by (symmetry; apply Z.ltb_ge; exact Hta).
  replace (clock s <? tg) with false by (symmetry; apply Z.ltb_ge; exact Htg).
  reflexivity.
Qed.

(** C4, as the code has it.  A sender holding an entry of a temporal
    system kind is accepted, and the entry removed from the block map,
    once both age conditions hold at evaluation time, whatever expiry the
    reason text may encode. *)
Theorem temporal_block_cleared `{ext : Externals} (gw : Gateway)
    (message : Message) (s : Bot) (ta tg : Z) (r : string) :
  let key := str_id (message_author message) in
  blocked (config s) !! key = Some r ->
  startswith r new_account_kind || startswith r recently_joined_kind = true ->
  min_account_age message s = Some ta ->
  min_guild_age message s = Some tg ->
  ta <= clock s ->
  tg <= clock s ->
  exists s',
    _process_blocked gw message s = Return false s' /\
    blocked (config s') = delete key (blocked (config s)) /\
    blocked (config s') !! key = None.
Proof.
  intros key Hr Hkind Ha Hg Hta Htg.
  destruct (decide (key ∈ blocked_whitelist (config s))) as [Hwl|Hwl].
  - destruct (process_blocked_whitelisted gw message s Hwl)
      as (s' & sent & H1 & H2 & H3 & _).
    exists s'. auto.
  - destruct (process_blocked_old_enough gw message s ta tg Hwl Ha Hg Hta Htg)
      as (sent & blocked_e & s2 & -> & Hb & _ & _).
    fold key. rewrite Hr. simpl.
    destruct_bot s2. simpl in *. subst b.
    unfold existing_block. fold key. rewrite Hkind. run.
    rewrite (bool_decide_eq_true_2 (is_Some (blocked (config s) !! key)))
      by (rewrite Hr; eauto).
    run.
    assert (Hgone : bool_decide (is_Some (delete key (blocked (config s)) !! key)) = false).
    { apply bool_decide_eq_false_2. rewrite lookup_delete_eq. intros [? ?]; discriminate. }
    destruct (not_disable sent) eqn:Hd; run; rewrite Hgone;
      (eexists; split; [reflexivity|]; simpl; split;
       [reflexivity | apply lookup_delete_eq]).
Qed.

Lemma temporal_block_cleared_witness :
  let gw := sample_gateway [log_room] [] in
  let s := sample_bot (one_day_config {[ "7" := new_account_reason ]}) [] y2030 in
  blocked (config s) !! str_id alice = Some new_account_reason /\
  startswith new_account_reason new_account_kind
    || startswith new_account_reason recently_joined_kind = true /\
  min_account_age (ext := sample_externals) hello s = Some (y2020 + day) /\
  min_guild_age (ext := sample_externals) hello s = Some y2030 /\
  y2020 + day <= clock s /\
  y2030 <= clock s /\
  exists s',
    _process_blocked (ext := sample_externals) gw hello s = Return false s' /\
    blocked (config s') !! str_id alice = None.
Proof.
  intros gw s.
  assert (Hr : blocked (config s) !! str_id (message_author hello) = Some new_account_reason)
    by reflexivity.
  assert (Hk : startswith new_account_reason new_account_kind
                 || startswith new_account_reason recently_joined_kind = true)
    by reflexivity.
  assert (Ha : min_account_age (ext := sample_externals) hello s = Some (y2020 + day))
    by reflexivity.
  assert (Hg : min_guild_age (ext := sample_externals) hello s = Some y2030)
    by reflexivity.
  assert (Hta : y2020 + day <= clock s) by (vm_compute; discriminate).
  assert (Htg : y2030 <= clock s) by (vm_compute; discriminate).
  repeat (split; [assumption|]).
  destruct (temporal_block_cleared (ext := sample_externals) gw hello s _ _ _
              Hr Hk Ha Hg Hta Htg) as (s' & Hrun & _ & Hgone).
  exists s'. split; [exact Hrun | exact Hgone].
Defined.

(** C4 as stated fails when only the condition the entry was made for
    holds: the sender holds a new-account entry and the account is old
    enough, but the membership is not, so the message is rejected and the
    entry stays. *)
Lemma new_account_block_kept_while_recently_joined :
  let gw := sample_gateway [log_room] [] in
  let s := sample_bot (two_thresholds_config {[ "7" := new_account_reason ]}) []
             (y2030 + day) in
  blocked (config s) !! str_id alice_member = Some new_account_reason /\
  startswith new_account_reason new_account_kind = true /\
  min_account_age (ext := sample_externals) hello_member s = Some (y2020 + day) /\
  y2020 + day <= clock s /\
  exists s',
    _process_blocked (ext := sample_externals) gw hello_member s = Return true s' /\
    blocked (config s') !! str_id alice_member = Some new_account_reason.
Proof.
  intros gw s.
  split; [reflexivity|]. split; [reflexivity|]. split; [reflexivity|].
  split; [vm_compute; discriminate|].
  eexists. split; [vm_compute; reflexivity|]. reflexivity.
Qed.

(** C5, as the code has it.  For a sender off the whitelist whose two age
    conditions hold and whose entry is not of a system kind, the outcome
    is settled by what [re.search(r"%(.+?)%$", reason)] finds.  No match:
    the message is rejected and the block map left as it was.  A match
    that [datetime.fromisoformat] rejects: the evaluation raises
    [ValueError].  A match read as a datetime with a UTC offset: the
    subtraction of the naive evaluation time raises [TypeError].  A match
    read as a naive datetime: not after the evaluation time, the entry is
    removed and the message accepted; after it, the message is rejected
    and the block map left as it was.  An evaluation that raises leaves
    the block map as it was. *)
Theorem operator_block_expiry `{ext : Externals} (gw : Gateway)
    (message : Message) (s : Bot) (ta tg : Z) (r : string) :
  let key := str_id (message_author message) in
  let ends (outcome : Bot -> Outcome Bot bool) (block_map : gmap string string) :=
    exists s', _process_blocked gw message s = outcome s' /\
               blocked (config s') = block_map in
  key ∉ blocked_whitelist (config s) ->
  min_account_age message s = Some ta ->
  min_guild_age message s = Some tg ->
  ta <= clock s ->
  tg <= clock s ->
  blocked (config s) !! key = Some r ->
  startswith r new_account_kind = false ->
  startswith r recently_joined_kind = false ->
  match search_end_time r with
  | None => ends (Return true) (blocked (config s))
  | Some text =>
      match fromisoformat text with
      | None => ends (Raise ValueError) (blocked (config s))
      | Some expiry =>
          if offset_aware text
          then ends (Raise TypeError) (blocked (config s))
          else if expiry <=? clock s
          then ends (Return false) (delete key (blocked (config s)))
          else ends (Return true) (blocked (config s))
      end
  end.
Proof.
  intros key ends Hwl Ha Hg Hta Htg Hr Hk1 Hk2. subst ends. cbv beta.
  destruct (process_blocked_old_enough gw message s ta tg Hwl Ha Hg Hta Htg)
    as (sent & blocked_e & s2 & -> & Hb & _ & _).
  fold key. rewrite Hr. simpl.
  destruct_bot s2. simpl in *. subst b.
  assert (Hin : bool_decide (is_Some (blocked (config s) !! key)) = true)
    by (apply bool_decide_eq_true_2; rewrite Hr; eauto).
  assert (Hgone : bool_decide (is_Some (delete key (blocked (config s)) !! key)) = false).
  { apply bool_decide_eq_false_2. rewrite lookup_delete_eq. intros [? ?]; discriminate. }
  unfold existing_block. fold key. rewrite Hk1, Hk2. run. rewrite Hin. run.
  destruct (search_end_time r) as [text|].
  - destruct (fromisoformat text) as [t|]; [|run; eauto].
    destruct (offset_aware text); [run; eauto|].
    replace (t - clock s <=? 0) with (t <=? clock s)
      by (destruct (Z.leb_spec t (clock s)); symmetry;
          [apply Z.leb_le | apply Z.leb_gt]; lia).
    destruct (t <=? clock s); run.
    + destruct (not_disable sent); run; rewrite Hgone; eauto.
    + destruct (not_disable blocked_e); run; rewrite Hin; eauto.
  - run. destruct (not_disable blocked_e); run; rewrite Hin; eauto.
Qed.

Lemma operator_block_expiry_witness :
  let gw := sample_gateway [log_room] [] in
  let s := sample_bot (one_day_config {[ "7" := expired_reason ]}) [] y2030 in
  (str_id alice ∉ blocked_whitelist (config s)) /\
  min_account_age (ext := sample_externals) hello s = Some (y2020 + day) /\
  min_guild_age (ext := sample_externals) hello s = Some y2030 /\
  y2020 + day <= clock s /\
  y2030 <= clock s /\
  blocked (config s) !! str_id alice = Some expired_reason /\
  startswith expired_reason new_account_kind = false /\
  startswith expired_reason recently_joined_kind = false /\
  exists s',
    _process_blocked (ext := sample_externals) gw hello s = Return false s' /\
    blocked (config s') = delete (str_id alice) (blocked (config s)).
Proof.
  intros gw s.
  assert (Hwl : str_id (message_author hello) ∉ blocked_whitelist (config s))
    by apply not_elem_of_nil.
  assert (Ha : min_account_age (ext := sample_externals) hello s = Some (y2020 + day))
    by reflexivity.
  assert (Hg : min_guild_age (ext := sample_externals) hello s = Some y2030)
    by reflexivity.
  assert (Hta : y2020 + day <= clock s) by (vm_compute; discriminate).
  assert (Htg : y2030 <= clock s) by (vm_compute; discriminate).
  assert (Hr : blocked (config s) !! str_id (message_author hello) = Some expired_reason)
    by reflexivity.
  assert (Hk1 : startswith expired_reason new_account_kind = false) by reflexivity.
  assert (Hk2 : startswith expired_reason recently_joined_kind = false) by reflexivity.
  repeat (split; [assumption|]).
  exact (operator_block_expiry (ext := sample_externals) gw hello s _ _ _
           Hwl Ha Hg Hta Htg Hr Hk1 Hk2).
Defined.

(** The three other outcomes of an operator block, on the same sender:
    an expiry with a UTC offset, an expiry text that is no ISO datetime,
    and a percent sign earlier in the reason, which makes the match start
    there. *)
Example operator_block_expiry_raises :
  let gw := sample_gateway [log_room] [] in
  let ends reason e :=
    let s := sample_bot (one_day_config {[ "7" := reason ]}) [] y2030 in
    exists s', _process_blocked (ext := sample_externals) gw hello s = Raise e s' /\
               blocked (config s') = blocked (config s) in
  ends "spam %2020-01-01T00:00:00+00:00%" TypeError /\
  ends "spam %soon%" ValueError /\
  ends "50% off %2020-01-01T00:00:00%" ValueError.
Proof.
  repeat split; (eexists; split; [vm_compute; reflexivity | reflexivity]).
Qed.

(** C5 as stated fails in front of the earlier branches.  First input: the
    operator block has run out, but the account is younger than the
    threshold, so the message is rejected and the entry stays.  Second
    input: the sender holds a block without expiry and is on the
    whitelist, so the message is accepted and the entry removed. *)
Lemma operator_block_behind_earlier_branches :
  let gw := sample_gateway [log_room] [] in
  let s1 := sample_bot (one_day_config {[ "7" := expired_reason ]}) [] (y2020 + 5) in
  let s2 := sample_bot (with_blocked (fun _ => {[ "7" := "spam" ]}) whitelisted_config)
              [] y2030 in
  (blocked (config s1) !! str_id alice = Some expired_reason /\
   search_end_time expired_reason = Some "2020-01-01T00:00:00" /\
   fromisoformat (Externals := sample_externals) "2020-01-01T00:00:00" = Some y2020 /\
   offset_aware (Externals := sample_externals) "2020-01-01T00:00:00" = false /\
   y2020 <= clock s1 /\
   exists s',
     _process_blocked (ext := sample_externals) gw hello s1 = Return true s' /\
     blocked (config s') !! str_id alice = Some expired_reason) /\
  (blocked (config s2) !! str_id alice = Some "spam" /\
   search_end_time "spam" = None /\
   exists s',
     _process_blocked (ext := sample_externals) gw hello s2 = Return false s' /\
     blocked (config s') !! str_id alice = None).
Proof.
  intros gw s1 s2. split.
  - split; [reflexivity|]. split; [reflexivity|]. split; [reflexivity|].
    split; [reflexivity|]. split; [vm_compute; discriminate|].
    eexists. split; [vm_compute; reflexivity|]. reflexivity.
  - split; [reflexivity|]. split; [reflexivity|].
    eexists. split; [vm_compute; reflexivity|]. reflexivity.
Qed.

(** ** A malformed threshold *)

(** C6, what the code does.  A stored account-age threshold that is not a
    duration is discarded, the key being reset to absent; but the
    evaluation then adds the value [remove] returned to the creation date
    and ends in a [TypeError] instead of going on with the zero duration.
    Block map and threads are as before. *)
Theorem malformed_account_age_raises `{ext : Externals} (gw : Gateway)
    (message : Message) (s : Bot) (text : string) :
  str_id (message_author message) ∉ blocked_whitelist (config s) ->
  account_age (config s) = Some text ->
  parse_duration text = None ->
  exists s',
    _process_blocked gw message s = Raise TypeError s' /\
    account_age (config s') = None /\
    blocked (config s') = blocked (config s) /\
    threads s' = threads s /\
    trace s' = (trace s ++ [ConfigUpdate])%list.
Proof.
  intros Hwl Haa Hp.
  destruct (retrieve_emoji_returns s) as (sent & blocked_e & se' & be' & E).
  unfold _process_blocked. rewrite (bind_return _ _ _ _ _ E). clear E.
  destruct_bot s. simpl in *.
  unfold bind at 1. unfold read at 1. simpl.
  rewrite (bool_decide_eq_false_2 _ Hwl).
  match goal with
  | |- context [bind (age_limits message) _ ?s1] =>
      destruct (age_limits_malformed_account_age message s1 text Haa Hp) as (ga' & L)
  end.
  rewrite (bind_raise _ _ _ _ _ L). simpl.
  eexists. split; [reflexivity|]. simpl. auto.
Qed.

Lemma malformed_account_age_raises_witness :
  let gw := sample_gateway [log_room] [] in
  let s := sample_bot (with_account_age (Some "a week") sample_config) [] y2030 in
  (str_id alice ∉ blocked_whitelist (config s)) /\
  account_age (config s) = Some "a week" /\
  parse_duration (Externals := sample_externals) "a week" = None /\
  exists s',
    _process_blocked (ext := sample_externals) gw hello s = Raise TypeError s' /\
    account_age (config s') = None.
Proof.
  intros gw s.
  assert (Hwl : str_id (message_author hello) ∉ blocked_whitelist (config s))
    by apply not_elem_of_nil.
  assert (Haa : account_age (config s) = Some "a week") by reflexivity.
  assert (Hp : parse_duration (Externals := sample_externals) "a week" = None)
    by reflexivity.
  repeat (split; [assumption|]).
  destruct (malformed_account_age_raises (ext := sample_externals) gw hello s _ Hwl Haa Hp)
    as (s' & Hrun & Hnone & _).
  exists s'. split; [exact Hrun | exact Hnone].
Defined.

(** ** Evaluation never touches a thread *)

Lemma no_thread_activity_refl (s : Bot) : no_thread_activity s s.
Proof. split; [reflexivity|]. exists []. rewrite app_nil_r. auto. Qed.

Lemma no_thread_activity_trans (s1 s2 s3 : Bot) :
  no_thread_activity s1 s2 -> no_thread_activity s2 s3 -> no_thread_activity s1 s3.
Proof.
  intros (T1 & e1 & E1 & F1) (T2 & e2 & E2 & F2). split; [congruence|].
  exists (e1 ++ e2)%list. split.
  - rewrite E2, E1, app_assoc. reflexivity.
  - apply Forall_app. auto.
Qed.

(** Preservation of a reflexive and transitive relation that the
    configuration writes respect goes through the monad. *)
Section Keeps.

Variable R : Bot -> Bot -> Prop.
Hypothesis R_refl : forall s, R s s.
Hypothesis R_trans : forall s1 s2 s3, R s1 s2 -> R s2 s3 -> R s1 s3.
Hypothesis R_config : forall f s, R s (with_config f s).

Lemma keeps_ret {A} (a : A) : keeps R (ret a).
Proof. intros s. apply R_refl. Qed.

Lemma keeps_raise {A} (e : exn) : keeps R (@raise Bot A e).
Proof. intros s. apply R_refl. Qed.

Lemma keeps_read {A} (f : Config -> A) : keeps R (read f).
Proof. intros s. apply R_refl. Qed.

Lemma keeps_update_config (f : Config -> Config) : keeps R (update_config f).
Proof. intros s. apply R_config. Qed.

Lemma keeps_bind {A B} (m : M Bot A) (k : A -> M Bot B) :
  keeps R m -> (forall a, keeps R (k a)) -> keeps R (bind m k).
Proof.
  intros Hm Hk s. unfold bind. specialize (Hm s).
  destruct (m s) as [a s1|e s1]; simpl in *; [|exact Hm].
  eapply R_trans; [exact Hm | apply Hk].
Qed.

Lemma keeps_try_except {A} (m : M Bot A) (e : exn) (h : M Bot A) :
  keeps R m -> keeps R h -> keeps R (try_except m e h).
Proof.
  intros Hm Hh s. unfold try_except. specialize (Hm s).
  destruct (m s) as [a s1|e' s1]; simpl in *; [exact Hm|].
  destruct (decide (e' = e)); [|exact Hm].
  eapply R_trans; [exact Hm | apply Hh].
Qed.

Lemma keeps_if {A} (b : bool) (m1 m2 : M Bot A) :
  keeps R m1 -> keeps R m2 -> keeps R (if b then m1 else m2).
Proof. destruct b; auto. Qed.

End Keeps.

Lemma no_thread_activity_config (f : Config -> Config) (s : Bot) :
  no_thread_activity s (with_config f s).
Proof. split; [reflexivity|]. exists []. simpl. rewrite app_nil_r. auto. Qed.

Lemma thread_free_emit (e : Event) : is_thread_event e = false -> thread_free (emit e).
Proof. intros He s. simpl. split; [reflexivity|]. exists [e]. auto. Qed.

Lemma thread_free_utcnow `{ext : Externals} : thread_free utcnow.
Proof. intros s. simpl. split; [reflexivity|]. exists []. rewrite app_nil_r. auto. Qed.

Ltac thread_free_tac :=
  intros; unfold thread_free;
  repeat first
    [ apply (keeps_ret _ no_thread_activity_refl)
    | apply (keeps_raise _ no_thread_activity_refl)
    | apply (keeps_read _ no_thread_activity_refl)
    | apply (keeps_update_config _ no_thread_activity_config)
    | apply thread_free_utcnow
    | apply thread_free_emit; reflexivity
    | apply (keeps_bind _ no_thread_activity_trans); [|intros]
    | apply (keeps_try_except _ no_thread_activity_trans)
    | apply keeps_if
    | match goal with
      | |- keeps _ (match ?x with _ => _ end) => destruct x
      end
    | progress cbv zeta ].

Lemma thread_free_retrieve_emoji `{ext : Externals} : thread_free retrieve_emoji.
Proof.
  unfold retrieve_emoji, convert_emoji, remove_sent_emoji, remove_blocked_emoji,
    config_update.
  thread_free_tac.
Qed.

Lemma thread_free_age_limits `{ext : Externals} (message : Message) :
  thread_free (age_limits message).
Proof.
  unfold age_limits, load_age, add_age, remove_account_age, remove_guild_age.
  thread_free_tac.
Qed.

Lemma thread_free_apply_policy `{ext : Externals} (gw : Gateway) (message : Message)
    sent blocked_e now reason ta tg :
  thread_free (apply_policy gw message sent blocked_e now reason ta tg).
Proof.
  unfold apply_policy, age_not_met, existing_block, human_timedelta,
    send_wait_notice, config_update, add_reaction.
  thread_free_tac.
Qed.

Lemma thread_free_process_blocked `{ext : Externals} (gw : Gateway) (message : Message) :
  thread_free (_process_blocked gw message).
Proof.
  unfold _process_blocked.
  apply (keeps_bind _ no_thread_activity_trans); [apply thread_free_retrieve_emoji|].
  intros [sent blocked_e].
  apply (keeps_bind _ no_thread_activity_trans); [thread_free_tac|]. intros wl.
  apply keeps_if.
  - unfold whitelisted_sender, config_update, add_reaction. thread_free_tac.
  - apply (keeps_bind _ no_thread_activity_trans); [apply thread_free_age_limits|].
    intros [[[now reason] ta] tg]. apply thread_free_apply_policy.
Qed.

(** What [_process_blocked] returns is whether the sender is in the block
    map it leaves behind. *)
Lemma process_blocked_value `{ext : Externals} (gw : Gateway) (message : Message)
    (s s' : Bot) (b : bool) :
  _process_blocked gw message s = Return b s' ->
  b = bool_decide (is_Some (blocked (config s') !! str_id (message_author message))).
Proof.
  destruct (decide (str_id (message_author message) ∈ blocked_whitelist (config s)))
    as [Hwl|Hwl].
  - destruct (process_blocked_whitelisted gw message s Hwl)
      as (s1 & sent & -> & _ & Hgone & _).
    intros [= <- <-]. rewrite Hgone. symmetry. apply bool_decide_eq_false_2.
    intros [? ?]; discriminate.
  - destruct (retrieve_emoji_returns s) as (sent & blocked_e & se' & be' & E).
    unfold _process_blocked. rewrite (bind_return _ _ _ _ _ E). clear E.
    destruct_bot s. simpl in *.
    unfold bind at 1. unfold read at 1. simpl.
    rewrite (bool_decide_eq_false_2 _ Hwl).
    unfold bind at 1.
    destruct (age_limits message _) as [[[[now reason] ta] tg] s2|e s2]; [|discriminate].
    unfold apply_policy.
    unfold bind at 1.
    match goal with |- context [match ?m with _ => _ end] => destruct m as [reaction s3|e s3] end;
      [|discriminate].
    unfold bind at 1.
    destruct (config_update s3) as [[] s4|e s4]; [|discriminate].
    unfold bind at 1.
    match goal with |- context [match ?m with _ => _ end] => destruct m as [[] s5|e s5] end;
      [|discriminate].
    unfold read. intros [= <- <-]. reflexivity.
Qed.

(** ** [process_modmail] *)

Lemma find_app_none {A} (f : A -> bool) (l : list A) (x : A) :
  List.find f l = None -> f x = true -> List.find f (l ++ [x]) = Some x.
Proof.
  induction l as [|y l IH]; simpl; intros Hn Hx.
  - now rewrite Hx.
  - destruct (f y); [discriminate | auto].
Qed.

(** C1.  [process_modmail] evaluates the block policy first: the
    evaluation touches no thread, and everything [process_modmail] does
    beyond it comes after it in the trace.  A thread is looked up or
    created, and the message relayed into it, exactly when the evaluation
    returned "not blocked"; when the evaluation rejects or raises, and
    whenever the sender is in the block map at the end, no thread event
    occurs and the registry is as it was. *)
Theorem process_modmail_gated `{ext : Externals} (gw : Gateway)
    (message : Message) (s : Bot) :
  let author := message_author message in
  let evaluated := _process_blocked gw message s in
  let final := state_of (process_modmail gw message s) in
  no_thread_activity s (state_of evaluated) /\
  exists thread_events,
    trace final = (trace (state_of evaluated) ++ thread_events)%list /\
    (value_of evaluated = Some false ->
       thread_events =
         (match List.find (is_recipient (user_id author)) (threads s) with
          | Some _ => []
          | None => [ThreadCreate (user_id author)
                       (channel_id (create_channel gw author))]
          end ++ [ThreadSend (user_id author) (message_id message)])%list /\
       is_Some (List.find (is_recipient (user_id author)) (threads final))) /\
    (value_of evaluated <> Some false ->
       thread_events = [] /\ threads final = threads s) /\
    (is_Some (blocked (config final) !! str_id author) ->
       thread_events = [] /\ threads final = threads s).
Proof.
  intros author evaluated final.
  pose proof (thread_free_process_blocked gw message s) as Hfree.
  fold evaluated in Hfree. split; [exact Hfree|].
  destruct Hfree as (Hthreads & _).
  subst final. unfold process_modmail, bind. fold evaluated.
  pose proof (process_blocked_value gw message s) as Hval. fold evaluated in Hval.
  destruct evaluated as [[|] s1|e s1]; simpl in *.
  - exists []. rewrite app_nil_r. repeat split; auto; discriminate.
  - specialize (Hval s1 false eq_refl).
    symmetry in Hval. apply bool_decide_eq_false in Hval.
    unfold find_or_create, find_by_recipient, bind. rewrite Hthreads.
    fold author.
    destruct (List.find (is_recipient (user_id author)) (threads s)) as [t|] eqn:Hfind;
      unfold thread_send; run.
    + exists [ThreadSend (user_id (thread_recipient t)) (message_id message)].
      assert (Hid : user_id (thread_recipient t) = user_id author).
      { apply find_some in Hfind as [_ Hid]. unfold is_recipient in Hid.
        apply Z.eqb_eq in Hid. exact Hid. }
      rewrite Hid. split; [reflexivity|]. split; [|split].
      * intros _. split; [reflexivity|]. rewrite Hthreads, Hfind. eauto.
      * intros Hne. congruence.
      * destruct s1 as [c1 ? ? ?]. destruct c1. simpl in *. intros Hin. contradiction.
    + exists [ThreadCreate (user_id author) (channel_id (create_channel gw author));
              ThreadSend (user_id author) (message_id message)].
      split; [rewrite <- app_assoc; reflexivity|]. split; [|split].
      * intros _. split; [reflexivity|]. rewrite Hthreads.
        rewrite (find_app_none _ _ _ Hfind); [eauto|].
        unfold is_recipient. simpl. apply Z.eqb_refl.
      * intros Hne. congruence.
      * destruct s1 as [c1 ? ? ?]. destruct c1. simpl in *. intros Hin. contradiction.
  - exists []. rewrite app_nil_r. repeat split; auto; discriminate.
Qed.

Lemma process_modmail_gated_witness :
  let gw := sample_gateway [log_room] [] in
  let young := sample_bot (one_day_config ∅) [] (y2020 + 5) in
  let old := sample_bot (one_day_config ∅) [] y2030 in
  (new_events young
     (state_of (process_modmail (ext := sample_externals) gw hello young)) =
     [ConfigUpdate; wait_notice gw hello "1 day"; ConfigUpdate;
      AddReaction 100 (Plain "N")] /\
   threads (state_of (process_modmail (ext := sample_externals) gw hello young)) = []) /\
  (new_events old
     (state_of (process_modmail (ext := sample_externals) gw hello old)) =
     [ConfigUpdate; ConfigUpdate; AddReaction 100 (Plain "Y");
      ThreadCreate 7 31; ThreadSend 7 100]).
Proof.
  intros gw young old. split.
  - destruct (process_modmail_gated (ext := sample_externals) gw hello young)
      as (_ & evs & Htrace & _ & Hrej & _).
    destruct Hrej as [Hevs Hthreads]; [vm_compute; discriminate|].
    split; [|exact Hthreads].
    unfold new_events. rewrite Htrace, Hevs. reflexivity.
  - destruct (process_modmail_gated (ext := sample_externals) gw hello old)
      as (_ & evs & Htrace & Hacc & _).
    destruct Hacc as [Hevs _]; [reflexivity|].
    unfold new_events. rewrite Htrace, Hevs. reflexivity.
Defined.

(** ** Messages written by bots *)

(** C10.  A message whose author is a bot account ends [on_message] at
    once: the policy is not evaluated, no thread is created or fed, no
    command is dispatched.  Configuration (block map included), registry
    and clock are unchanged, and the only call that can have been made is
    the deletion of the bot's own pin notice. *)
Theorem bot_messages_ignored `{ext : Externals} (gw : Gateway)
    (message : Message) (s : Bot) :
  user_bot (message_author message) = true ->
  exists s',
    on_message gw message s = Return tt s' /\
    config s' = config s /\
    threads s' = threads s /\
    clock s' = clock s /\
    trace s' =
      (trace s ++
       (if bool_decide (message_type message = pins_add)
           && (user_id (message_author message) =? user_id (bot_user gw))
        then [MessageDelete (message_id message)] else []))%list.
Proof.
  intros Hbot. unfold on_message. rewrite Hbot.
  destruct (bool_decide (message_type message = pins_add)
            && (user_id (message_author message) =? user_id (bot_user gw)));
    run; eexists; repeat split.
  simpl. rewrite app_nil_r. reflexivity.
Qed.

Lemma bot_messages_ignored_witness :
  let gw := sample_gateway [log_room; alice_room] [] in
  let s := sample_bot sample_config [alice_thread] y2030 in
  user_bot (message_author pin_notice) = true /\
  exists s',
    on_message (ext := sample_externals) gw pin_notice s = Return tt s' /\
    config s' = config s /\
    threads s' = threads s /\
    trace s' = [MessageDelete 103].
Proof.
  intros gw s. split; [reflexivity|].
  destruct (bot_messages_ignored (ext := sample_externals) gw pin_notice s eq_refl)
    as (s' & Hrun & Hc & Ht & _ & Htr).
  exists s'. repeat split; assumption.
Defined.

(** ** Reactions *)

Lemma convert_emoji_converted `{ext : Externals} (name : string) (s : Bot) :
  convert_emoji name s =
    match converted name with
    | Some e => Return e s
    | None => Raise BadArgument s
    end.
Proof.
  unfold convert_emoji, converted.
  destruct (unicode_emoji name); [reflexivity|].
  destruct (emoji_converter (strip_colon name)); reflexivity.
Qed.

(** C8.  The recipient of a thread (not a bot account) reacts, in the
    private channel, with the configured close emoji on a message that
    exists.  Then the thread is closed at once with the recipient as
    closer ([thread.close(closer=user)], delay zero, thread evicted)
    exactly when the timestamp of the first embed of the reacted message
    equals the creation time of the thread's channel and the
    recipient-thread-close switch is on; otherwise nothing is closed. *)
Theorem reaction_close_iff_creation_notice `{ext : Externals} (gw : Gateway)
    (payload : Payload) (s : Bot) (user : User) (thread : Thread)
    (message : Message) (close_e : emoji) :
  let channel := reaction_channel gw payload thread in
  let closes :=
    bool_decide (first_embed_timestamp message =
                 Some (channel_created_at (thread_channel thread)))
    && recipient_thread_close_enabled (config s) in
  get_user gw (payload_user_id payload) = Some user ->
  user_bot user = false ->
  List.find (is_recipient (user_id user)) (threads s) = Some thread ->
  channel_kind channel = DMChannel ->
  fetch_message gw channel (payload_message_id payload) = Some message ->
  converted (close_emoji (config s)) = Some close_e ->
  payload_emoji payload = str_emoji close_e ->
  exists s',
    on_raw_reaction_add gw payload s = Return tt s' /\
    new_events s s' =
      (if closes
       then [ThreadClose (user_id user) (close_defaults (Some user))]
       else []) /\
    threads s' =
      (if closes
       then List.filter (fun t => negb (is_recipient (user_id user) t)) (threads s)
       else threads s).
Proof.
  intros channel closes Huser Hbot Hthread Hkind Hfetch Hconv Hemoji.
  assert (Hid : user_id (thread_recipient thread) = user_id user).
  { apply find_some in Hthread as [_ Hid]. apply Z.eqb_eq in Hid. exact Hid. }
  unfold on_raw_reaction_add. rewrite Huser, Hbot.
  assert (Hres :
    (match get_channel gw (payload_channel_id payload) with
     | Some c => ret (Some c)
     | None =>
         _thread <- find_by_recipient (user_id user) ;;
         match _thread with
         | None => ret None
         | Some t => ret (Some (create_dm gw (thread_recipient t)))
         end
     end) s = Return (Some channel) s).
  { subst channel. unfold reaction_channel.
    destruct (get_channel gw (payload_channel_id payload)); [reflexivity|].
    unfold find_by_recipient, bind. rewrite Hthread. reflexivity. }
  rewrite (bind_return _ _ _ _ _ Hres). rewrite Hfetch.
  unfold bind at 1. unfold read at 1.
  unfold bind at 1. rewrite convert_emoji_converted, Hconv.
  rewrite (bool_decide_eq_true_2 _ Hkind).
  unfold private_reaction. rewrite Hemoji, String.eqb_refl.
  unfold find_by_recipient, bind at 1. rewrite Hthread.
  subst closes.
  destruct (bool_decide (first_embed_timestamp message =
                         Some (channel_created_at (thread_channel thread)))); simpl.
  - unfold read_recipient_thread_close, recipient_thread_close_enabled,
      remove_recipient_thread_close.
    destruct_bot s. run.
    destruct (strtobool rtc) as [[|]|]; run;
      [ | | destruct (truthy default_recipient_thread_close); run ];
      unfold thread_close; rewrite ?Hid; run;
      (eexists; split; [reflexivity|]; split;
       [apply new_events_app; simpl; rewrite ?app_nil_r; reflexivity | reflexivity]).
  - eexists. split; [reflexivity|]. split; [|reflexivity].
    apply new_events_app. rewrite app_nil_r. reflexivity.
Qed.

(** ** A deleted relay channel *)

Lemma config_only_refl (s : Bot) : config_only s s.
Proof. repeat split. Qed.

Lemma config_only_trans (s1 s2 s3 : Bot) :
  config_only s1 s2 -> config_only s2 s3 -> config_only s1 s3.
Proof. unfold config_only. intros (? & ? & ?) (? & ? & ?). repeat split; congruence. Qed.

Lemma config_only_config (f : Config -> Config) (s : Bot) :
  config_only s (with_config f s).
Proof. repeat split. Qed.

Ltac config_only_tac :=
  intros;
  repeat first
    [ assumption
    | apply (keeps_ret _ config_only_refl)
    | apply (keeps_raise _ config_only_refl)
    | apply (keeps_read _ config_only_refl)
    | apply (keeps_update_config _ config_only_config)
    | apply (keeps_bind _ config_only_trans); [|intros]
    | apply keeps_if
    | match goal with
      | |- keeps _ (match ?x with _ => _ end) => destruct x
      end
    | progress cbv zeta ].

Lemma config_only_modmail_guild `{ext : Externals} (gw : Gateway) :
  keeps config_only (modmail_guild gw).
Proof. unfold modmail_guild, guild, remove_modmail_guild_id. config_only_tac. Qed.

Lemma config_only_main_category `{ext : Externals} (gw : Gateway) :
  keeps config_only (main_category gw).
Proof.
  unfold main_category, modmail_guild_categories, remove_main_category_id.
  pose proof (config_only_modmail_guild gw).
  config_only_tac.
Qed.

Lemma config_only_log_channel_guard `{ext : Externals} (gw : Gateway) (channel : Channel) :
  keeps config_only (log_channel_missing_or_is gw channel).
Proof.
  unfold log_channel_missing_or_is, log_channel, remove_log_channel_id.
  pose proof (config_only_main_category gw).
  config_only_tac.
Qed.

Lemma modmail_guild_run (gw : Gateway) (s : Bot) :
  modmail_guild gw s =
    Return (operating_guild gw (config s))
      {| config := settled_guild_config gw (config s);
         threads := threads s; trace := trace s; clock := clock s |}.
Proof.
  destruct_bot s.
  unfold modmail_guild, guild, remove_modmail_guild_id, bind, ret, read,
    update_config, modify, with_config, operating_guild, settled_guild_config.
  cbn -[get_guild]. destruct mgi as [i|]; [|reflexivity].
  cbn -[get_guild]. destruct (get_guild gw (Some i)); reflexivity.
Qed.

Lemma settled_guild_config_stable (gw : Gateway) (c : Config) :
  operating_guild gw (settled_guild_config gw c) = operating_guild gw c /\
  settled_guild_config gw (settled_guild_config gw c) = settled_guild_config gw c.
Proof.
  destruct c as [b wl aa ga se be ce rtc rwc cl gi mgi mci lci px sn al].
  unfold operating_guild, settled_guild_config. cbn -[get_guild].
  destruct mgi as [i|]; [|split; reflexivity].
  destruct (get_guild gw (Some i)) eqn:Hg; cbn -[get_guild]; rewrite ?Hg;
    split; reflexivity.
Qed.

(** Asked again, [modmail_guild] gives the same guild and writes
    nothing. *)
Lemma modmail_guild_again (gw : Gateway) (s s0 : Bot) (g : option Guild) :
  modmail_guild gw s = Return g s0 -> modmail_guild gw s0 = Return g s0.
Proof.
  rewrite !modmail_guild_run. intros [= <- <-].
  cbn -[get_guild settled_guild_config operating_guild].
  destruct (settled_guild_config_stable gw (config s)) as [-> ->]. reflexivity.
Qed.

(** C9, as the code has it.  A text channel of the operating guild [g]
    (the guild [modmail_guild] gives, a stale [modmail_guild_id] being
    dropped on the way) that backs a thread is deleted, and the audit log
    names the deleter.  If the deleter is the bot itself nothing more
    happens: no event, no close.  Otherwise, when a log channel resolves
    and is not the deleted channel, the thread is closed at once with the
    deleter as closer, silently and with [delete_channel=False], and
    leaves the registry; and when no log channel resolves, or the one
    that does is the deleted channel, the handler resets [log_channel_id]
    and flushes the configuration, and that is all: nothing is closed and
    the registry stays as it is. *)
Theorem channel_delete_closes_thread `{ext : Externals} (gw : Gateway)
    (channel : Channel) (s s0 : Bot) (g : Guild) (target : Z) (deleter : User)
    (thread : Thread) :
  modmail_guild gw s = Return (Some g) s0 ->
  channel_guild channel = Some (guild_ident g) ->
  channel_kind channel = TextChannel ->
  List.find (fun e => fst e =? channel_id channel) (audit_logs gw)
    = Some (target, deleter) ->
  List.find (fun t => channel_id (thread_channel t) =? channel_id channel) (threads s)
    = Some thread ->
  (user_id deleter = user_id (bot_user gw) ->
     on_guild_channel_delete gw channel s = Return tt s0) /\
  (user_id deleter <> user_id (bot_user gw) ->
   (forall s1, log_channel_missing_or_is gw channel s0 = Return false s1 ->
      exists s',
        on_guild_channel_delete gw channel s = Return tt s' /\
        new_events s s' =
          [ThreadClose (user_id (thread_recipient thread))
             {| close_closer := Some deleter; close_after := 0;
                close_silent := true; close_delete_channel := false;
                close_message := None; close_auto_close := false |}] /\
        threads s' =
          List.filter
            (fun t => negb (is_recipient (user_id (thread_recipient thread)) t))
            (threads s)) /\
   (forall s1,
      log_channel gw s0 = Return None s1 \/
      log_channel_missing_or_is gw channel s0 = Return true s1 ->
      exists s',
        on_guild_channel_delete gw channel s = Return tt s' /\
        config s' = with_log_channel_id None (config s1) /\
        new_events s s' = [ConfigUpdate] /\
        threads s' = threads s)).
Proof.
  intros Hguild Hin Hkind Haudit Hthread.
  pose proof (config_only_modmail_guild gw s) as Hsettled.
  rewrite Hguild in Hsettled. destruct Hsettled as (Hts0 & Htr0 & _). simpl in *.
  unfold on_guild_channel_delete.
  rewrite (bind_return _ _ _ _ _ Hguild).
  rewrite Hin. simpl. rewrite (bool_decide_eq_true_2 _ eq_refl). simpl.
  rewrite (bind_return _ _ _ _ _ (modmail_guild_again gw s s0 _ Hguild)).
  rewrite Haudit. simpl.
  split.
  - intros Hself. rewrite Hself, Z.eqb_refl. reflexivity.
  - intros Hother.
    replace (user_id deleter =? user_id (bot_user gw)) with false
      by (symmetry; apply Z.eqb_neq; exact Hother).
    rewrite Hkind. simpl. split.
    + intros s1 Hguard.
      rewrite (bind_return _ _ _ _ _ Hguard).
      pose proof (config_only_log_channel_guard gw channel s0) as Hsame.
      rewrite Hguard in Hsame. destruct Hsame as (Hts & Htr & Hck). simpl in *.
      unfold find_by_channel, bind at 1. rewrite Hts, Hts0, Hthread.
      unfold thread_close. run.
      eexists. split; [reflexivity|]. split.
      * apply new_events_app. simpl. rewrite Htr, Htr0. reflexivity.
      * simpl. rewrite Hts, Hts0. reflexivity.
    + intros s1 Hnone.
      assert (Hguard : log_channel_missing_or_is gw channel s0 = Return true s1).
      { destruct Hnone as [Hnone|Hguard]; [|exact Hguard].
        unfold log_channel_missing_or_is. rewrite (bind_return _ _ _ _ _ Hnone).
        reflexivity. }
      rewrite (bind_return _ _ _ _ _ Hguard).
      pose proof (config_only_log_channel_guard gw channel s0) as Hsame.
      rewrite Hguard in Hsame. destruct Hsame as (Hts & Htr & Hck). simpl in *.
      unfold remove_log_channel_id. run.
      eexists. split; [reflexivity|]. simpl. split; [reflexivity|]. split.
      * apply new_events_app. simpl. rewrite Htr, Htr0. reflexivity.
      * rewrite Hts, Hts0. reflexivity.
Qed.

Lemma reaction_close_iff_creation_notice_witness :
  let gw := sample_gateway [log_room; alice_room] [] in
  let s := sample_bot sample_config [alice_thread] (y2030 + day) in
  (get_user gw 7 = Some alice /\
   user_bot alice = false /\
   List.find (is_recipient 7) (threads s) = Some alice_thread /\
   channel_kind (reaction_channel gw (lock_reaction 101) alice_thread) = DMChannel /\
   converted (ext := sample_externals) (close_emoji (config s)) = Some (Plain "L")) /\
  (fetch_message gw alice_dm 101 = Some creation_notice /\
   exists s',
     on_raw_reaction_add (ext := sample_externals) gw (lock_reaction 101) s
       = Return tt s' /\
     new_events s s' = [ThreadClose 7 (close_defaults (Some alice))] /\
     threads s' = []) /\
  (fetch_message gw alice_dm 102 = Some older_notice /\
   exists s',
     on_raw_reaction_add (ext := sample_externals) gw (lock_reaction 102) s
       = Return tt s' /\
     new_events s s' = [] /\
     threads s' = [alice_thread]).
Proof.
  intros gw s.
  split; [repeat split|]. split.
  - split; [reflexivity|].
    exact (reaction_close_iff_creation_notice (ext := sample_externals) gw
             (lock_reaction 101) s alice alice_thread creation_notice (Plain "L")
             eq_refl eq_refl eq_refl eq_refl eq_refl eq_refl eq_refl).
  - split; [reflexivity|].
    exact (reaction_close_iff_creation_notice (ext := sample_externals) gw
             (lock_reaction 102) s alice alice_thread older_notice (Plain "L")
             eq_refl eq_refl eq_refl eq_refl eq_refl eq_refl eq_refl).
Defined.

Lemma channel_delete_closes_thread_witness :
  let gw := sample_gateway [log_room] [(31, moderator)] in
  let s := sample_bot (with_modmail_guild_id (Some 99) sample_config) [alice_thread]
             y2030 in
  let s0 := sample_bot sample_config [alice_thread] y2030 in
  modmail_guild gw s = Return (Some (sample_guild [log_room])) s0 /\
  channel_guild alice_room = Some 10 /\
  channel_kind alice_room = TextChannel /\
  List.find (fun e => fst e =? 31) (audit_logs gw) = Some (31, moderator) /\
  List.find (fun t => channel_id (thread_channel t) =? 31) (threads s)
    = Some alice_thread /\
  user_id moderator <> user_id (bot_user gw) /\
  log_channel_missing_or_is gw alice_room s0 = Return false s0 /\
  exists s',
    on_guild_channel_delete (ext := sample_externals) gw alice_room s = Return tt s' /\
    new_events s s' = [ThreadClose 7 deleted_by_moderator] /\
    threads s' = [].
Proof.
  intros gw s s0.
  assert (Hne : user_id moderator <> user_id (bot_user gw)) by discriminate.
  repeat (split; [first [reflexivity | exact Hne]|]).
  destruct (channel_delete_closes_thread (ext := sample_externals) gw alice_room s s0
              (sample_guild [log_room]) 31 moderator alice_thread
              eq_refl eq_refl eq_refl eq_refl eq_refl) as [_ Hclose].
  exact (proj1 (Hclose Hne) s0 eq_refl).
Defined.

(** The same deletion when the log channel itself is the deleted
    channel: the handler resets [log_channel_id] and stops there. *)
Example channel_delete_of_log_channel :
  let gw := sample_gateway [log_room] [(30, moderator)] in
  let s := sample_bot sample_config [alice_thread] y2030 in
  exists s',
    on_guild_channel_delete (ext := sample_externals) gw log_room s = Return tt s' /\
    log_channel_id (config s') = None /\
    new_events s s' = [ConfigUpdate] /\
    threads s' = [alice_thread].
Proof. eexists. split; [vm_compute; reflexivity|]. repeat split. Qed.

(** C9 as stated fails without a log channel: the moderator deletes the
    relay channel of Alice's thread while no log channel is configured and
    the main category holds no other channel; the handler resets
    [log_channel_id], flushes, and returns; the thread is not closed. *)
Lemma channel_delete_without_log_channel :
  let gw := sample_gateway [] [(31, moderator)] in
  let s := sample_bot (with_log_channel_id None sample_config) [alice_thread] y2030 in
  channel_guild alice_room = guild_ident <$> Some (sample_guild []) /\
  channel_kind alice_room = TextChannel /\
  List.find (fun e => fst e =? 31) (audit_logs gw) = Some (31, moderator) /\
  user_id moderator <> user_id (bot_user gw) /\
  List.find (fun t => channel_id (thread_channel t) =? 31) (threads s)
    = Some alice_thread /\
  exists s',
    on_guild_channel_delete (ext := sample_externals) gw alice_room s = Return tt s' /\
    new_events s s' = [ConfigUpdate] /\
    threads s' = [alice_thread].
Proof.
  intros gw s.
  repeat (split; [first [reflexivity | discriminate]|]).
  eexists. split; [vm_compute; reflexivity|]. split; reflexivity.
Qed.

(** ** Pending closures at startup *)


Lemma dict_has_remove_ne {A} (k k' : string) (d : list (string * A)) :
  k' <> k -> dict_has k' (dict_remove k d) = dict_has k' d.
Proof.
  intros Hne. unfold dict_has, dict_remove.
  induction d as [|[k0 v] d IH]; simpl; [reflexivity|].
  destruct (String.eqb k0 k) eqn:E; simpl.
  - apply String.eqb_eq in E. subst k0.
    replace (String.eqb k k') with false
      by (symmetry; apply String.eqb_neq; congruence).
    exact IH.
  - rewrite IH. reflexivity.
Qed.





(** One turn of the loop, by cases. *)











(** The whole startup on that input: Alice's thread is closed with delay
    zero, Bob's closure is armed again for the time left at its turn, and
    the record of recipient 9 is dropped. *)
Example on_ready_restarted :
  let s' := state_of (on_ready (ext := sample_externals) startup_gateway restarted_bot) in
  trace s' =
    [ThreadClose 7
       {| close_closer := Some moderator; close_after := 0;
          close_silent := false; close_delete_channel := true;
          close_message := None; close_auto_close := false |};
     ThreadClose 8
       {| close_closer := Some moderator;
          close_after := y2030 - (y2020 + 600000001);
          close_silent := false; close_delete_channel := true;
          close_message := None; close_auto_close := false |};
     ConfigUpdate] /\
  threads s' = [bob_thread] /\
  fst <$> closures (config s') = ["8"].
Proof. vm_compute. repeat split. Qed.

(** ** Further runs of the evaluation *)

(** A block without expiry stays, and the message is rejected. *)
Example permanent_block_rejected :
  let s := sample_bot (one_day_config {[ "7" := "spam" ]}) [] y2030 in
  exists s',
    _process_blocked (ext := sample_externals) (sample_gateway [log_room] []) hello s
      = Return true s' /\
    blocked (config s') = blocked (config s).
Proof. eexists. split; [vm_compute; reflexivity|]. reflexivity. Qed.

(** A stored new-account entry is notified again while the account is
    still too young. *)
Example new_account_notified_again :
  let gw := sample_gateway [log_room] [] in
  let s := sample_bot (one_day_config {[ "7" := new_account_reason ]}) [] (y2020 + 5) in
  exists s',
    _process_blocked (ext := sample_externals) gw hello s = Return true s' /\
    List.filter is_wait_notice (new_events s s') = [wait_notice gw hello "1 day"].
Proof. eexists. split; [vm_compute; reflexivity|]. reflexivity. Qed.

(** A malformed membership-age threshold: for an author without
    [joined_at] it is removed and the message accepted; for a member the
    addition raises as it does for the account age. *)
Example malformed_guild_age :
  let gw := sample_gateway [log_room] [] in
  let s := sample_bot (with_guild_age (Some "a week") sample_config) [] y2030 in
  (exists s',
     _process_blocked (ext := sample_externals) gw hello s = Return false s' /\
     guild_age (config s') = None) /\
  (exists s',
     _process_blocked (ext := sample_externals) gw hello_member s = Raise TypeError s' /\
     guild_age (config s') = None).
Proof.
  split; (eexists; split; [vm_compute; reflexivity|]; reflexivity).
Qed.

(** * Further properties of the code *)

(** ** [uptime] *)

(** X1.  The parts [uptime] shows recompose to the whole seconds it was
    given, hours stay below 24 and minutes and seconds below 60, whatever
    the sign of the total.  The day count is zero exactly for a total of
    at least zero and less than 86400 seconds, and the text [uptime]
    returns leaves the days out in exactly that case: for any other
    total, a negative one included, it starts with the day count. *)
Theorem uptime_parts_recompose (total : Z) :
  let '(d, h, m, s) := uptime_parts total in
  total = d * 86400 + h * 3600 + m * 60 + s /\
  0 <= h < 24 /\ 0 <= m < 60 /\ 0 <= s < 60 /\
  (d = 0 <-> 0 <= total < 86400) /\
  let hms := pretty h +:+ "h " +:+ pretty m +:+ "m " +:+ pretty s +:+ "s" in
  uptime_text total =
    if bool_decide (0 <= total < 86400) then hms else pretty d +:+ "d " +:+ hms.
Proof.
  unfold uptime_text, uptime_parts.
  pose proof (Z.div_mod total 3600 ltac:(lia)) as H1.
  pose proof (Z.mod_pos_bound total 3600 ltac:(lia)) as B1.
  pose proof (Z.div_mod (total mod 3600) 60 ltac:(lia)) as H2.
  pose proof (Z.mod_pos_bound (total mod 3600) 60 ltac:(lia)) as B2.
  pose proof (Z.div_mod (total / 3600) 24 ltac:(lia)) as H3.
  pose proof (Z.mod_pos_bound (total / 3600) 24 ltac:(lia)) as B3.
  assert (0 <= total mod 3600 / 60 < 60).
  { split; [apply Z.div_pos; lia|]. apply Z.div_lt_upper_bound; lia. }
  assert (Hday : total / 3600 / 24 = 0 <-> 0 <= total < 86400) by lia.
  split; [lia|]. split; [lia|]. split; [lia|]. split; [lia|]. split; [exact Hday|].
  destruct (total / 3600 / 24 =? 0) eqn:Hd.
  - apply Z.eqb_eq in Hd. rewrite bool_decide_eq_true_2 by (apply Hday; exact Hd).
    reflexivity.
  - apply Z.eqb_neq in Hd.
    rewrite bool_decide_eq_false_2 by (intros Hin; apply Hd, Hday; exact Hin).
    reflexivity.
Qed.

(** The text for one day, one hour, one minute and one second, and for
    the same without the day. *)
Example uptime_text_with_days : uptime_text 90061 = "1d 1h 1m 1s".
Proof. reflexivity. Qed.

Example uptime_text_without_days : uptime_text 3661 = "1h 1m 1s".
Proof. reflexivity. Qed.

(** ** [update_perms] *)

Lemma count_occ_remove_first_eq (x : Z) (l : list Z) :
  count_occ Z.eq_dec (remove_first x l) x = Nat.pred (count_occ Z.eq_dec l x).
Proof.
  induction l as [|y l IH]; simpl; [reflexivity|].
  case_bool_decide as Hy.
  - subst y. destruct (Z.eq_dec x x); [reflexivity | congruence].
  - simpl. destruct (Z.eq_dec y x); [congruence | exact IH].
Qed.

Lemma count_occ_remove_first_ne (x y : Z) (l : list Z) :
  y <> x ->
  count_occ Z.eq_dec (remove_first x l) y = count_occ Z.eq_dec l y.
Proof.
  intros Hne. induction l as [|z l IH]; simpl; [reflexivity|].
  case_bool_decide as Hz.
  - subst z. destruct (Z.eq_dec x y); [congruence | reflexivity].
  - simpl. destruct (Z.eq_dec z y); [f_equal|]; exact IH.
Qed.

Lemma count_occ_elem_of (x : Z) (l : list Z) :
  x ∈ l <-> (0 < count_occ Z.eq_dec l x)%nat.
Proof. rewrite list_elem_of_In. apply count_occ_In. Qed.

Lemma granted_insert (p : gmap string (list Z)) (n : string) (l : list Z) :
  granted (<[n := l]> p) n = l.
Proof. unfold granted. rewrite lookup_insert_eq. reflexivity. Qed.

(** X2.  Granting a value lists it exactly once if it was not listed and
    changes nothing if it was; revoking takes away one listing of it, if
    there is one.  No other value under the name is touched. *)
Theorem update_perms_counts (name : PermissionName) (value : Z) (add : bool)
    (p : Permissions) :
  let p' := state_of (update_perms name value add p) in
  let n := permission_key name in
  times_granted (permissions_for name p') n value =
    (if add then Nat.max 1 (times_granted (permissions_for name p) n value)
     else Nat.pred (times_granted (permissions_for name p) n value)) /\
  forall other, other <> value ->
    times_granted (permissions_for name p') n other
      = times_granted (permissions_for name p) n other.
Proof.
  assert (Hin : forall (perms : gmap string (list Z)) n,
    times_granted (update_perms_in perms n value add) n value =
      (if add then Nat.max 1 (times_granted perms n value)
       else Nat.pred (times_granted perms n value)) /\
    forall other, other <> value ->
      times_granted (update_perms_in perms n value add) n other
        = times_granted perms n other).
  { intros perms n. unfold update_perms_in, times_granted.
    destruct (perms !! n) as [values|] eqn:Hl.
    - assert (Hg : granted perms n = values) by (unfold granted; rewrite Hl; reflexivity).
      destruct add; case_bool_decide as Hv;
        rewrite ?granted_insert, ?Hg.
      + apply count_occ_elem_of in Hv. split; [lia | reflexivity].
      + split.
        * rewrite count_occ_app. simpl. destruct (Z.eq_dec value value); [|congruence].
          assert (count_occ Z.eq_dec values value = 0%nat)
            by (apply count_occ_not_In; rewrite <- list_elem_of_In; exact Hv).
          lia.
        * intros other Hne. rewrite count_occ_app. simpl.
          destruct (Z.eq_dec value other); [congruence | lia].
      + split; [apply count_occ_remove_first_eq|].
        intros other Hne. apply count_occ_remove_first_ne. exact Hne.
      + split; [|reflexivity].
        assert (count_occ Z.eq_dec values value = 0%nat)
          by (apply count_occ_not_In; rewrite <- list_elem_of_In; exact Hv).
        lia.
    - assert (Hg : granted perms n = []) by (unfold granted; rewrite Hl; reflexivity).
      destruct add; rewrite ?granted_insert, ?Hg; simpl.
      + split.
        * destruct (Z.eq_dec value value); [reflexivity | congruence].
        * intros other Hne. destruct (Z.eq_dec value other); [congruence | reflexivity].
      + split; reflexivity. }
  destruct name as [n|n]; simpl; apply Hin.
Qed.

Lemma remove_first_NoDup (x : Z) (l : list Z) : NoDup l -> NoDup (remove_first x l).
Proof.
  induction l as [|y l IH]; simpl; intros Hnd; [exact Hnd|].
  apply NoDup_cons in Hnd as [Hy Hnd].
  case_bool_decide; [exact Hnd|].
  apply NoDup_cons. split; [|apply IH; exact Hnd].
  intros Hin. apply Hy.
  clear -Hin. induction l as [|z l IH]; simpl in Hin; [inversion Hin|].
  case_bool_decide.
  - right. exact Hin.
  - apply elem_of_cons in Hin as [->|Hin]; [left | right; apply IH; exact Hin].
Qed.

Lemma remove_first_app_fresh (x : Z) (l : list Z) :
  x ∉ l -> remove_first x (l ++ [x]) = l.
Proof.
  induction l as [|y l IH]; simpl; intros Hx.
  - rewrite bool_decide_eq_true_2 by reflexivity. reflexivity.
  - apply not_elem_of_cons in Hx as [Hne Hx].
    rewrite bool_decide_eq_false_2 by congruence.
    f_equal. apply IH. exact Hx.
Qed.

(** X3.  [update_perms] keeps the lists free of duplicates: if no value
    is listed twice under any name of the dict it works on, none is
    afterwards. *)
Theorem update_perms_no_duplicates (name : PermissionName) (value : Z) (add : bool)
    (p : Permissions) :
  (forall n, NoDup (granted (permissions_for name p) n)) ->
  forall n, NoDup (granted (permissions_for name (state_of (update_perms name value add p))) n).
Proof.
  assert (Hin : forall (perms : gmap string (list Z)) k,
    (forall n, NoDup (granted perms n)) ->
    forall n, NoDup (granted (update_perms_in perms k value add) n)).
  { intros perms k Hnd n. unfold update_perms_in.
    destruct (perms !! k) as [values|] eqn:Hl.
    - assert (Hv : NoDup values).
      { specialize (Hnd k). unfold granted in Hnd. rewrite Hl in Hnd. exact Hnd. }
      destruct add; case_bool_decide as Hin; try apply Hnd;
        unfold granted; (destruct (decide (k = n)) as [->|Hne];
          [rewrite lookup_insert_eq | rewrite lookup_insert_ne by exact Hne; apply Hnd]);
        simpl.
      + apply NoDup_app. split; [exact Hv|]. split.
        * intros x Hx Hx'. apply list_elem_of_singleton in Hx'. subst x. contradiction.
        * apply NoDup_singleton.
      + apply remove_first_NoDup. exact Hv.
    - destruct add; [|apply Hnd].
      unfold granted. destruct (decide (k = n)) as [->|Hne].
      + rewrite lookup_insert_eq. simpl. apply NoDup_singleton.
      + rewrite lookup_insert_ne by exact Hne. apply Hnd. }
  intros Hnd n. destruct name as [k|k]; simpl in *; apply Hin; exact Hnd.
Qed.

(** X4.  [update_perms] works on one key of one dict: the other dict and
    every other key are as before, it flushes the configuration once, no
    key ever disappears (revoking the last value leaves an empty list),
    and revoking under a name that is not a key does not create it. *)
Theorem update_perms_frame (name : PermissionName) (value : Z) (add : bool)
    (p : Permissions) :
  let p' := state_of (update_perms name value add p) in
  other_permissions name p' = other_permissions name p /\
  (forall k, k <> permission_key name ->
     permissions_for name p' !! k = permissions_for name p !! k) /\
  (forall k, is_Some (permissions_for name p !! k) ->
     is_Some (permissions_for name p' !! k)) /\
  (add = false -> permissions_for name p !! permission_key name = None ->
     permissions_for name p' = permissions_for name p) /\
  permission_updates p' = (permission_updates p ++ [ConfigUpdate])%list.
Proof.
  assert (Hin : forall (perms : gmap string (list Z)) n,
    (forall k, k <> n -> update_perms_in perms n value add !! k = perms !! k) /\
    (forall k, is_Some (perms !! k) -> is_Some (update_perms_in perms n value add !! k)) /\
    (add = false -> perms !! n = None -> update_perms_in perms n value add = perms)).
  { intros perms n. unfold update_perms_in. split; [|split].
    - intros k Hne.
      destruct (perms !! n); destruct add; try case_bool_decide;
        rewrite ?lookup_insert_ne by congruence; reflexivity.
    - intros k Hk.
      destruct (perms !! n) eqn:Hl; destruct add; try case_bool_decide; try exact Hk;
        (destruct (decide (n = k)) as [->|Hne];
         [rewrite lookup_insert_eq; eauto | rewrite lookup_insert_ne by exact Hne; exact Hk]).
    - intros -> ->. reflexivity. }
  destruct name as [n|n]; simpl;
    (split; [reflexivity|]);
    destruct (Hin (level_permissions p) n) as (H1 & H2 & H3);
    destruct (Hin (command_permissions p) n) as (H4 & H5 & H6);
    repeat split; auto.
Qed.

(** X5.  Granting a value that was not listed and then revoking it gives
    back the list of values there was. *)
Theorem update_perms_grant_then_revoke (name : PermissionName) (value : Z)
    (p : Permissions) :
  let n := permission_key name in
  value ∉ granted (permissions_for name p) n ->
  let p1 := state_of (update_perms name value true p) in
  let p2 := state_of (update_perms name value false p1) in
  granted (permissions_for name p2) n = granted (permissions_for name p) n.
Proof.
  assert (Hin : forall (perms : gmap string (list Z)) n,
    value ∉ granted perms n ->
    granted (update_perms_in (update_perms_in perms n value true) n value false) n
      = granted perms n).
  { intros perms n Hfresh. unfold granted in Hfresh. unfold update_perms_in at 2.
    destruct (perms !! n) as [values|] eqn:Hl; simpl in Hfresh.
    - rewrite bool_decide_eq_false_2 by exact Hfresh.
      unfold update_perms_in. rewrite lookup_insert_eq.
      rewrite bool_decide_eq_true_2 by (apply elem_of_app; right; left).
      rewrite insert_insert_eq, granted_insert, remove_first_app_fresh by exact Hfresh.
      unfold granted. rewrite Hl. reflexivity.
    - unfold update_perms_in. rewrite lookup_insert_eq.
      rewrite bool_decide_eq_true_2 by left.
      rewrite insert_insert_eq, granted_insert. simpl.
      rewrite bool_decide_eq_true_2 by reflexivity.
      unfold granted. rewrite Hl. reflexivity. }
  intros n Hfresh. destruct name as [k|k]; simpl in *; apply Hin; exact Hfresh.
Qed.

Lemma uptime_parts_recompose_witness :
  uptime_parts (-1) = (-1, 23, 59, 59) /\
  -1 = -1 * 86400 + 23 * 3600 + 59 * 60 + 59 /\
  uptime_text (-1) = "-1d 23h 59m 59s".
Proof.
  pose proof (uptime_parts_recompose (-1)) as H.
  split; [reflexivity|].
  split; [exact (proj1 H)|].
  rewrite (proj2 (proj2 (proj2 (proj2 (proj2 H))))). reflexivity.
Defined.

Lemma update_perms_counts_witness :
  let p' := state_of (update_perms (Command "block") 9 true permissions_sample) in
  times_granted (command_permissions permissions_sample) "block" 9 = 0%nat /\
  times_granted (command_permissions p') "block" 9 = 1%nat /\
  times_granted (command_permissions p') "block" 7 = 1%nat.
Proof.
  intros p'.
  destruct (update_perms_counts (Command "block") 9 true permissions_sample) as [H9 Hother].
  split; [reflexivity|]. split.
  - exact H9.
  - exact (Hother 7 ltac:(discriminate)).
Defined.

Lemma permissions_sample_no_duplicates (name : PermissionName) (n : string) :
  NoDup (granted (permissions_for name permissions_sample) n).
Proof.
  unfold granted. destruct name as [k|k]; simpl.
  - destruct (decide (n = "OWNER")) as [->|Hne].
    + rewrite lookup_singleton_eq. simpl. apply NoDup_singleton.
    + rewrite lookup_singleton_ne by congruence. apply NoDup_nil_2.
  - destruct (decide (n = "block")) as [->|Hne].
    + rewrite lookup_singleton_eq. simpl.
      apply NoDup_cons. split; [|apply NoDup_singleton].
      intros H. apply list_elem_of_singleton in H. discriminate.
    + rewrite lookup_singleton_ne by congruence. apply NoDup_nil_2.
Qed.

Lemma update_perms_no_duplicates_witness :
  (forall n, NoDup (granted (permissions_for (Command "block") permissions_sample) n)) /\
  NoDup (granted (command_permissions
                    (state_of (update_perms (Command "block") 9 true permissions_sample)))
           "block").
Proof.
  split; [apply permissions_sample_no_duplicates|].
  exact (update_perms_no_duplicates (Command "block") 9 true permissions_sample
           (permissions_sample_no_duplicates (Command "block")) "block").
Defined.

Lemma update_perms_frame_witness :
  let p' := state_of (update_perms (Level "MODERATOR") 5 false permissions_sample) in
  level_permissions permissions_sample !! "MODERATOR" = None /\
  level_permissions p' = level_permissions permissions_sample /\
  command_permissions p' = command_permissions permissions_sample /\
  permission_updates p' = [ConfigUpdate].
Proof.
  intros p'.
  destruct (update_perms_frame (Level "MODERATOR") 5 false permissions_sample)
    as (Hother & _ & _ & Hrevoke & Hflush).
  split; [reflexivity|]. split; [exact (Hrevoke eq_refl eq_refl)|].
  split; [exact Hother | exact Hflush].
Defined.

Lemma update_perms_grant_then_revoke_witness :
  let p1 := state_of (update_perms (Command "block") 9 true permissions_sample) in
  let p2 := state_of (update_perms (Command "block") 9 false p1) in
  (9 ∉ granted (command_permissions permissions_sample) "block") /\
  granted (command_permissions p1) "block" = [5; 7; 9] /\
  granted (command_permissions p2) "block" = [5; 7].
Proof.
  intros p1 p2.
  assert (Hfresh : 9 ∉ granted (permissions_for (Command "block") permissions_sample)
                         (permission_key (Command "block"))).
  { unfold granted. simpl. rewrite lookup_singleton_eq. simpl.
    rewrite !not_elem_of_cons. repeat split; try discriminate. apply not_elem_of_nil. }
  split; [exact Hfresh|]. split; [reflexivity|].
  exact (update_perms_grant_then_revoke (Command "block") 9 permissions_sample Hfresh).
Defined.

(** ** The expiry pattern *)

Lemma append_cons (c : ascii) (s t : string) :
  String c s +:+ t = String c (s +:+ t).
Proof. reflexivity. Qed.

Lemma at_end_percent (t : string) : at_end (t +:+ "%") = false.
Proof. destruct t as [|c [|c' t]]; reflexivity. Qed.

Lemma lazy_group_reads (text : string) :
  forall seen, text <> "" -> has_char newline text = false ->
  lazy_group seen (text +:+ "%") = Some (String.rev_app seen text).
Proof.
  induction text as [|c text IH]; intros seen Hne Hnl; [congruence|].
  simpl in Hnl. apply orb_false_iff in Hnl as [Hc Hnl].
  rewrite append_cons. simpl. rewrite Hc.
  destruct text as [|c' text].
  - reflexivity.
  - rewrite append_cons.
    assert (Hrec : lazy_group (String c seen) (String c' (text +:+ "%"))
                   = Some (String.rev_app seen (String c (String c' text)))).
    { rewrite <- append_cons. apply IH; [discriminate | exact Hnl]. }
    destruct (ascii_dec c' "%"%char) as [->|Hc'].
    + rewrite at_end_percent. exact Hrec.
    + destruct c' as [[] [] [] [] [] [] [] []]; try exact Hrec; congruence.
Qed.

(** X6.  A reason that ends in [%text%], with no percent sign before
    that, carries [text] as its expiry: the pattern reads back what was
    written, for any non-empty text without a newline. *)
Theorem search_end_time_round_trip (reason text : string) :
  has_char "%" reason = false ->
  text <> "" ->
  has_char newline text = false ->
  search_end_time (reason +:+ "%" +:+ text +:+ "%") = Some text.
Proof.
  intros Hfree Hne Hnl.
  induction reason as [|c reason IH].
  - change (search_end_time (String "%" (text +:+ "%")) = Some text).
    simpl. rewrite (lazy_group_reads text "" Hne Hnl). reflexivity.
  - simpl in Hfree. apply orb_false_iff in Hfree as [Hc Hfree].
    rewrite append_cons. simpl. rewrite Hc. apply IH. exact Hfree.
Qed.

Lemma search_end_time_round_trip_witness :
  has_char "%" "spam " = false /\
  "2020-01-01T00:00:00" <> "" /\
  has_char newline "2020-01-01T00:00:00" = false /\
  search_end_time expired_reason = Some "2020-01-01T00:00:00".
Proof.
  assert (Hne : "2020-01-01T00:00:00" <> "") by discriminate.
  repeat (split; [first [reflexivity | exact Hne]|]).
  exact (search_end_time_round_trip "spam " "2020-01-01T00:00:00" eq_refl Hne eq_refl).
Defined.

Lemma lazy_group_sound (s : string) :
  forall seen g, lazy_group seen s = Some g ->
  exists mid tail,
    s = mid +:+ "%" +:+ tail /\ at_end tail = true /\
    mid <> "" /\ has_char newline mid = false /\
    g = String.rev_app seen mid.
Proof.
  induction s as [|c r IH]; intros seen g H; simpl in H; [discriminate|].
  case_bool_decide as Hc; [discriminate|].
  assert (Hrec : lazy_group (String c seen) r = Some g ->
                 exists mid tail,
                   String c r = mid +:+ "%" +:+ tail /\ at_end tail = true /\
                   mid <> "" /\ has_char newline mid = false /\
                   g = String.rev_app seen mid).
  { intros Hg. destruct (IH _ _ Hg) as (mid & tail & -> & Hend & _ & Hnl & ->).
    exists (String c mid), tail. repeat split; try assumption; try discriminate.
    simpl. rewrite bool_decide_eq_false_2 by exact Hc. exact Hnl. }
  destruct r as [|c' r'].
  - simpl in H. discriminate.
  - destruct (ascii_dec c' "%"%char) as [->|Hc'].
    + destruct (at_end r') eqn:Hend.
      * injection H as <-. exists (String c ""), r'.
        repeat split; try assumption; try discriminate.
        simpl. rewrite bool_decide_eq_false_2 by exact Hc. reflexivity.
      * apply Hrec. exact H.
    + apply Hrec.
      destruct c' as [[] [] [] [] [] [] [] []]; try exact H; congruence.
Qed.

(** X7.  Whatever [re.search(r"%(.+?)%$", reason)] finds is a non-empty
    text without a newline that stands between two percent signs, the
    second one ending the reason (a final newline apart).  So a reason
    that does not end in a percent sign carries no expiry. *)
Theorem search_end_time_sound (reason g : string) :
  search_end_time reason = Some g ->
  g <> "" /\
  has_char newline g = false /\
  exists before tail,
    reason = before +:+ "%" +:+ g +:+ "%" +:+ tail /\
    (tail = "" \/ tail = String newline "").
Proof.
  induction reason as [|c r IH]; simpl; intros H; [discriminate|].
  assert (Hrec : search_end_time r = Some g ->
    g <> "" /\ has_char newline g = false /\
    exists before tail,
      String c r = before +:+ "%" +:+ g +:+ "%" +:+ tail /\
      (tail = "" \/ tail = String newline "")).
  { intros Hg. destruct (IH Hg) as (Hne & Hnl & before & tail & -> & Htail).
    repeat split; try assumption. exists (String c before), tail.
    split; [reflexivity | exact Htail]. }
  case_bool_decide as Hc; [|apply Hrec; exact H].
  subst c. destruct (lazy_group "" r) as [g'|] eqn:Hl; [|apply Hrec; exact H].
  injection H as <-.
  destruct (lazy_group_sound r "" g' Hl) as (mid & tail & -> & Hend & Hne & Hnl & ->).
  change (String.rev_app "" mid) with mid.
  repeat split; try assumption. exists "", tail. split; [reflexivity|].
  destruct tail as [|t [|t' tail]]; simpl in Hend; try discriminate.
  - left. reflexivity.
  - right. apply bool_decide_eq_true_1 in Hend. subst t. reflexivity.
Qed.

Lemma search_end_time_sound_witness :
  search_end_time "a%b%c%" = Some "b%c" /\
  exists before tail,
    "a%b%c%" = before +:+ "%" +:+ "b%c" +:+ "%" +:+ tail /\
    (tail = "" \/ tail = String newline "").
Proof.
  split; [reflexivity|].
  exact (proj2 (proj2 (search_end_time_sound "a%b%c%" "b%c" eq_refl))).
Defined.

(** ** The guild, category and log-channel properties *)

Ltac stored_cases :=
  unfold Stored.main_category, Stored.modmail_guild_categories, Stored.modmail_guild,
    Stored.guild, Stored.guild_id, Stored.int, Stored.get, Stored.remove,
    Stored.set_modmail_guild_id, Stored.set_main_category_id,
    Stored.set_log_channel_id, bind, ret, raise, modify in *;
  cbn -[get_guild List.find Stored.int_of] in *;
  repeat (case_match; simplify_eq; cbn -[get_guild List.find Stored.int_of] in *).

#[local] Set Warnings "-clear-no-such-hyp".

(** X8.  [modmail_guild] over the stored values.  It writes at most the
    [modmail_guild_id] key, which it removes exactly when the key reads
    as an integer that names no guild of the cache.  It raises exactly
    when a value it passes to [int] is not an integer: the
    [modmail_guild_id], or the [guild_id] where the serving guild is
    consulted (no [modmail_guild_id], or one that names no guild), and
    then a [ValueError], the removal staying made.  When it returns, the
    guild is the one [modmail_guild_id] names, or else the one [guild_id]
    names, and asked again it returns the same and writes nothing. *)
Theorem modmail_guild_settles `{ext : Externals} (gw : Gateway) (s : Stored.Ids) :
  let o := Stored.modmail_guild gw s in
  let s1 := state_of o in
  let reads_guild_id :=
    match Stored.modmail_guild_id_key s with
    | None => True
    | Some v => exists i, Stored.int_of v = Some i /\ get_guild gw (Some i) = None
    end in
  let unreadable (v : option Stored.id_value) :=
    exists w, v = Some w /\ Stored.int_of w = None in
  Stored.guild_id_key s1 = Stored.guild_id_key s /\
  Stored.main_category_id_key s1 = Stored.main_category_id_key s /\
  Stored.log_channel_id_key s1 = Stored.log_channel_id_key s /\
  (Stored.modmail_guild_id_key s1 = Stored.modmail_guild_id_key s \/
   Stored.modmail_guild_id_key s1 = None) /\
  (Stored.modmail_guild_id_key s1 <> Stored.modmail_guild_id_key s <->
     exists v i, Stored.modmail_guild_id_key s = Some v /\
                 Stored.int_of v = Some i /\ get_guild gw (Some i) = None) /\
  ((exists e, o = Raise e s1) <->
     unreadable (Stored.modmail_guild_id_key s) \/
     (reads_guild_id /\ unreadable (Stored.guild_id_key s))) /\
  (forall e s', o = Raise e s' -> e = ValueError) /\
  (forall g s', o = Return g s' ->
     Stored.modmail_guild gw s' = Return g s' /\
     (forall v i g', Stored.modmail_guild_id_key s = Some v ->
        Stored.int_of v = Some i -> get_guild gw (Some i) = Some g' -> g = Some g') /\
     (reads_guild_id -> g = get_guild gw (Stored.guild_id_key s ≫= Stored.int_of))).
Proof.
  destruct s as [gi mgi mci lci]. cbv zeta.
  stored_cases.
  all: repeat split; intros; simplify_eq.
  all: cbn -[get_guild List.find Stored.int_of] in *.
  all: repeat (case_match; simplify_eq; cbn -[get_guild List.find Stored.int_of] in *).
  all: try naive_solver.
Qed.

Lemma modmail_guild_settles_witness :
  let gw := sample_gateway [log_room] [] in
  let s :=
    {| Stored.guild_id_key := Some (Stored.IdText "ten");
       Stored.modmail_guild_id_key := Some (Stored.IdText "99");
       Stored.main_category_id_key := Some (Stored.IdInt 20);
       Stored.log_channel_id_key := Some (Stored.IdInt 30) |} in
  Stored.modmail_guild (ext := sample_externals) gw s
    = Raise ValueError (Stored.set_modmail_guild_id None s).
Proof.
  intros gw s.
  destruct (modmail_guild_settles (ext := sample_externals) gw s)
    as (_ & _ & _ & _ & _ & _ & Hexn & _).
  destruct (Stored.modmail_guild (ext := sample_externals) gw s) as [g s'|e s'] eqn:Hrun;
    [vm_compute in Hrun; discriminate Hrun|].
  rewrite (Hexn e s' eq_refl). vm_compute in Hrun. injection Hrun as _ <-. reflexivity.
Defined.

Lemma find_category_id (cats : list Category) (i : Z) (cat : Category) :
  List.find (fun c => category_id c =? i) cats = Some cat ->
  category_id cat = i /\ cat ∈ cats.
Proof.
  intros H. apply find_some in H as [Hin Hid]. split.
  - apply Z.eqb_eq. exact Hid.
  - apply list_elem_of_In. exact Hin.
Qed.

Lemma find_category_name (cats : list Category) (cat : Category) :
  List.find (fun c => String.eqb (category_name c) "Modmail") cats = Some cat ->
  category_name cat = "Modmail" /\ cat ∈ cats.
Proof.
  intros H. apply find_some in H as [Hin Hid]. split.
  - apply String.eqb_eq. exact Hid.
  - apply list_elem_of_In. exact Hin.
Qed.

Lemma find_category_name_none (cats : list Category) :
  List.find (fun c => String.eqb (category_name c) "Modmail") cats = None ->
  forall cat, cat ∈ cats -> category_name cat <> "Modmail".
Proof.
  intros H cat Hin Hname. apply list_elem_of_In in Hin.
  pose proof (find_none _ _ H cat Hin) as Hno. simpl in Hno.
  rewrite Hname in Hno. discriminate.
Qed.

(** What a run of [main_category] writes, when it raises and what it
    returns. *)
Lemma main_category_outcome `{ext : Externals} (gw : Gateway) (s : Stored.Ids) :
  let o := Stored.main_category gw s in
  let s1 := state_of o in
  Stored.guild_id_key s1 = Stored.guild_id_key s /\
  Stored.log_channel_id_key s1 = Stored.log_channel_id_key s /\
  ((exists e, o = Raise e s1) <->
     (exists e s', Stored.modmail_guild gw s = Raise e s') \/
     (exists g s' v, Stored.modmail_guild gw s = Return (Some g) s' /\
                     Stored.main_category_id_key s = Some v /\
                     Stored.int_of v = None)) /\
  (forall e s', o = Raise e s' -> e = ValueError) /\
  (forall r s', o = Return r s' ->
     exists g s0,
       Stored.modmail_guild gw s = Return g s0 /\
       Stored.modmail_guild_id_key s' = Stored.modmail_guild_id_key s0 /\
       match r with
       | Some cat =>
           Stored.main_category_id_key s' ≫= Stored.int_of = Some (category_id cat) /\
           (exists g', g = Some g' /\ cat ∈ guild_categories g') /\
           (Stored.main_category_id_key s' = Stored.main_category_id_key s \/
            category_name cat = "Modmail" /\
            Stored.main_category_id_key s' = Some (Stored.IdInt (category_id cat)))
       | None =>
           g = None /\ s' = s0 \/
           Stored.main_category_id_key s' = None /\
           exists g', g = Some g' /\
             forall cat, cat ∈ guild_categories g' -> category_name cat <> "Modmail"
       end).
Proof.
  destruct s as [gi mgi mci lci]. cbv zeta.
  stored_cases.
  all: repeat match goal with
       | H : List.find (fun c => category_id c =? _) _ = Some _ |- _ =>
           apply find_category_id in H as [? ?]
       | H : List.find (fun c => String.eqb (category_name c) "Modmail") _ = Some _ |- _ =>
           apply find_category_name in H as [? ?]
       | H : List.find (fun c => String.eqb (category_name c) "Modmail") _ = None |- _ =>
           pose proof (find_category_name_none _ H); clear H
       end.
  all: repeat split; intros; simplify_eq; try naive_solver.
Qed.

Ltac find_contradiction :=
  exfalso;
  match goal with
  | Hn : List.find (fun c => category_id c =? category_id ?cat) ?cats = None,
    Hs : List.find _ ?cats = Some ?cat |- _ =>
      apply find_some in Hs as [Hin _];
      pose proof (find_none _ _ Hn cat Hin) as Hno; simpl in Hno;
      rewrite Z.eqb_refl in Hno; discriminate
  end.

(** Once [main_category] has returned a category, asking again returns
    one as well and writes nothing. *)
Lemma main_category_again `{ext : Externals} (gw : Gateway) (s s' : Stored.Ids)
    (cat : Category) :
  Stored.main_category gw s = Return (Some cat) s' ->
  exists cat', Stored.main_category gw s' = Return (Some cat') s'.
Proof.
  intros H. destruct s as [gi mgi mci lci].
  stored_cases.
  all: try (eexists; reflexivity).
  all: try find_contradiction.
Qed.

(** X9.  [main_category] over the stored values.  It leaves the
    [guild_id] and [log_channel_id] keys alone, and the
    [modmail_guild_id] key as [modmail_guild] leaves it.  It raises
    exactly when [modmail_guild] raises or, with an operating guild, the
    [main_category_id] is not an integer; what it raises is a
    [ValueError], never the [AttributeError] of a missing guild.  A
    category it returns belongs to the operating guild and is the one
    [main_category_id] names afterwards: the key is as it was, or it is
    now the id of a category called [Modmail]; asked again, it returns a
    category and writes nothing.  When it returns none, there is no
    operating guild and nothing more was written, or the key is absent
    afterwards and no category of the operating guild is called
    [Modmail]. *)
Theorem main_category_settles `{ext : Externals} (gw : Gateway) (s : Stored.Ids) :
  let o := Stored.main_category gw s in
  let s1 := state_of o in
  Stored.guild_id_key s1 = Stored.guild_id_key s /\
  Stored.log_channel_id_key s1 = Stored.log_channel_id_key s /\
  ((exists e, o = Raise e s1) <->
     (exists e s', Stored.modmail_guild gw s = Raise e s') \/
     (exists g s' v, Stored.modmail_guild gw s = Return (Some g) s' /\
                     Stored.main_category_id_key s = Some v /\
                     Stored.int_of v = None)) /\
  (forall e s', o = Raise e s' -> e = ValueError) /\
  (forall r s', o = Return r s' ->
     exists g s0,
       Stored.modmail_guild gw s = Return g s0 /\
       Stored.modmail_guild_id_key s' = Stored.modmail_guild_id_key s0 /\
       match r with
       | Some cat =>
           Stored.main_category_id_key s' ≫= Stored.int_of = Some (category_id cat) /\
           (exists g', g = Some g' /\ cat ∈ guild_categories g') /\
           (Stored.main_category_id_key s' = Stored.main_category_id_key s \/
            category_name cat = "Modmail" /\
            Stored.main_category_id_key s' = Some (Stored.IdInt (category_id cat))) /\
           exists cat', Stored.main_category gw s' = Return (Some cat') s'
       | None =>
           g = None /\ s' = s0 \/
           Stored.main_category_id_key s' = None /\
           exists g', g = Some g' /\
             forall cat, cat ∈ guild_categories g' -> category_name cat <> "Modmail"
       end).
Proof.
  cbv zeta.
  destruct (main_category_outcome gw s) as (Hg & Hl & Hraise & Hexn & Hret).
  repeat (split; [assumption|]).
  intros r s' Hrun. destruct (Hret r s' Hrun) as (g & s0 & Hguild & Hkey & Hr).
  exists g, s0. split; [exact Hguild|]. split; [exact Hkey|].
  destruct r as [cat|]; [|exact Hr].
  destruct Hr as (Hid & Hin & Hwhich).
  repeat (split; [assumption|]).
  exact (main_category_again gw s s' cat Hrun).
Qed.

Lemma main_category_settles_witness :
  let gw := sample_gateway [log_room] [] in
  let s :=
    {| Stored.guild_id_key := Some (Stored.IdText "10");
       Stored.modmail_guild_id_key := None;
       Stored.main_category_id_key := Some (Stored.IdText "21");
       Stored.log_channel_id_key := None |} in
  Stored.main_category (ext := sample_externals) gw s
    = Return (Some (modmail_category [log_room]))
        (Stored.set_main_category_id (Some (Stored.IdInt 20)) s) /\
  Stored.main_category (ext := sample_externals) gw
      (Stored.set_main_category_id (Some (Stored.IdText "2O")) s)
    = Raise ValueError (Stored.set_main_category_id (Some (Stored.IdText "2O")) s).
Proof.
  intros gw s. split; [vm_compute; reflexivity|].
  set (s2 := Stored.set_main_category_id _ s).
  destruct (main_category_settles (ext := sample_externals) gw s2)
    as (_ & _ & _ & Hexn & _).
  destruct (Stored.main_category (ext := sample_externals) gw s2) as [r s'|e s'] eqn:Hrun;
    [vm_compute in Hrun; discriminate Hrun|].
  rewrite (Hexn e s' eq_refl). vm_compute in Hrun. injection Hrun as _ <-. reflexivity.
Defined.

(** The part of [log_channel] that looks for a channel in the main
    category (lines 216-222), run with no [log_channel_id]. *)
Lemma log_channel_fallback `{ext : Externals} (gw : Gateway) (s0 : Stored.Ids) :
  Stored.log_channel_id_key s0 = None ->
  let o :=
    (cat <- Stored.main_category gw ;;
     match cat with
     | None => ret None
     | Some _ =>
         cat' <- Stored.main_category gw ;;
         match cat' with
         | None => raise AttributeError
         | Some cat' =>
             match category_channels cat' with
             | c :: _ =>
                 modify (Stored.set_log_channel_id
                           (Some (Stored.IdInt (channel_id c)))) ;;;
                 ret (Some c)
             | [] => ret None
             end
         end
     end) s0 in
  let s2 := state_of (Stored.main_category gw s0) in
  Stored.guild_id_key (state_of o) = Stored.guild_id_key s0 /\
  ((exists e, o = Raise e (state_of o)) <->
     exists e s', Stored.main_category gw s0 = Raise e s') /\
  (forall e s', o = Raise e s' -> e = ValueError) /\
  (forall r s', o = Return r s' ->
     (is_Some r <-> is_Some (Stored.log_channel_id_key s')) /\
     forall c, r = Some c ->
       Stored.log_channel_id_key s' = Some (Stored.IdInt (channel_id c)) /\
       exists cat rest,
         Stored.main_category gw s2 = Return (Some cat) s2 /\
         category_channels cat = c :: rest).
Proof.
  intros Hnone o s2. subst o s2.
  destruct (main_category_outcome gw s0) as (Hg & Hl & _ & Hexn & _).
  unfold bind, ret, raise, modify.
  destruct (Stored.main_category gw s0) as [[cat|] s2|e s2] eqn:Hrun; simpl in *.
  - destruct (main_category_again gw s0 s2 cat Hrun) as (cat' & Hagain).
    rewrite !Hagain.
    destruct (category_channels cat') as [|c rest] eqn:Hchannels; simpl.
    + split; [exact Hg|].
      split; [split; [intros [? H] | intros (? & ? & H)]; discriminate H|].
      split; [discriminate|]. intros r s' [= <- <-].
      split; [|discriminate]. rewrite Hl, Hnone. split; intros [? ?]; discriminate.
    + split; [exact Hg|].
      split; [split; [intros [? H] | intros (? & ? & H)]; discriminate H|].
      split; [discriminate|]. intros r s' [= <- <-]. simpl.
      split; [split; eauto|]. intros c' [= <-]. split; [reflexivity|]. eauto.
  - split; [exact Hg|].
    split; [split; [intros [? H] | intros (? & ? & H)]; discriminate H|].
    split; [discriminate|]. intros r s' [= <- <-].
    split; [|discriminate]. rewrite Hl, Hnone. split; intros [? ?]; discriminate.
  - split; [exact Hg|]. split; [split; eauto|].
    split; [|discriminate]. intros e' s' [= <- <-]. apply (Hexn e s2 eq_refl).
Qed.

(** X10.  [log_channel] over the stored values.  It leaves the
    [guild_id] key alone.  It falls back on the main category when there
    is no [log_channel_id] or the id names no channel of the cache, the
    key being dropped then.  It raises exactly when the [log_channel_id]
    is not an integer or, falling back, [main_category] raises; what it
    raises is a [ValueError], never the [AttributeError] of a missing
    category.  It returns a channel exactly when [log_channel_id] is set
    afterwards: either nothing was written and the channel is the one
    the key names, or it fell back, the channel is the first channel of
    the main category and the key is now the id of that channel. *)
Theorem log_channel_settles `{ext : Externals} (gw : Gateway) (s : Stored.Ids) :
  let o := Stored.log_channel gw s in
  let s0 := Stored.set_log_channel_id None s in
  let s2 := state_of (Stored.main_category gw s0) in
  let falls_back :=
    match Stored.log_channel_id_key s with
    | None => True
    | Some v => exists i, Stored.int_of v = Some i /\ get_channel gw i = None
    end in
  Stored.guild_id_key (state_of o) = Stored.guild_id_key s /\
  ((exists e, o = Raise e (state_of o)) <->
     (exists v, Stored.log_channel_id_key s = Some v /\ Stored.int_of v = None) \/
     (falls_back /\ exists e s', Stored.main_category gw s0 = Raise e s')) /\
  (forall e s', o = Raise e s' -> e = ValueError) /\
  (forall r s', o = Return r s' ->
     (is_Some r <-> is_Some (Stored.log_channel_id_key s')) /\
     forall c, r = Some c ->
       (s' = s /\
        exists v i, Stored.log_channel_id_key s = Some v /\
                    Stored.int_of v = Some i /\ get_channel gw i = Some c) \/
       (falls_back /\
        Stored.log_channel_id_key s' = Some (Stored.IdInt (channel_id c)) /\
        exists cat rest,
          Stored.main_category gw s2 = Return (Some cat) s2 /\
          category_channels cat = c :: rest)).
Proof.
  cbv zeta.
  pose proof (log_channel_fallback gw (Stored.set_log_channel_id None s) eq_refl) as Hfb.
  cbv zeta in Hfb.
  unfold Stored.log_channel.
  unfold bind, Stored.get, Stored.int, Stored.remove, ret, raise, modify in *.
  destruct s as [gi mgi mci lci].
  cbn -[Stored.main_category Stored.int_of] in *.
  destruct Hfb as (Hg & Hraise & Hexn & Hret).
  destruct lci as [v|]; cbn -[Stored.main_category Stored.int_of] in *.
  - destruct (Stored.int_of v) as [i|] eqn:Hint;
      cbn -[Stored.main_category Stored.int_of] in *.
    + destruct (get_channel gw i) as [c|] eqn:Hc;
        cbn -[Stored.main_category Stored.int_of] in *.
      * split; [reflexivity|]. split.
        { split; [intros [? H]; discriminate H|].
          intros [(v' & [= <-] & Hv)|((i' & Hi & Hc') & _)]; congruence. }
        split; [discriminate|]. intros r s' [= <- <-]. simpl. split; [split; eauto|].
        intros c' [= <-]. left. split; [reflexivity|]. eauto.
      * split; [exact Hg|]. split.
        { rewrite Hraise. split; [intros H; right; split; [eauto | exact H]|].
          intros [(v' & [= <-] & Hv)|(_ & H)]; [congruence | exact H]. }
        split; [exact Hexn|]. intros r s' Hrun.
        destruct (Hret r s' Hrun) as [Hiff Hsome]. split; [exact Hiff|].
        intros c Hr. right. split; [eauto|]. apply (Hsome c Hr).
    + split; [reflexivity|]. split; [split; eauto|].
      split; [intros e s' [= <- <-]; reflexivity | discriminate].
  - split; [exact Hg|]. split.
    { rewrite Hraise. split; [intros H; right; split; [exact I | exact H]|].
      intros [(v' & Hv & _)|(_ & H)]; [discriminate | exact H]. }
    split; [exact Hexn|]. intros r s' Hrun.
    destruct (Hret r s' Hrun) as [Hiff Hsome]. split; [exact Hiff|].
    intros c Hr. right. split; [exact I|]. apply (Hsome c Hr).
Qed.

Lemma log_channel_settles_witness :
  let gw := sample_gateway [log_room] [] in
  let s :=
    {| Stored.guild_id_key := Some (Stored.IdText "10");
       Stored.modmail_guild_id_key := None;
       Stored.main_category_id_key := Some (Stored.IdInt 20);
       Stored.log_channel_id_key := Some (Stored.IdText "35") |} in
  Stored.log_channel (ext := sample_externals) gw s
    = Return (Some log_room)
        (Stored.set_log_channel_id (Some (Stored.IdInt 30)) s) /\
  Stored.log_channel (ext := sample_externals) gw
      (Stored.set_log_channel_id (Some (Stored.IdText "#logs")) s)
    = Raise ValueError (Stored.set_log_channel_id (Some (Stored.IdText "#logs")) s).
Proof.
  intros gw s. split; [vm_compute; reflexivity|].
  set (s2 := Stored.set_log_channel_id _ s).
  destruct (log_channel_settles (ext := sample_externals) gw s2)
    as (_ & _ & Hexn & _).
  destruct (Stored.log_channel (ext := sample_externals) gw s2) as [r s'|e s'] eqn:Hrun;
    [vm_compute in Hrun; discriminate Hrun|].
  rewrite (Hexn e s' eq_refl). vm_compute in Hrun. injection Hrun as _ <-. reflexivity.
Defined.

(** *** The handlers' integer ids

    On a configuration whose ids are integers the properties of the
    handlers do what the properties over the stored values do. *)

Ltac both_cases :=
  unfold Stored.log_channel, Stored.main_category, Stored.modmail_guild_categories, Stored.modmail_guild,
    Stored.guild, Stored.guild_id, Stored.int, Stored.get, Stored.remove,
    Stored.set_modmail_guild_id, Stored.set_main_category_id,
    Stored.set_log_channel_id,
    log_channel, main_category, modmail_guild_categories, modmail_guild, guild,
    remove_main_category_id, remove_modmail_guild_id, remove_log_channel_id,
    on_ids, ids_of,
    bind, ret, raise, modify, read, update_config, with_config in *;
  cbn -[get_guild List.find] in *;
  repeat (case_match; simplify_eq; cbn -[get_guild List.find] in *);
  try reflexivity.

Lemma modmail_guild_on_integers `{ext : Externals} (gw : Gateway) (s : Bot) :
  Stored.modmail_guild gw (ids_of (config s)) = on_ids (modmail_guild gw s).
Proof.
  destruct_bot s. destruct gi, mgi, mci, lci; both_cases.
  all: unfold get_guild in *; cbn -[List.find] in *; simplify_eq; try congruence.
Qed.

Lemma main_category_on_integers `{ext : Externals} (gw : Gateway) (s : Bot) :
  Stored.main_category gw (ids_of (config s)) = on_ids (main_category gw s).
Proof.
  destruct_bot s. destruct gi, mgi, mci, lci; both_cases.
  all: unfold get_guild in *; cbn -[List.find] in *; simplify_eq; try congruence.
Qed.

Lemma log_channel_on_integers `{ext : Externals} (gw : Gateway) (s : Bot) :
  Stored.log_channel gw (ids_of (config s)) = on_ids (log_channel gw s).
Proof.
  assert (Hfallback : forall s0 : Bot,
    (cat <- Stored.main_category gw ;;
     match cat with
     | None => ret None
     | Some _ =>
         cat' <- Stored.main_category gw ;;
         match cat' with
         | None => raise AttributeError
         | Some cat' =>
             match category_channels cat' with
             | c :: _ =>
                 modify (Stored.set_log_channel_id
                           (Some (Stored.IdInt (channel_id c)))) ;;;
                 ret (Some c)
             | [] => ret None
             end
         end
     end) (ids_of (config s0)) =
    on_ids
      ((cat <- main_category gw ;;
        match cat with
        | None => ret None
        | Some _ =>
            cat' <- main_category gw ;;
            match cat' with
            | None => raise AttributeError
            | Some cat' =>
                match category_channels cat' with
                | c :: _ =>
                    update_config (with_log_channel_id (Some (channel_id c))) ;;;
                    ret (Some c)
                | [] => ret None
                end
            end
        end) s0)).
  { intros s0. unfold bind. rewrite main_category_on_integers.
    destruct (main_category gw s0) as [[cat|] s1|e s1]; try reflexivity.
    cbn [on_ids]. rewrite main_category_on_integers.
    destruct (main_category gw s1) as [[cat'|] s2|e s2]; try reflexivity.
    cbn [on_ids]. destruct (category_channels cat'); [reflexivity|].
    destruct_bot s2. reflexivity. }
  destruct_bot s.
  pose proof (Hfallback
                {| config := Build_Config b wl aa ga se be ce rtc rwc cl gi mgi mci None
                               px sn al;
                   threads := ts; trace := tr; clock := ck |}) as Hrun.
  clear Hfallback.
  unfold Stored.log_channel, log_channel, remove_log_channel_id in *.
  unfold bind, Stored.get, Stored.int, Stored.remove, read, ret, raise, modify,
    update_config, with_config, on_ids in *.
  destruct lci as [i|]; cbn -[Stored.main_category main_category] in *.
  - destruct (get_channel gw i); [reflexivity | exact Hrun].
  - exact Hrun.
Qed.

(** ** What the evaluation leaves alone *)

Lemma only_entry_of_refl (key : string) (s : Bot) : only_entry_of key s s.
Proof. repeat split. Qed.

Lemma only_entry_of_trans (key : string) (s1 s2 s3 : Bot) :
  only_entry_of key s1 s2 -> only_entry_of key s2 s3 -> only_entry_of key s1 s3.
Proof.
  intros (W1 & C1 & T1 & B1) (W2 & C2 & T2 & B2).
  repeat split; try congruence. intros k Hk. rewrite (B2 k Hk). apply B1. exact Hk.
Qed.

Lemma only_entry_of_update (key : string) (f : Config -> Config) :
  (forall c, blocked_whitelist (f c) = blocked_whitelist c /\
             closures (f c) = closures c /\
             forall k, k <> key -> blocked (f c) !! k = blocked c !! k) ->
  keeps (only_entry_of key) (update_config f).
Proof.
  intros Hf s. destruct (Hf (config s)) as (W & C & B). repeat split; assumption.
Qed.

Lemma only_entry_of_emit (key : string) (e : Event) :
  keeps (only_entry_of key) (emit e).
Proof. intros s. repeat split. Qed.

Lemma only_entry_of_utcnow `{ext : Externals} (key : string) :
  keeps (only_entry_of key) utcnow.
Proof. intros s. repeat split. Qed.

Ltac only_entry_tac key :=
  intros;
  repeat first
    [ apply (keeps_ret _ (only_entry_of_refl key))
    | apply (keeps_raise _ (only_entry_of_refl key))
    | apply (keeps_read _ (only_entry_of_refl key))
    | apply only_entry_of_emit
    | apply only_entry_of_utcnow
    | apply only_entry_of_update;
      let c := fresh "c" in
      intros c; destruct c; simpl; repeat split; intros;
      rewrite ?lookup_delete_ne, ?lookup_insert_ne by congruence; reflexivity
    | apply (keeps_bind _ (only_entry_of_trans key)); [|intros]
    | apply (keeps_try_except _ (only_entry_of_trans key))
    | apply keeps_if
    | match goal with
      | |- keeps _ (match ?x with _ => _ end) => destruct x
      end
    | progress cbv zeta ].

Lemma only_entry_of_process_blocked `{ext : Externals} (gw : Gateway)
    (message : Message) :
  keeps (only_entry_of (str_id (message_author message))) (_process_blocked gw message).
Proof.
  unfold _process_blocked, retrieve_emoji, convert_emoji, remove_sent_emoji,
    remove_blocked_emoji, whitelisted_sender, age_limits, load_age, add_age,
    remove_account_age, remove_guild_age, apply_policy, age_not_met, existing_block,
    human_timedelta, send_wait_notice, config_update, add_reaction.
  only_entry_tac (str_id (message_author message)).
Qed.

(** X11.  Evaluating a message changes, in the block map, at most the
    entry of its author: every other entry is as before, and so are the
    whitelist, the persisted closures and the registry, whether the
    evaluation returns or raises. *)
Theorem process_blocked_only_own_entry `{ext : Externals} (gw : Gateway)
    (message : Message) (s : Bot) :
  let key := str_id (message_author message) in
  let s' := state_of (_process_blocked gw message s) in
  blocked_whitelist (config s') = blocked_whitelist (config s) /\
  closures (config s') = closures (config s) /\
  threads s' = threads s /\
  forall k, k <> key -> blocked (config s') !! k = blocked (config s) !! k.
Proof. apply only_entry_of_process_blocked. Qed.

Lemma process_blocked_only_own_entry_witness :
  let gw := sample_gateway [log_room] [] in
  let s := sample_bot (one_day_config {[ "7" := new_account_reason; "8" := "spam" ]}) []
             y2030 in
  blocked (config s) !! "8" = Some "spam" /\
  blocked (config (state_of (_process_blocked (ext := sample_externals) gw hello s))) !! "7"
    = None /\
  blocked (config (state_of (_process_blocked (ext := sample_externals) gw hello s))) !! "8"
    = Some "spam".
Proof.
  intros gw s. split; [reflexivity|]. split; [vm_compute; reflexivity|].
  destruct (process_blocked_only_own_entry (ext := sample_externals) gw hello s)
    as (_ & _ & _ & Hother).
  rewrite (Hother "8"); [reflexivity | discriminate].
Defined.

(** ** Handlers that only wind threads down *)

Section WindsDown.

Context `{ext : Externals}.
Variable ok : list Thread -> Event -> Prop.
Hypothesis ok_mono : forall ts ts' e,
  (forall t, t ∈ ts' -> t ∈ ts) -> ok ts' e -> ok ts e.

Lemma winds_down_refl (s : Bot) : winds_down ok s s.
Proof. split; [auto|]. exists []. rewrite app_nil_r. auto. Qed.

Lemma winds_down_trans (s1 s2 s3 : Bot) :
  winds_down ok s1 s2 -> winds_down ok s2 s3 -> winds_down ok s1 s3.
Proof.
  intros (T1 & evs1 & E1 & F1) (T2 & evs2 & E2 & F2). split; [auto|].
  exists (evs1 ++ evs2)%list. split.
  - rewrite E2, E1, app_assoc. reflexivity.
  - apply Forall_app. split; [exact F1|].
    eapply Forall_impl; [exact F2|]. intros e. apply ok_mono. exact T1.
Qed.

Lemma winds_down_config (f : Config -> Config) (s : Bot) :
  winds_down ok s (with_config f s).
Proof. split; [auto|]. exists []. simpl. rewrite app_nil_r. auto. Qed.

Lemma winds_down_config_only (s s' : Bot) : config_only s s' -> winds_down ok s s'.
Proof.
  intros (T & E & _). split; [rewrite T; auto|].
  exists []. rewrite E, app_nil_r. auto.
Qed.

Lemma winds_down_emit (e : Event) (s : Bot) :
  ok (threads s) e -> winds_down ok s (state_of (emit e s)).
Proof. intros He. split; [auto|]. exists [e]. simpl. auto. Qed.

Lemma winds_down_utcnow : keeps (winds_down ok) utcnow.
Proof. intros s. split; [auto|]. exists []. simpl. rewrite app_nil_r. auto. Qed.

(** Sequencing, when what follows depends on the state reached. *)
Lemma winds_down_bind {A B} (m : M Bot A) (k : A -> M Bot B) (s : Bot) :
  winds_down ok s (state_of (m s)) ->
  (forall a s1, m s = Return a s1 -> winds_down ok s1 (state_of (k a s1))) ->
  winds_down ok s (state_of (bind m k s)).
Proof.
  intros Hm Hk. unfold bind. destruct (m s) as [a s1|e s1] eqn:E; simpl in *.
  - eapply winds_down_trans; [exact Hm|]. apply (Hk a s1). reflexivity.
  - exact Hm.
Qed.

Lemma winds_down_thread_close (t : Thread) (args : CloseArgs) (s : Bot) :
  ok (threads s) (ThreadClose (user_id (thread_recipient t)) args) ->
  winds_down ok s (state_of (thread_close t args s)).
Proof.
  intros He. unfold thread_close.
  apply winds_down_bind; [apply winds_down_emit; exact He|].
  intros _ s1 _. destruct (0 <? close_after args).
  - apply (keeps_bind _ winds_down_trans); [apply winds_down_utcnow|].
    intros now. apply (keeps_update_config _ winds_down_config).
  - apply winds_down_bind; [apply winds_down_config|].
    intros _ s2 _. split.
    + simpl. intros t' Ht'. apply list_elem_of_In in Ht'. apply filter_In in Ht' as [Ht' _].
      apply list_elem_of_In. exact Ht'.
    + exists []. simpl. rewrite app_nil_r. auto.
Qed.

Lemma winds_down_for_each {A} (body : A -> M Bot unit) (l : list A) :
  (forall x, x ∈ l -> keeps (winds_down ok) (body x)) ->
  keeps (winds_down ok) (for_each body l).
Proof.
  induction l as [|x r IH]; intros Hbody; simpl.
  - apply (keeps_ret _ winds_down_refl).
  - apply (keeps_bind _ winds_down_trans).
    + apply Hbody. left.
    + intros _. apply IH. intros y Hy. apply Hbody. right. exact Hy.
Qed.

End WindsDown.

Lemma pending_close_mono `{ext : Externals} (gw : Gateway)
    (snapshot : list (string * Closure)) (ts ts' : list Thread) (e : Event) :
  (forall t, t ∈ ts' -> t ∈ ts) ->
  pending_close gw snapshot ts' e -> pending_close gw snapshot ts e.
Proof.
  intros Hsub. destruct e; simpl; auto.
  intros (Hafter & (t & Ht & Hid) & Hrec). repeat split; eauto.
Qed.

Lemma recover_closure_winds_down `{ext : Externals} (gw : Gateway)
    (snapshot : list (string * Closure)) (entry : string * Closure) :
  entry ∈ snapshot ->
  keeps (winds_down (pending_close gw snapshot)) (recover_closure gw entry).
Proof.
  intros Hin s. destruct entry as [k items]. unfold recover_closure.
  pose proof (pending_close_mono gw snapshot) as Hmono.
  apply (winds_down_bind _ Hmono).
  { destruct (fromisoformat (closure_time items)); apply winds_down_refl. }
  intros fire_at s1 _.
  apply (winds_down_bind _ Hmono); [apply winds_down_utcnow|].
  intros now s2 _. cbv zeta.
  apply (winds_down_bind _ Hmono).
  { destruct (py_int k); apply winds_down_refl. }
  intros rid s3 Hrid.
  destruct (py_int k) as [rid'|] eqn:Hk; [|discriminate].
  injection Hrid as -> ->.
  unfold bind at 1, find_by_recipient.
  destruct (List.find (is_recipient rid) (threads s3)) as [t|] eqn:Hfind.
  - apply find_some in Hfind as [Hmem Hid]. apply Z.eqb_eq in Hid.
    apply (winds_down_thread_close _ Hmono). rewrite Hid. simpl.
    split; [destruct (fire_at - now <? 0) eqn:E; lia|].
    split; [exists t; split; [apply list_elem_of_In; exact Hmem | exact Hid]|].
    exists k, items. repeat split; assumption.
  - unfold pop_closure, config_update.
    apply (keeps_bind _ (winds_down_trans _ Hmono)).
    + apply (keeps_bind _ (winds_down_trans _ Hmono));
        [apply (keeps_read _ (winds_down_refl _))|].
      intros present. destruct present;
        [apply (keeps_update_config _ (winds_down_config _))
        |apply (keeps_raise _ (winds_down_refl _))].
    + intros _ s4. apply winds_down_emit. exact I.
Qed.

(** X12.  Whatever the persisted closures hold, and whether the startup
    recovery runs through or raises, it opens no thread and the registry
    it leaves is part of the rebuilt one; every thread event it causes is
    the close of a thread of the rebuilt registry whose recipient has a
    record among the closures persisted at startup, called with the
    arguments of that record and a delay that is never negative. *)
Theorem on_ready_closes_only_pending `{ext : Externals} (gw : Gateway) (s : Bot) :
  let s' := state_of (on_ready gw s) in
  (forall t, t ∈ threads s' -> t ∈ relay_threads gw) /\
  Forall (pending_close gw (closures (config s)) (relay_threads gw)) (new_events s s').
Proof.
  intros s'. subst s'. unfold on_ready, populate_cache.
  set (s0 := with_threads (fun _ => relay_threads gw) s).
  assert (Hrun : state_of ((modify (with_threads (fun _ => relay_threads gw)) ;;;
                            snapshot <- read closures ;;
                            for_each (recover_closure gw) snapshot) s)
                 = state_of (for_each (recover_closure gw) (closures (config s)) s0))
    by reflexivity.
  rewrite Hrun.
  destruct (winds_down_for_each _ (pending_close_mono gw (closures (config s)))
              (recover_closure gw) (closures (config s))
              (fun x Hx => recover_closure_winds_down gw _ x Hx) s0)
    as (Hsub & evs & Htr & Hok).
  split; [exact Hsub|].
  rewrite (new_events_app s _ evs Htr). exact Hok.
Qed.

Lemma on_ready_closes_only_pending_witness :
  let s' := state_of (on_ready (ext := sample_externals) startup_gateway restarted_bot) in
  new_events restarted_bot s' <> [] /\
  Forall (fun e => forall rid args, e = ThreadClose rid args ->
            0 <= close_after args /\ (rid = 7 \/ rid = 8))
    (new_events restarted_bot s').
Proof.
  intros s'. split; [vm_compute; discriminate|].
  destruct (on_ready_closes_only_pending (ext := sample_externals)
              startup_gateway restarted_bot) as [_ Hok].
  eapply Forall_impl; [exact Hok|].
  intros e He rid args ->. simpl in He.
  destruct He as (Hafter & (t & Ht & Hid) & _). split; [exact Hafter|].
  simpl in Ht. rewrite !elem_of_cons in Ht.
  destruct Ht as [->| [->|Ht]]; [left|right|inversion Ht]; symmetry; exact Hid.
Defined.

(** ** Reactions close no one else's thread *)

Lemma reaction_event_mono (gw : Gateway) (payload : Payload) (ts ts' : list Thread)
    (e : Event) :
  (forall t, t ∈ ts' -> t ∈ ts) ->
  reaction_event gw payload ts' e -> reaction_event gw payload ts e.
Proof.
  intros Hsub (user & Hu & Hb & He). exists user. repeat split; try assumption.
  destruct e; try exact He.
  destruct He as (Hr & Ha & t & Ht & Hid). repeat split; eauto.
Qed.

Lemma config_only_read_recipient_thread_close `{ext : Externals} :
  keeps config_only read_recipient_thread_close.
Proof.
  unfold read_recipient_thread_close, remove_recipient_thread_close. config_only_tac.
Qed.

Lemma private_reaction_winds_down `{ext : Externals} (gw : Gateway) (payload : Payload)
    (user : User) (message : Message) (close_e : emoji) :
  get_user gw (payload_user_id payload) = Some user ->
  user_bot user = false ->
  keeps (winds_down (reaction_event gw payload))
    (private_reaction user message (payload_emoji payload) close_e).
Proof.
  intros Hu Hb s. unfold private_reaction.
  pose proof (reaction_event_mono gw payload) as Hmono.
  destruct (String.eqb (payload_emoji payload) (str_emoji close_e));
    [|apply winds_down_refl].
  unfold bind at 1, find_by_recipient.
  destruct (List.find (is_recipient (user_id user)) (threads s)) as [t|] eqn:Hfind;
    [|apply winds_down_refl].
  destruct (bool_decide (first_embed_timestamp message =
                         Some (channel_created_at (thread_channel t))));
    [|apply winds_down_refl].
  apply find_some in Hfind as [Hmem Hid]. apply Z.eqb_eq in Hid.
  apply (winds_down_bind _ Hmono).
  { apply winds_down_config_only. apply config_only_read_recipient_thread_close. }
  intros enabled s1 Hrun.
  pose proof (config_only_read_recipient_thread_close s) as (Hts & _).
  rewrite Hrun in Hts. simpl in Hts.
  destruct enabled; [|apply winds_down_refl].
  apply (winds_down_thread_close _ Hmono).
  exists user. repeat split; try assumption.
  exists t. rewrite Hts. split; [apply list_elem_of_In; exact Hmem | reflexivity].
Qed.

Lemma relay_reaction_winds_down `{ext : Externals} (gw : Gateway) (payload : Payload)
    (user : User) (message : Message) :
  get_user gw (payload_user_id payload) = Some user ->
  user_bot user = false ->
  keeps (winds_down (reaction_event gw payload))
    (relay_reaction gw message (payload_emoji payload)).
Proof.
  intros Hu Hb. unfold relay_reaction.
  pose proof (reaction_event_mono gw payload) as Hmono.
  destruct (message_embeds message) as [|e _]; [apply (keeps_ret _ (winds_down_refl _))|].
  cbv zeta. destruct (isdigit (embed_author_url_tail e));
    [|apply (keeps_ret _ (winds_down_refl _))].
  apply (keeps_bind _ (winds_down_trans _ Hmono)).
  { intros s. apply winds_down_refl. }
  intros [thread|]; [|apply (keeps_raise _ (winds_down_refl _))].
  apply (winds_down_for_each _ Hmono). intros msg _.
  destruct (py_int (embed_author_url_tail e)) as [n|];
    [|apply (keeps_raise _ (winds_down_refl _))].
  destruct (message_id msg =? n); [|apply (keeps_ret _ (winds_down_refl _))].
  intros s. apply winds_down_emit. exists user. repeat split; assumption.
Qed.

(** X13.  A reaction, whatever it is and however the handler ends, opens
    no thread and causes nothing but mirrored reactions carrying the
    emoji of the payload and the close of the reactor's own thread,
    called as [thread.close(closer=user)]; each of these only for a known
    reactor that is not a bot.  A reaction by a bot account changes
    nothing at all. *)
Theorem reaction_closes_only_own_thread `{ext : Externals} (gw : Gateway)
    (payload : Payload) (s : Bot) :
  let s' := state_of (on_raw_reaction_add gw payload s) in
  (forall t, t ∈ threads s' -> t ∈ threads s) /\
  Forall (reaction_event gw payload (threads s)) (new_events s s') /\
  (forall user, get_user gw (payload_user_id payload) = Some user ->
     user_bot user = true -> on_raw_reaction_add gw payload s = Return tt s).
Proof.
  intros s'. subst s'.
  pose proof (reaction_event_mono gw payload) as Hmono.
  assert (Hdown : winds_down (reaction_event gw payload) s
                    (state_of (on_raw_reaction_add gw payload s))).
  { unfold on_raw_reaction_add.
    destruct (get_user gw (payload_user_id payload)) as [user|] eqn:Hu;
      [|apply winds_down_refl].
    destruct (user_bot user) eqn:Hb; [apply winds_down_refl|].
    revert s. apply (keeps_bind _ (winds_down_trans _ Hmono)).
    { destruct (get_channel gw (payload_channel_id payload)).
      - apply (keeps_ret _ (winds_down_refl _)).
      - apply (keeps_bind _ (winds_down_trans _ Hmono)).
        + intros s. apply winds_down_refl.
        + intros [t|]; apply (keeps_ret _ (winds_down_refl _)). }
    intros [channel|]; [|apply (keeps_ret _ (winds_down_refl _))].
    destruct (fetch_message gw channel (payload_message_id payload)) as [message|];
      [|apply (keeps_ret _ (winds_down_refl _))].
    cbv zeta.
    apply (keeps_bind _ (winds_down_trans _ Hmono));
      [apply (keeps_read _ (winds_down_refl _))|].
    intros name.
    apply (keeps_bind _ (winds_down_trans _ Hmono)).
    { unfold convert_emoji. destruct (unicode_emoji name);
        [apply (keeps_ret _ (winds_down_refl _))|].
      destruct (emoji_converter (strip_colon name));
        [apply (keeps_ret _ (winds_down_refl _)) | apply (keeps_raise _ (winds_down_refl _))]. }
    intros close_e.
    destruct (bool_decide (channel_kind channel = DMChannel)).
    - apply (private_reaction_winds_down gw payload user message close_e Hu Hb).
    - apply (relay_reaction_winds_down gw payload user message Hu Hb). }
  destruct Hdown as (Hsub & evs & Htr & Hok).
  split; [exact Hsub|]. split.
  - rewrite (new_events_app s _ evs Htr). exact Hok.
  - intros user Hu Hb. unfold on_raw_reaction_add. rewrite Hu, Hb. reflexivity.
Qed.

Lemma reaction_closes_only_own_thread_witness :
  let gw := sample_gateway [log_room; alice_room; bob_room] [] in
  let s := sample_bot sample_config [alice_thread; bob_thread] (y2030 + day) in
  let s' := state_of (on_raw_reaction_add (ext := sample_externals) gw (lock_reaction 101) s) in
  threads s' = [bob_thread] /\
  new_events s s' <> [] /\
  Forall (fun e => forall rid args, e = ThreadClose rid args -> rid = 7)
    (new_events s s').
Proof.
  intros gw s s'. split; [vm_compute; reflexivity|].
  split; [vm_compute; discriminate|].
  destruct (reaction_closes_only_own_thread (ext := sample_externals) gw
              (lock_reaction 101) s) as (_ & Hok & _).
  eapply Forall_impl; [exact Hok|].
  intros e (user & Hu & _ & He) rid args ->.
  destruct He as (-> & _). vm_compute in Hu. injection Hu as <-. reflexivity.
Defined.

(** ** A deleted channel closes at most its own thread *)

Lemma keeps_winds_down_config_only (ok : list Thread -> Event -> Prop) {A}
    (m : M Bot A) :
  keeps config_only m -> keeps (winds_down ok) m.
Proof. intros Hm s. apply winds_down_config_only. apply Hm. Qed.

Lemma deletion_event_mono (gw : Gateway) (channel : Channel) (ts ts' : list Thread)
    (e : Event) :
  (forall t, t ∈ ts' -> t ∈ ts) ->
  deletion_event gw channel ts' e -> deletion_event gw channel ts e.
Proof.
  intros Hsub. destruct e; simpl; auto.
  intros (Hk & t & target & deleter & Ht & Hrest). split; [exact Hk|].
  exists t, target, deleter. split; [auto | exact Hrest].
Qed.

(** X14.  The deletion of a channel, whatever the channel and however the
    handler ends, opens no thread and closes at most the thread the
    deleted channel backs: the channel is a text channel, the closer is
    the account the audit log names, which is not the bot's own, and the
    close is silent and keeps the channel.  When the audit log names the
    bot itself, no event is caused and the registry stays as it is. *)
Theorem channel_delete_closes_only_its_thread `{ext : Externals} (gw : Gateway)
    (channel : Channel) (s : Bot) :
  let s' := state_of (on_guild_channel_delete gw channel s) in
  (forall t, t ∈ threads s' -> t ∈ threads s) /\
  Forall (deletion_event gw channel (threads s)) (new_events s s') /\
  (forall target deleter,
     List.find (fun e => fst e =? channel_id channel) (audit_logs gw)
       = Some (target, deleter) ->
     user_id deleter = user_id (bot_user gw) ->
     config_only s s').
Proof.
  intros s'. subst s'.
  pose proof (deletion_event_mono gw channel) as Hmono.
  pose proof (keeps_winds_down_config_only (deletion_event gw channel) _
                (config_only_modmail_guild gw)) as Hguild.
  pose proof (keeps_winds_down_config_only (deletion_event gw channel) _
                (config_only_main_category gw)) as Hcat.
  pose proof (keeps_winds_down_config_only (deletion_event gw channel) _
                (config_only_log_channel_guard gw channel)) as Hlog.
  assert (Hdown : winds_down (deletion_event gw channel) s
                    (state_of (on_guild_channel_delete gw channel s))).
  { revert s. unfold on_guild_channel_delete.
    apply (keeps_bind _ (winds_down_trans _ Hmono)); [exact Hguild|].
    intros g. destruct (negb (bool_decide (channel_guild channel = guild_ident <$> g)));
      [apply (keeps_ret _ (winds_down_refl _))|].
    apply (keeps_bind _ (winds_down_trans _ Hmono)); [exact Hguild|].
    intros [g'|]; [|apply (keeps_raise _ (winds_down_refl _))].
    destruct (List.find (fun e => fst e =? channel_id channel) (audit_logs gw))
      as [[target deleter]|] eqn:Haudit; [|apply (keeps_raise _ (winds_down_refl _))].
    cbv zeta. simpl snd.
    destruct (user_id deleter =? user_id (bot_user gw)) eqn:Hself;
      [apply (keeps_ret _ (winds_down_refl _))|].
    apply Z.eqb_neq in Hself.
    destruct (bool_decide (channel_kind channel = CategoryChannel)).
    { apply (keeps_bind _ (winds_down_trans _ Hmono)); [exact Hcat|].
      intros [cat|]; [|apply (keeps_raise _ (winds_down_refl _))].
      destruct (category_id cat =? channel_id channel);
        [|apply (keeps_ret _ (winds_down_refl _))].
      apply (keeps_bind _ (winds_down_trans _ Hmono)).
      - apply (keeps_update_config _ (winds_down_config _)).
      - intros _ s. apply winds_down_emit. exact I. }
    destruct (bool_decide (channel_kind channel = TextChannel)) eqn:Hkind; simpl;
      [|apply (keeps_ret _ (winds_down_refl _))].
    apply bool_decide_eq_true_1 in Hkind.
    apply (keeps_bind _ (winds_down_trans _ Hmono)); [exact Hlog|].
    intros [|].
    { apply (keeps_bind _ (winds_down_trans _ Hmono)).
      - apply (keeps_update_config _ (winds_down_config _)).
      - intros _ s. apply winds_down_emit. exact I. }
    intros s. unfold bind at 1, find_by_channel.
    destruct (List.find (fun t => channel_id (thread_channel t) =? channel_id channel)
                (threads s)) as [t|] eqn:Hfind; [|apply winds_down_refl].
    apply find_some in Hfind as [Hmem Hid]. apply Z.eqb_eq in Hid.
    apply (winds_down_thread_close _ Hmono). split; [exact Hkind|].
    exists t, target, deleter. repeat split; try assumption.
    apply list_elem_of_In. exact Hmem. }
  destruct Hdown as (Hsub & evs & Htr & Hok).
  split; [exact Hsub|]. split.
  - rewrite (new_events_app s _ evs Htr). exact Hok.
  - intros target deleter Haudit Hself. clear Hsub evs Htr Hok. revert s.
    change (keeps config_only (on_guild_channel_delete gw channel)).
    unfold on_guild_channel_delete. rewrite Haudit. simpl snd. rewrite Hself, Z.eqb_refl.
    pose proof (config_only_modmail_guild gw).
    config_only_tac.
Qed.

Lemma channel_delete_closes_only_its_thread_witness :
  let gw := sample_gateway [log_room] [(31, moderator)] in
  let s := sample_bot sample_config [alice_thread; bob_thread] y2030 in
  let s' := state_of (on_guild_channel_delete (ext := sample_externals) gw alice_room s) in
  threads s' = [bob_thread] /\
  new_events s s' <> [] /\
  Forall (fun e => forall rid args, e = ThreadClose rid args ->
            rid = 7 /\ close_closer args = Some moderator /\ close_silent args = true)
    (new_events s s').
Proof.
  intros gw s s'. split; [vm_compute; reflexivity|].
  split; [vm_compute; discriminate|].
  destruct (channel_delete_closes_only_its_thread (ext := sample_externals) gw
              alice_room s) as (_ & Hok & _).
  eapply Forall_impl; [exact Hok|].
  intros e He rid args ->. simpl in He.
  destruct He as (_ & t & target & deleter & Ht & Hid & -> & Haudit & _ & ->).
  vm_compute in Haudit. injection Haudit as _ <-.
  split; [|split; reflexivity].
  simpl in Ht. rewrite !elem_of_cons in Ht.
  destruct Ht as [->| [->|Ht]]; [reflexivity | discriminate Hid | inversion Ht].
Defined.

(** ** Messages outside private channels *)

(** X15.  [get_context] returns for every message and leaves the state
    as it is.  A message written by the bot itself gets neither a command
    nor an invoked word; a word is reported as invoked only when the
    content starts with the configured prefix or a mention of the bot;
    and a command is reported only when that word is in the command
    table. *)
Theorem get_context_commands `{ext : Externals} (gw : Gateway) (message : Message)
    (content : string) (s : Bot) :
  exists ctx,
    get_context gw message content s = Return ctx s /\
    (user_id (message_author message) = user_id (bot_user gw) ->
       ctx_command ctx = None /\ ctx_invoked_with ctx = None) /\
    (forall w, ctx_invoked_with ctx = Some w ->
       exists p, p ∈ command_prefixes gw (config s) /\ startswith content p = true) /\
    (forall c, ctx_command ctx = Some c ->
       is_command c = true /\ ctx_invoked_with ctx = Some c).
Proof.
  unfold get_context, command_prefixes, find_by_channel, find_prefix.
  destruct (user_id (message_author message) =? user_id (bot_user gw)) eqn:Hself.
  - eexists. split; [reflexivity|]. simpl. repeat split; intros; discriminate.
  - apply Z.eqb_neq in Hself. unfold bind, read, ret. cbn -[List.find].
    match goal with
    | |- context [List.find ?f ?l] => destruct (List.find f l) as [p|] eqn:Hfind
    end.
    + apply find_some in Hfind as [Hin Hstart]. cbn -[List.find].
      eexists. split; [reflexivity|]. simpl. split; [intros; contradiction|].
      split.
      * intros w _. exists p. split; [apply list_elem_of_In; exact Hin | exact Hstart].
      * intros c Hc.
        match type of Hc with
        | (if is_command ?w then _ else _) = _ =>
            destruct (is_command w) eqn:Hcmd; [|discriminate];
            injection Hc as <-; split; [exact Hcmd | reflexivity]
        end.
    + eexists. split; [reflexivity|]. simpl. split; [intros; contradiction|].
      split; intros; discriminate.
Qed.

Lemma get_context_commands_witness :
  let gw := sample_gateway [log_room; alice_room] [] in
  let s := sample_bot sample_config [alice_thread] y2030 in
  exists ctx,
    get_context (ext := sample_externals) gw hello "?Close now" s = Return ctx s /\
    ctx_command ctx = Some "close" /\
    is_command (Externals := sample_externals) "close" = true.
Proof.
  intros gw s.
  destruct (get_context_commands (ext := sample_externals) gw hello "?Close now" s)
    as (ctx & Hrun & _ & _ & Hcmd).
  exists ctx. split; [exact Hrun|].
  assert (Hc : ctx_command ctx = Some "close").
  { apply (f_equal value_of) in Hrun. vm_compute in Hrun.
    injection Hrun as <-. reflexivity. }
  split; [exact Hc|]. apply (Hcmd "close" Hc).
Defined.

Lemma get_context_state `{ext : Externals} (gw : Gateway) (message : Message)
    (content : string) (s : Bot) :
  exists ctx,
    get_context gw message content s = Return ctx s /\
    forall c, ctx_command ctx = Some c -> is_command c = true.
Proof.
  unfold get_context, find_by_channel, find_prefix.
  destruct (user_id (message_author message) =? user_id (bot_user gw));
    [eexists; split; [reflexivity | discriminate]|].
  unfold bind, read, ret. cbn -[List.find].
  match goal with
  | |- context [List.find ?f ?l] => destruct (List.find f l)
  end; (eexists; split; [reflexivity|]); simpl; [|discriminate].
  intros c Hc.
  match type of Hc with
  | (if is_command ?w then _ else _) = _ =>
      destruct (is_command w) eqn:Hcmd; [|discriminate];
      injection Hc as <-; exact Hcmd
  end.
Qed.

Lemma config_only_read_reply_without_command `{ext : Externals} :
  keeps config_only read_reply_without_command.
Proof.
  unfold read_reply_without_command, remove_reply_without_command. config_only_tac.
Qed.

Lemma read_reply_without_command_keeps_blocks `{ext : Externals} (s : Bot) :
  blocked (config (state_of (read_reply_without_command s))) = blocked (config s) /\
  closures (config (state_of (read_reply_without_command s))) = closures (config s).
Proof.
  unfold read_reply_without_command, remove_reply_without_command.
  destruct_bot s. run. destruct (strtobool rwc); split; reflexivity.
Qed.

(** X16.  A message outside a private channel goes one of two ways.
    Either the context [get_context] takes from its content (as written,
    or rewritten to the prefix, [reply] and a snippet) names a command,
    one of the command table: the handler then is the invocation of that
    command on the message with that content, and what happens is up to
    the command.  Or, however the handling
    ends, the registry, the block map and the persisted closures stay as
    they are and at most one thing happens: the message is relayed to the
    recipient of the thread its channel backs, or it is logged as a note
    of that thread, or an unknown command is reported where the channel
    backs no thread. *)
Theorem guild_message_routed_once `{ext : Externals} (gw : Gateway)
    (message : Message) (s : Bot) :
  let s' := state_of (guild_message gw message s) in
  (exists command content ctx,
     (content = message_content message \/
      exists text, content = prefix (config s) +:+ "reply " +:+ text) /\
     get_context gw message content s = Return ctx s /\
     ctx_command ctx = Some command /\
     is_command command = true /\
     guild_message gw message s =
       invoke command (with_content content message)
         (state_of (emit (Invoke command (message_id message)) s))) \/
  (threads s' = threads s /\
   blocked (config s') = blocked (config s) /\
   closures (config s') = closures (config s) /\
   (length (new_events s s') <= 1)%nat /\
   Forall (routed message (threads s)) (new_events s s')).
Proof.
  intros s'. subst s'.
  assert (Hnone : forall s0 : Bot,
            threads s0 = threads s /\ blocked (config s0) = blocked (config s) /\
            closures (config s0) = closures (config s) /\ trace s0 = trace s ->
            threads s0 = threads s /\
            blocked (config s0) = blocked (config s) /\
            closures (config s0) = closures (config s) /\
            (length (new_events s s0) <= 1)%nat /\
            Forall (routed message (threads s)) (new_events s s0)).
  { intros s0 (Ht & Hb & Hc & Htr). repeat split; try assumption;
      rewrite (new_events_app s s0 []) by (rewrite Htr, app_nil_r; reflexivity);
      [simpl; lia | constructor]. }
  assert (Hone : forall (s0 : Bot) (e : Event),
            threads s0 = threads s /\ blocked (config s0) = blocked (config s) /\
            closures (config s0) = closures (config s) /\
            trace s0 = (trace s ++ [e])%list ->
            routed message (threads s) e ->
            threads s0 = threads s /\
            blocked (config s0) = blocked (config s) /\
            closures (config s0) = closures (config s) /\
            (length (new_events s s0) <= 1)%nat /\
            Forall (routed message (threads s)) (new_events s s0)).
  { intros s0 e (Ht & Hb & Hc & Htr) He. repeat split; try assumption;
      rewrite (new_events_app s s0 [e] Htr); [simpl; lia | repeat constructor; exact He]. }
  unfold guild_message. cbv zeta.
  rewrite (bind_return (read prefix) _ s (prefix (config s)) s eq_refl).
  (* the content the context is taken from *)
  match goal with
  | |- context [state_of (bind ?phase ?k s)] =>
      assert (Hphase : (exists c, phase s = Return c s /\
                          (c = message_content message \/
                           exists text, c = prefix (config s) +:+ "reply " +:+ text)) \/
                       (exists e, phase s = Raise e s))
  end.
  { destruct (startswith (message_content message) (prefix (config s)));
      [|left; eexists; split; [reflexivity | left; reflexivity]].
    unfold bind, read, find_by_channel, ret, raise.
    destruct (snippets (config s) !! _) as [snippet|];
      [|left; eexists; split; [reflexivity | left; reflexivity]].
    destruct (List.find _ (threads s)) as [t|];
      [|left; eexists; split; [reflexivity | right; eexists; reflexivity]].
    destruct (snippet_format snippet (thread_recipient t));
      [right; eexists; reflexivity
      |left; eexists; split; [reflexivity | right; eexists; reflexivity]]. }
  destruct Hphase as [(content & Hphase & Hcontent)|[e Hphase]].
  2:{ right. rewrite (bind_raise _ _ _ _ _ Hphase). apply Hnone. auto. }
  rewrite !(bind_return _ _ _ _ _ Hphase).
  destruct (get_context_state gw message content s) as (ctx & Hctx & Hcmd).
  rewrite !(bind_return _ _ _ _ _ Hctx).
  destruct (ctx_command ctx) as [command|] eqn:Hcommand.
  { left. exists command, content, ctx.
    split; [exact Hcontent|]. split; [exact Hctx|]. split; [exact Hcommand|].
    split; [exact (Hcmd command eq_refl) | reflexivity]. }
  right.
  rewrite (bind_return (find_by_channel (channel_id (message_channel message))) _ s
             (thread_of_channel message (threads s)) s eq_refl).
  destruct (thread_of_channel message (threads s)) as [t|] eqn:Hthread.
  - pose proof (config_only_read_reply_without_command s) as (Hts & Htr & _).
    pose proof (read_reply_without_command_keeps_blocks s) as (Hb & Hc).
    unfold bind.
    destruct (read_reply_without_command s) as [[|] s1|e s1];
      simpl in Hts, Htr, Hb, Hc; cbv beta iota.
    + apply (Hone (state_of (thread_reply t message s1))
               (ThreadReply (user_id (thread_recipient t)) (message_id message))).
      * unfold thread_reply, emit. simpl. rewrite Htr. auto.
      * split; [reflexivity|]. exists t. split; [exact Hthread | reflexivity].
    + apply (Hone (state_of (emit (AppendLog (message_id message)) s1))
               (AppendLog (message_id message))).
      * unfold emit. simpl. rewrite Htr. auto.
      * split; [reflexivity|]. rewrite Hthread. eauto.
    + apply Hnone. auto.
  - destruct (ctx_invoked_with ctx) as [w|]; [|apply Hnone; auto].
    destruct (String.eqb w "") eqn:Hw; [apply Hnone; auto|].
    apply (Hone _ (CommandError w)); [simpl; auto|].
    split; [|exact Hthread]. apply String.eqb_neq. exact Hw.
Qed.

Lemma guild_message_routed_once_witness :
  let gw := sample_gateway [log_room; alice_room] [] in
  let s := sample_bot sample_config [alice_thread] y2030 in
  let note :=
    {| message_id := 104; message_author := moderator; message_channel := alice_room;
       message_type := default_type; message_content := "on it"; message_embeds := [] |} in
  let s' := state_of (guild_message (ext := sample_externals) gw note s) in
  new_events s s' = [AppendLog 104] /\ threads s' = [alice_thread].
Proof.
  intros gw s note s'. subst s'. split; [vm_compute; reflexivity|].
  destruct (guild_message_routed_once (ext := sample_externals) gw note s)
    as [(command & content & ctx & _ & _ & _ & _ & Hrun)|(Hts & _)].
  - vm_compute. reflexivity.
  - rewrite Hts. reflexivity.
Defined.

(** With a command in the content the handler is the command: here
    [close], which in the sample table ends the thread of the channel. *)
Example guild_message_runs_command :
  let gw := sample_gateway [log_room; alice_room] [] in
  let s := sample_bot sample_config [alice_thread] y2030 in
  let order :=
    {| message_id := 106; message_author := moderator; message_channel := alice_room;
       message_type := default_type; message_content := "?close"; message_embeds := [] |} in
  let s' := state_of (guild_message (ext := sample_externals) gw order s) in
  new_events s s' = [Invoke "close" 106] /\ threads s = [alice_thread] /\ threads s' = [].
Proof. vm_compute. repeat split. Qed.

(** ** Snippets *)

Lemma drop_chars_app (p r : string) : drop_chars (String.length p) (p +:+ r) = r.
Proof.
  induction p as [|c p IH]; [reflexivity|].
  rewrite append_cons. simpl. exact IH.
Qed.

Lemma get_word_reply (text : string) : lower (get_word ("reply " +:+ text)) = "reply".
Proof. reflexivity. Qed.

(** X17.  A message outside a private channel whose content is the
    prefix followed by the name of a snippet, written by someone other
    than the bot, with [reply] a command that no alias shadows: the
    snippet is formatted for the recipient of the thread the channel
    backs (taken as it is where there is none), the content of the
    message becomes the prefix, [reply] and that text, and the handler is
    the invocation of the [reply] command on that message, whatever the
    command then does; if the formatting raises, the handler raises the
    same, nothing is invoked and nothing happens. *)
Theorem snippet_invokes_reply `{ext : Externals} (gw : Gateway) (message : Message)
    (s : Bot) (snippet : string) :
  let p := prefix (config s) in
  let replies text :=
    guild_message gw message s =
      invoke "reply" (with_content (p +:+ "reply " +:+ text) message)
        (state_of (emit (Invoke "reply" (message_id message)) s)) in
  startswith (message_content message) p = true ->
  snippets (config s) !! strip (drop_chars (String.length p) (message_content message))
    = Some snippet ->
  user_id (message_author message) <> user_id (bot_user gw) ->
  aliases (config s) !! "reply" = None ->
  is_command "reply" = true ->
  match thread_of_channel message (threads s) with
  | Some t =>
      match snippet_format snippet (thread_recipient t) with
      | inr text => replies text
      | inl e => guild_message gw message s = Raise e s
      end
  | None => replies snippet
  end.
Proof.
  intros p replies Hstart Hsnippet Hauthor Halias Hreply. subst replies. cbv beta.
  assert (Hexpanded : forall text,
    (ctx <- get_context gw message (p +:+ "reply " +:+ text) ;;
     match ctx_command ctx with
     | Some command =>
         emit (Invoke command (message_id message)) ;;;
         invoke command (with_content (p +:+ "reply " +:+ text) message)
     | None =>
         thread <- find_by_channel (channel_id (message_channel message)) ;;
         match thread with
         | Some thread =>
             reply_without_command <- read_reply_without_command ;;
             if reply_without_command
             then thread_reply thread message
             else emit (AppendLog (message_id message))
         | None =>
             match ctx_invoked_with ctx with
             | Some w => if String.eqb w "" then ret tt else emit (CommandError w)
             | None => ret tt
             end
         end
     end) s =
    invoke "reply" (with_content (p +:+ "reply " +:+ text) message)
      (state_of (emit (Invoke "reply" (message_id message)) s))).
  { intros text. unfold get_context, find_prefix.
    replace (user_id (message_author message) =? user_id (bot_user gw)) with false
      by (symmetry; apply Z.eqb_neq; exact Hauthor).
    unfold bind, find_by_channel, read, ret. cbn -[List.find drop_chars].
    fold p. cbn [List.find]. rewrite startswith_app. cbn -[drop_chars get_word lower].
    rewrite drop_chars_app, get_word_reply, Halias, Hreply. reflexivity. }
  unfold guild_message. cbv zeta.
  rewrite (bind_return (read prefix) _ s p s eq_refl).
  rewrite Hstart.
  destruct (thread_of_channel message (threads s)) as [t|] eqn:Hthread.
  - destruct (snippet_format snippet (thread_recipient t)) as [e|text] eqn:Hformat.
    + unfold bind, read, find_by_channel. fold p. rewrite Hsnippet.
      unfold thread_of_channel in Hthread. rewrite Hthread, Hformat. reflexivity.
    + rewrite <- (Hexpanded text).
      unfold bind at 1. unfold bind at 1, read at 1, find_by_channel at 1.
      fold p. rewrite Hsnippet. unfold bind at 1.
      unfold thread_of_channel in Hthread. rewrite Hthread. unfold bind at 1.
      rewrite Hformat. reflexivity.
  - rewrite <- (Hexpanded snippet).
    unfold bind at 1. unfold bind at 1, read at 1, find_by_channel at 1.
    fold p. rewrite Hsnippet. unfold bind at 1.
    unfold thread_of_channel in Hthread. rewrite Hthread. reflexivity.
Qed.

Lemma snippet_invokes_reply_witness :
  let gw := sample_gateway [log_room; alice_room] [] in
  let s := sample_bot snippet_config [alice_thread] y2030 in
  (startswith (message_content greeting) (prefix (config s)) = true /\
   snippets (config s)
     !! strip (drop_chars (String.length (prefix (config s))) (message_content greeting))
     = Some "Hello there" /\
   user_id (message_author greeting) <> user_id (bot_user gw) /\
   aliases (config s) !! "reply" = None /\
   is_command (Externals := sample_externals) "reply" = true) /\
  guild_message (ext := sample_externals) gw greeting s
    = invoke (Externals := sample_externals) "reply"
        (with_content "?reply Hello there" greeting)
        (state_of (emit (Invoke "reply" 105) s)).
Proof.
  intros gw s.
  assert (H1 : startswith (message_content greeting) (prefix (config s)) = true)
    by reflexivity.
  assert (H2 : snippets (config s)
                 !! strip (drop_chars (String.length (prefix (config s)))
                             (message_content greeting)) = Some "Hello there")
    by (vm_compute; reflexivity).
  assert (H3 : user_id (message_author greeting) <> user_id (bot_user gw))
    by discriminate.
  assert (H4 : aliases (config s) !! "reply" = None) by reflexivity.
  assert (H5 : is_command (Externals := sample_externals) "reply" = true)
    by reflexivity.
  split; [repeat split; assumption|].
  exact (snippet_invokes_reply (ext := sample_externals) gw greeting s "Hello there"
           H1 H2 H3 H4 H5).
Defined.

(** ** A malformed persisted closure *)





(** ** A private message touches its author's thread only *)

Lemma find_app_other (rid : Z) (l : list Thread) (t : Thread) :
  is_recipient rid t = false ->
  List.find (is_recipient rid) (l ++ [t]) = List.find (is_recipient rid) l.
Proof.
  intros Hother. induction l as [|t' l IH]; simpl.
  - rewrite Hother. reflexivity.
  - destruct (is_recipient rid t'); [reflexivity | exact IH].
Qed.

(** X19.  A private message, however its handling ends, concerns its
    author alone: for every other recipient the thread in the registry,
    the pending closure and the block entry are as before, and every
    thread event caused is about the author. *)
Theorem process_modmail_only_own_thread `{ext : Externals} (gw : Gateway)
    (message : Message) (s : Bot) (rid : Z) :
  let author := message_author message in
  let s' := state_of (process_modmail gw message s) in
  rid <> user_id author ->
  List.find (is_recipient rid) (threads s') = List.find (is_recipient rid) (threads s) /\
  dict_has (pretty rid) (closures (config s'))
    = dict_has (pretty rid) (closures (config s)) /\
  blocked (config s') !! pretty rid = blocked (config s) !! pretty rid /\
  Forall (fun e => forall r, event_recipient e = Some r -> r = user_id author)
    (new_events s s').
Proof.
  intros author s' Hother.
  assert (Es' : s' = state_of (process_modmail gw message s)) by reflexivity.
  clearbody s'.
  assert (Hkey : pretty rid <> str_id author).
  { unfold str_id. intros Heq. apply Hother. apply (inj pretty). exact Heq. }
  assert (Hnot : is_recipient rid {| thread_recipient := author;
                                     thread_channel := create_channel gw author |} = false).
  { unfold is_recipient. simpl. apply Z.eqb_neq. congruence. }
  pose proof (thread_free_process_blocked gw message s) as (Hts & evs & Htr & Hquiet).
  pose proof (only_entry_of_process_blocked gw message s) as (_ & Hcl & _ & Hbl).
  specialize (Hbl (pretty rid) Hkey).
  assert (Hevs : Forall (fun e => forall r, event_recipient e = Some r -> r = user_id author)
                   evs).
  { eapply Forall_impl; [exact Hquiet|]. intros e He r Hr.
    destruct e; simpl in He, Hr; discriminate. }
  unfold process_modmail, bind at 1 in Es'.
  destruct (_process_blocked gw message s) as [[|] s1|e s1];
    simpl in Hts, Htr, Hcl, Hbl.
  - simpl in Es'. subst s'.
    rewrite Hts, Hcl, Hbl, (new_events_app s s1 evs Htr). auto.
  - destruct_bot s1. simpl in Hts, Htr, Hcl, Hbl.
    change (negb false) with true in Es'. cbv beta iota in Es'.
    unfold find_or_create, find_by_recipient, bind at 1 in Es'.
    unfold bind at 1 in Es'. fold author in Es'. cbv beta iota in Es'.
    simpl in Es'.
    destruct (List.find (is_recipient (user_id author)) ts) as [t|] eqn:Hfind.
    + assert (Hid : user_id (thread_recipient t) = user_id author).
      { apply find_some in Hfind as [_ Hid]. apply Z.eqb_eq in Hid. exact Hid. }
      unfold thread_send, ret in Es'. cbv beta iota zeta in Es'. rewrite Hid in Es'.
      unfold bind, ret, update_config, modify, emit in Es'. simpl in Es'. subst s'.
      simpl. rewrite Hts, Hbl, dict_has_remove_ne, Hcl by exact Hkey.
      repeat split.
      erewrite new_events_app by (simpl; rewrite Htr, <- ?app_assoc; reflexivity).
      apply Forall_app. split; [exact Hevs|].
      repeat constructor. intros r [= <-]. reflexivity.
    + unfold thread_send in Es'.
      unfold bind, ret, update_config, modify, emit in Es'. simpl in Es'. subst s'.
      simpl.
      rewrite (find_app_other _ _ _ Hnot), Hts, Hbl, dict_has_remove_ne, Hcl by exact Hkey.
      repeat split.
      erewrite new_events_app by (simpl; rewrite Htr, <- !app_assoc; reflexivity).
      apply Forall_app. split; [exact Hevs|].
      repeat constructor; intros r [= <-]; reflexivity.
  - simpl in Es'. subst s'.
    rewrite Hts, Hcl, Hbl, (new_events_app s s1 evs Htr). auto.
Qed.

Lemma process_modmail_only_own_thread_witness :
  let gw := sample_gateway [log_room; bob_room] [] in
  let s := sample_bot (with_closures (fun _ => [("8", closure_due "2030-01-01T00:00:00")])
                         sample_config) [bob_thread] y2030 in
  let s' := state_of (process_modmail (ext := sample_externals) gw hello s) in
  new_events s s' <> [] /\
  List.find (is_recipient 8) (threads s') = Some bob_thread /\
  dict_has "8" (closures (config s')) = true.
Proof.
  intros gw s s'. subst s'. split; [vm_compute; discriminate|].
  destruct (process_modmail_only_own_thread (ext := sample_externals) gw hello s 8)
    as (Hthread & Hclosure & _); [discriminate|].
  split; [rewrite Hthread; reflexivity|].
  change "8" with (pretty 8%Z). rewrite Hclosure. reflexivity.
Defined.

(** ** The reaction tells the verdict *)

Lemma age_limits_silent `{ext : Externals} (message : Message) :
  keeps (fun s s' => trace s' = trace s) (age_limits message).
Proof.
  assert (Hrefl : forall s : Bot, trace s = trace s) by reflexivity.
  assert (Htrans : forall s1 s2 s3 : Bot,
            trace s2 = trace s1 -> trace s3 = trace s2 -> trace s3 = trace s1)
    by (intros; congruence).
  assert (Hconfig : forall f (s : Bot), trace (with_config f s) = trace s)
    by reflexivity.
  unfold age_limits, load_age, add_age, remove_account_age, remove_guild_age.
  repeat first
    [ apply (keeps_ret _ Hrefl)
    | apply (keeps_raise _ Hrefl)
    | apply (keeps_read _ Hrefl)
    | apply (keeps_update_config _ Hconfig)
    | apply (keeps_bind _ Htrans); [|intros]
    | apply (keeps_try_except _ Htrans)
    | match goal with
      | |- keeps _ utcnow => intros s; reflexivity
      | |- keeps _ (match ?x with _ => _ end) => destruct x
      end
    | progress cbv zeta ].
Qed.

Lemma whitelisted_sender_reaction `{ext : Externals} (message : Message) (sent : emoji)
    (s s' : Bot) (b : bool) :
  whitelisted_sender message sent s = Return b s' ->
  b = false /\
  exists evs, trace s' = (trace s ++ evs)%list /\
              List.filter is_reaction evs = reaction_with message sent.
Proof.
  unfold whitelisted_sender, reaction_with. destruct_bot s. run.
  destruct (bool_decide (is_Some (b0 !! str_id (message_author message))));
    destruct (not_disable sent); run; intros [= <- <-]; (split; [reflexivity|]);
    simpl; rewrite <- ?app_assoc;
    first [ eexists; split; [reflexivity|]; reflexivity
          | exists []; split; [rewrite app_nil_r; reflexivity | reflexivity] ].
Qed.

(** The emoji the decision of lines 550-615 settles on: the blocked one
    with the sender's entry in the block map, the sent one without. *)
Lemma policy_reaction `{ext : Externals} (gw : Gateway) (message : Message)
    (sent blocked_e : emoji) (now : Z) (reason : string) (ta tg : Z)
    (s s3 : Bot) (reaction : emoji) :
  let key := str_id (message_author message) in
  (if now <? ta then
     age_not_met gw new_account_kind message reason ta ;;; ret blocked_e
   else if now <? tg then
     age_not_met gw recently_joined_kind message reason tg ;;; ret blocked_e
   else
     present <- read (fun c => bool_decide (is_Some (blocked c !! key))) ;;
     if present then existing_block message reason now sent blocked_e
     else ret sent) s = Return reaction s3 ->
  (exists evs, trace s3 = (trace s ++ evs)%list /\ List.filter is_reaction evs = []) /\
  reaction = (if bool_decide (is_Some (blocked (config s3) !! key))
              then blocked_e else sent).
Proof.
  intros key.
  assert (Hage : forall kind t,
    (age_not_met gw kind message reason t ;;; ret blocked_e) s = Return reaction s3 ->
    (exists evs, trace s3 = (trace s ++ evs)%list /\ List.filter is_reaction evs = []) /\
    reaction = (if bool_decide (is_Some (blocked (config s3) !! key))
                then blocked_e else sent)).
  { intros kind t. rewrite (bind_return _ _ _ _ _ (age_not_met_runs gw kind message reason t s)).
    intros [= <- <-]. split.
    - eexists. split; [reflexivity|].
      destruct (startswith reason kind || _); reflexivity.
    - destruct_bot s. simpl. fold key.
      rewrite bool_decide_eq_true_2; [reflexivity|].
      case_bool_decide as Habsent; [rewrite lookup_insert_eq; eauto|].
      destruct (b !! key) eqn:Hb; [eauto | contradiction]. }
  destruct (now <? ta); [apply Hage|].
  destruct (now <? tg); [apply Hage|].
  clear Hage. unfold existing_block. fold key. destruct_bot s. run.
  assert (Hgone : bool_decide (is_Some (delete key b !! key)) = false).
  { apply bool_decide_eq_false_2. rewrite lookup_delete_eq. intros [? ?]; discriminate. }
  destruct (bool_decide (is_Some (b !! key))) eqn:Hpresent.
  - destruct (startswith reason new_account_kind || startswith reason recently_joined_kind);
      run.
    + intros [= <- <-]. simpl. rewrite Hgone. split; [|reflexivity].
      exists []. rewrite app_nil_r. auto.
    + destruct (search_end_time reason) as [text|]; run.
      * destruct (fromisoformat text) as [end_time|]; run; [|discriminate].
        destruct (offset_aware text); run; [discriminate|].
        destruct (end_time - now <=? 0); run; intros [= <- <-]; simpl;
          rewrite ?Hgone, ?Hpresent; (split; [|reflexivity]);
          exists []; rewrite app_nil_r; auto.
      * intros [= <- <-]. simpl. rewrite Hpresent. split; [|reflexivity].
        exists []. rewrite app_nil_r. auto.
  - intros [= <- <-]. simpl. rewrite Hpresent. split; [|reflexivity].
    exists []. rewrite app_nil_r. auto.
Qed.

(** X20.  Whenever the evaluation of a message returns, the reaction it
    added tells the verdict: with the emoji pair [retrieve_emoji] handed
    out, the message got exactly one reaction, the blocked emoji when it
    is rejected and the sent emoji when it is accepted, and none when
    that emoji is the word [disable]. *)
Theorem reaction_tells_verdict `{ext : Externals} (gw : Gateway) (message : Message)
    (s s' : Bot) (b : bool) :
  _process_blocked gw message s = Return b s' ->
  exists sent blocked_e s0,
    retrieve_emoji s = Return (sent, blocked_e) s0 /\
    List.filter is_reaction (new_events s s')
      = reaction_with message (if b then blocked_e else sent).
Proof.
  intros Hrun.
  destruct (retrieve_emoji_returns s) as (sent & blocked_e & se & be & E).
  exists sent, blocked_e. eexists. split; [exact E|].
  unfold _process_blocked in Hrun. rewrite (bind_return _ _ _ _ _ E) in Hrun.
  cbv beta iota zeta in Hrun.
  match type of E with _ = Return _ ?st => set (s0 := st) in * end.
  assert (Htr0 : trace s0 = (trace s ++ [ConfigUpdate])%list) by reflexivity.
  clearbody s0. clear E.
  unfold bind at 1, read at 1 in Hrun.
  destruct (bool_decide (str_id (message_author message) ∈ blocked_whitelist (config s0))).
  - destruct (whitelisted_sender_reaction message sent s0 s' b Hrun)
      as (-> & evs & Htr & Hreact).
    rewrite (new_events_app s s' (ConfigUpdate :: evs))
      by (rewrite Htr, Htr0, <- app_assoc; reflexivity).
    simpl. exact Hreact.
  - unfold bind at 1 in Hrun.
    pose proof (age_limits_silent message s0) as Hsilent.
    destruct (age_limits message s0) as [[[[now reason] ta] tg] s2|e s2];
      [|discriminate]. simpl in Hsilent.
    unfold apply_policy in Hrun. cbv zeta in Hrun.
    unfold bind at 1 in Hrun.
    match type of Hrun with
    | match ?phase with _ => _ end = _ =>
        destruct phase as [reaction s3|e s3] eqn:Hphase; [|discriminate]
    end.
    apply policy_reaction in Hphase as ((evs & Htr & Hquiet) & Hreaction).
    unfold config_update, reaction_with in *.
    destruct_bot s3. simpl in Htr, Hreaction.
    revert Hrun. run.
    destruct (not_disable reaction) eqn:Hd; run; intros [= <- <-];
      rewrite <- Hreaction, Hd.
    + erewrite new_events_app
        by (simpl; rewrite Htr, Hsilent, Htr0, <- !app_assoc; reflexivity).
      simpl. rewrite !List.filter_app, Hquiet. reflexivity.
    + erewrite new_events_app
        by (simpl; rewrite Htr, Hsilent, Htr0, <- !app_assoc; reflexivity).
      simpl. rewrite !List.filter_app, Hquiet. reflexivity.
Qed.

Lemma reaction_tells_verdict_witness :
  let gw := sample_gateway [log_room] [] in
  let s := sample_bot (one_day_config {[ "7" := "spam" ]}) [] y2030 in
  exists s',
    _process_blocked (ext := sample_externals) gw hello s = Return true s' /\
    List.filter is_reaction (new_events s s') = [AddReaction 100 (Plain "N")].
Proof.
  intros gw s.
  destruct (_process_blocked (ext := sample_externals) gw hello s) as [b s'|e s'] eqn:Hrun;
    [|vm_compute in Hrun; discriminate].
  assert (Hb : b = true).
  { apply (f_equal value_of) in Hrun. vm_compute in Hrun. injection Hrun as <-.
    reflexivity. }
  subst b. exists s'. split; [reflexivity|].
  destruct (reaction_tells_verdict (ext := sample_externals) gw hello s s' true Hrun)
    as (sent & blocked_e & s0 & Hemoji & Hreact).
  rewrite Hreact. vm_compute in Hemoji. injection Hemoji as <- <- _. reflexivity.
Defined.

(** ** [is_owner] *)

Lemma read_ids_some `{ext : Externals} (pieces : list string) (ids : list Z) :
  read_ids pieces = Some ids -> py_int <$> pieces = Some <$> ids.
Proof.
  revert ids. induction pieces as [|piece rest IH]; intros ids; cbn [read_ids].
  - intros [= <-]. reflexivity.
  - destruct (py_int piece) as [n|] eqn:Hn; [|discriminate].
    destruct (read_ids rest) as [ids'|]; intros H; cbn in H; [|discriminate].
    injection H as <-. rewrite !fmap_cons, Hn, (IH ids' eq_refl). reflexivity.
Qed.

Lemma read_ids_none `{ext : Externals} (pieces : list string) :
  read_ids pieces = None -> exists piece, piece ∈ pieces /\ py_int piece = None.
Proof.
  induction pieces as [|piece rest IH]; simpl; [discriminate|].
  destruct (py_int piece) as [n|] eqn:Hn.
  - destruct (read_ids rest) as [ids'|]; [discriminate|].
    intros _. destruct (IH eq_refl) as (p & Hp & Hnone).
    exists p. split; [right; exact Hp | exact Hnone].
  - intros _. exists piece. split; [left | exact Hn].
Qed.

(** X21.  With a stored list of owners, [is_owner] reads every piece
    between the commas before it looks for the user: it raises
    [ValueError] exactly when some piece is not an integer, whether or
    not the user is listed before it; otherwise it answers [True] for a
    listed user and falls back on the library's answer for any other. *)
Theorem is_owner_decides `{ext : Externals} (owners : string) (uid : Z) (base : bool) :
  let pieces := split_on "," owners in
  match is_owner (Some owners) uid base with
  | inl e => e = ValueError /\ exists piece, piece ∈ pieces /\ py_int piece = None
  | inr answer =>
      (forall piece, piece ∈ pieces -> is_Some (py_int piece)) /\
      answer = bool_decide (Some uid ∈ py_int <$> pieces) || base
  end.
Proof.
  intros pieces. unfold is_owner. fold pieces.
  destruct (read_ids pieces) as [ids|] eqn:Hids.
  - apply read_ids_some in Hids. split.
    + intros piece Hin.
      assert (Hmem : py_int piece ∈ py_int <$> pieces)
        by (apply list_elem_of_fmap; eauto).
      rewrite Hids in Hmem. apply list_elem_of_fmap in Hmem as (n & -> & _). eauto.
    + rewrite Hids.
      assert (Hiff : uid ∈ ids <-> Some uid ∈ Some <$> ids).
      { split.
        - intros Hin. apply list_elem_of_fmap. eauto.
        - intros Hin. apply list_elem_of_fmap in Hin as (n & [= ->] & Hn). exact Hn. }
      destruct (bool_decide (uid ∈ ids)) eqn:Hlisted.
      * apply bool_decide_eq_true in Hlisted.
        rewrite bool_decide_eq_true_2 by (apply Hiff; exact Hlisted). reflexivity.
      * apply bool_decide_eq_false in Hlisted.
        rewrite bool_decide_eq_false_2 by (intros Hin; apply Hlisted, Hiff; exact Hin).
        reflexivity.
  - split; [reflexivity|]. apply read_ids_none. exact Hids.
Qed.

Lemma split_on_trailing (sep : ascii) (text : string) :
  exists front, front <> [] /\ split_on sep (text +:+ String sep "") = (front ++ [""])%list.
Proof.
  induction text as [|c text (front & Hfront & IH)].
  - exists [""]. split; [discriminate|].
    change ("" +:+ String sep "") with (String sep ""). simpl.
    rewrite Ascii.eqb_refl. reflexivity.
  - rewrite append_cons. simpl. rewrite IH.
    destruct (Ascii.eqb c sep).
    + exists ("" :: front). split; [discriminate | reflexivity].
    + destruct front as [|piece pieces]; [contradiction|].
      exists (String c piece :: pieces). split; [discriminate | reflexivity].
Qed.

(** X22.  A stored list of owners that ends in a comma makes [is_owner]
    raise [ValueError] for every user, listed or not: the empty piece
    after the last comma is handed to [int], which rejects the empty
    text. *)
Theorem is_owner_trailing_comma `{ext : Externals} (text : string) (uid : Z)
    (base : bool) :
  py_int "" = None ->
  is_owner (Some (text +:+ ",")) uid base = inl ValueError.
Proof.
  intros Hempty. unfold is_owner.
  destruct (read_ids (split_on "," (text +:+ ","))) as [ids|] eqn:Hids; [|reflexivity].
  exfalso. apply read_ids_some in Hids.
  destruct (split_on_trailing "," text) as (front & _ & Hsplit).
  assert (Hmem : py_int "" ∈ py_int <$> split_on "," (text +:+ ",")).
  { apply list_elem_of_fmap. exists "". split; [reflexivity|].
    rewrite Hsplit. apply elem_of_app. right. left. }
  rewrite Hids, Hempty in Hmem.
  apply list_elem_of_fmap in Hmem as (n & Hn & _). discriminate.
Qed.

Lemma is_owner_trailing_comma_witness :
  py_int (Externals := sample_externals) "" = None /\
  is_owner (ext := sample_externals) (Some "7,") 7 true = inl ValueError /\
  is_owner (ext := sample_externals) (Some "7") 7 false = inr true.
Proof.
  split; [reflexivity|]. split; [|reflexivity].
  exact (is_owner_trailing_comma (ext := sample_externals) "7" 7 true eq_refl).
Defined.

Lemma is_owner_decides_witness :
  is_owner (ext := sample_externals) (Some "5,7") 7 false = inr true /\
  forall piece, piece ∈ split_on "," "5,7" ->
    is_Some (py_int (Externals := sample_externals) piece).
Proof.
  pose proof (is_owner_decides (ext := sample_externals) "5,7" 7 false) as H.
  cbv zeta in H.
  destruct (is_owner (ext := sample_externals) (Some "5,7") 7 false) as [e|answer] eqn:Hrun;
    [vm_compute in Hrun; discriminate|].
  destruct H as (Hall & _). split; [|exact Hall].
  vm_compute in Hrun. injection Hrun as <-. reflexivity.
Defined.

(** ** [overwrites] *)

Lemma get_set_overwrite (k k' : Target) (v : bool) (d : list (Target * bool)) :
  get_overwrite k (set_overwrite k' v d)
    = if bool_decide (k' = k) then Some v else get_overwrite k d.
Proof.
  unfold get_overwrite. induction d as [|[k0 v0] d IH]; simpl.
  - destruct (bool_decide (k' = k)); reflexivity.
  - destruct (bool_decide (k0 = k')) eqn:E0; simpl.
    + apply bool_decide_eq_true in E0. subst k0.
      destruct (bool_decide (k' = k)); reflexivity.
    + apply bool_decide_eq_false in E0.
      destruct (bool_decide (k0 = k)) eqn:E1; simpl.
      * apply bool_decide_eq_true in E1. subst k0.
        rewrite bool_decide_eq_false_2 by congruence. reflexivity.
      * exact IH.
Qed.

Lemma set_overwrite_keys (k : Target) (v : bool) (d : list (Target * bool)) :
  NoDup (fst <$> d) ->
  NoDup (fst <$> set_overwrite k v d) /\
  forall k', k' ∈ fst <$> set_overwrite k v d <-> k' = k \/ k' ∈ fst <$> d.
Proof.
  induction d as [|[k0 v0] d IH]; simpl; intros Hnd.
  - split; [repeat constructor; intros H; inversion H|].
    intros k'. rewrite elem_of_cons. reflexivity.
  - apply NoDup_cons in Hnd as [Hfresh Hnd].
    destruct (bool_decide (k0 = k)) eqn:E; simpl.
    + apply bool_decide_eq_true in E. subst k0. split.
      * apply NoDup_cons. split; assumption.
      * intros k'. rewrite elem_of_cons. tauto.
    + apply bool_decide_eq_false in E.
      destruct (IH Hnd) as [Hnd' Hkeys]. split.
      * apply NoDup_cons. split; [|exact Hnd'].
        rewrite Hkeys. intros [->|Hin]; [apply E; reflexivity | contradiction].
      * intros k'. rewrite !elem_of_cons, Hkeys. tauto.
Qed.

Lemma overwrites_fold (roles : list Role) (d : list (Target * bool)) :
  NoDup (fst <$> d) ->
  let result :=
    fold_left
      (fun d role =>
         if role_administrator role then set_overwrite (RoleTarget (role_id role)) true d
         else d) roles d in
  NoDup (fst <$> result) /\
  (forall m, get_overwrite (MemberTarget m) result = get_overwrite (MemberTarget m) d) /\
  (forall i, get_overwrite (RoleTarget i) result =
     if existsb (fun r => role_administrator r && (role_id r =? i)) roles
     then Some true else get_overwrite (RoleTarget i) d).
Proof.
  revert d. induction roles as [|role roles IH]; intros d Hnd; simpl.
  - auto.
  - destruct (role_administrator role) eqn:Hadmin; simpl.
    + destruct (set_overwrite_keys (RoleTarget (role_id role)) true d Hnd) as [Hnd' _].
      destruct (IH _ Hnd') as (Hkeys & Hme & Hrole). split; [exact Hkeys|]. split.
      * intros m. rewrite Hme, get_set_overwrite.
        rewrite bool_decide_eq_false_2 by discriminate. reflexivity.
      * intros i. rewrite Hrole, get_set_overwrite.
        destruct (role_id role =? i) eqn:Hi; simpl.
        -- apply Z.eqb_eq in Hi. subst i.
           rewrite bool_decide_eq_true_2 by reflexivity.
           destruct (existsb _ roles); reflexivity.
        -- apply Z.eqb_neq in Hi.
           rewrite bool_decide_eq_false_2 by congruence. reflexivity.
    + apply IH. exact Hnd.
Qed.

(** X23.  In the overwrites built for a guild the bot itself may always
    read; a role may read exactly when an administrator role of the
    guild carries its id, the default role included, which is denied
    only as long as it is not an administrator role itself; no other
    role gets an entry, and no key appears twice. *)
Theorem overwrites_lookup (default_role : Role) (me : Z) (roles : list Role) :
  let result := overwrites default_role me roles in
  NoDup (fst <$> result) /\
  get_overwrite (MemberTarget me) result = Some true /\
  forall i,
    get_overwrite (RoleTarget i) result =
      if existsb (fun r => role_administrator r && (role_id r =? i)) roles
      then Some true
      else if i =? role_id default_role then Some false else None.
Proof.
  intros result. subst result. unfold overwrites.
  set (d := [(RoleTarget (role_id default_role), false); (MemberTarget me, true)]).
  assert (Hnd : NoDup (fst <$> d)).
  { simpl. apply NoDup_cons. split.
    - rewrite elem_of_cons. intros [H|H]; inversion H.
    - apply NoDup_cons. split; [intros H; inversion H | constructor]. }
  destruct (overwrites_fold roles d Hnd) as (Hkeys & Hme & Hrole).
  split; [exact Hkeys|]. clear Hnd Hkeys. subst d. split.
  - rewrite Hme. unfold get_overwrite. simpl.
    rewrite bool_decide_eq_true_2 by reflexivity. reflexivity.
  - intros i. rewrite Hrole. destruct (existsb _ roles); [reflexivity|].
    unfold get_overwrite. simpl.
    destruct (i =? role_id default_role) eqn:Hi.
    + apply Z.eqb_eq in Hi. subst i.
      rewrite bool_decide_eq_true_2 by reflexivity. reflexivity.
    + apply Z.eqb_neq in Hi.
      rewrite bool_decide_eq_false_2 by congruence. reflexivity.
Qed.

Lemma overwrites_lookup_witness :
  let everyone := {| role_id := 10; role_administrator := true |} in
  let staff := {| role_id := 11; role_administrator := false |} in
  let result := overwrites everyone 1 [everyone; staff] in
  get_overwrite (RoleTarget 10) result = Some true /\
  get_overwrite (RoleTarget 11) result = None /\
  get_overwrite (MemberTarget 1) result = Some true.
Proof.
  intros everyone staff result.
  destruct (overwrites_lookup everyone 1 [everyone; staff]) as (_ & Hme & Hrole).
  split; [exact (Hrole 10)|]. split; [exact (Hrole 11) | exact Hme].
Defined.
